(** * custom_image_utils/shell_script_generator.py

    A shallow embedding of the shell-script based image creation workflow
    generator: the Python primitives the module relies on, the method
    [Generator._init_args], the template and [Generator.generate], and the
    control flow of the bash functions [exit_handler] and [main] that the
    template contains. *)

From Stdlib Require Import String Ascii List ZArith Bool Arith Lia DecimalString.
Import ListNotations.
Open Scope string_scope.

(** ** Python values and exceptions *)

(** The values an options mapping holds: [None], booleans, integers, strings
    and a str-to-str mapping (the extra sources), kept in insertion order. *)
Inductive value : Type :=
| VNone
| VBool (b : bool)
| VInt (z : Z)
| VStr (s : string)
| VDict (items : list (string * string)).

Inductive exn : Type :=
| KeyError (key : string)
| AttributeError (attr : string)
| TypeError (msg : string)
| ValueError (msg : string)
| IndexError (msg : string).

Inductive outcome (A : Type) : Type :=
| Ok (a : A)
| Raise (e : exn).
Arguments Ok {A} a.
Arguments Raise {A} e.

(** ** Dictionaries

    A Python dict keeps its keys in insertion order; assigning to a key that
    is already there replaces the value where the key stands. *)
Definition dict (V : Type) : Type := list (string * V).

Fixpoint dict_get {V : Type} (k : string) (d : dict V) : option V :=
  match d with
  | [] => None
  | (k', v) :: d' => if String.eqb k k' then Some v else dict_get k d'
  end.

Definition dict_mem {V : Type} (k : string) (d : dict V) : bool :=
  match dict_get k d with Some _ => true | None => false end.

Fixpoint dict_set {V : Type} (k : string) (v : V) (d : dict V) : dict V :=
  match d with
  | [] => [(k, v)]
  | (k', v') :: d' =>
      if String.eqb k k' then (k', v) :: d' else (k', v') :: dict_set k v d'
  end.

(** [d.update(items)]: the items are assigned one after the other. *)
Definition dict_update {V : Type} (d : dict V) (items : list (string * V)) : dict V :=
  fold_left (fun acc kv => dict_set (fst kv) (snd kv) acc) items d.

Definition keys {V : Type} (d : dict V) : list string := map fst d.

(** ** Strings *)

Definition dq : string := String (ascii_of_nat 34) EmptyString.
Definition nl : string := String (ascii_of_nat 10) EmptyString.
Definition sq : ascii := ascii_of_nat 39.

Definition str_of_Z (z : Z) : string := NilZero.string_of_int (Z.to_int z).

Definition is_digit (c : ascii) : bool :=
  ((48 <=? nat_of_ascii c) && (nat_of_ascii c <=? 57))%nat.

Fixpoint all_digits (s : string) : bool :=
  match s with
  | EmptyString => true
  | String c s' => is_digit c && all_digits s'
  end.

(** [s.replace(old, new)]: every occurrence of [old], scanning from the left
    and never overlapping.  [skip] counts the characters of a match that are
    still to be dropped. *)
Fixpoint replace_go (old new : string) (skip : nat) (s : string) : string :=
  match s with
  | EmptyString => EmptyString
  | String c s' =>
      match skip with
      | S n => replace_go old new n s'
      | O =>
          if prefix old s
          then new ++ replace_go old new (pred (String.length old)) s'
          else String c (replace_go old new 0 s')
      end
  end.

Fixpoint interleave (new s : string) : string :=
  match s with
  | EmptyString => new
  | String c s' => new ++ String c (interleave new s')
  end.

Definition replace (old new s : string) : string :=
  match old with
  | EmptyString => interleave new s
  | _ => replace_go old new 0 s
  end.

(** [sep.join(l)] *)
Fixpoint join (sep : string) (l : list string) : string :=
  match l with
  | [] => EmptyString
  | [x] => x
  | x :: l' => x ++ sep ++ join sep l'
  end.

(** Truth value of an object, as [if x:] tests it. *)
Definition truthy (v : value) : bool :=
  match v with
  | VNone => false
  | VBool b => b
  | VInt z => negb (z =? 0)%Z
  | VStr s => negb (String.eqb s EmptyString)
  | VDict items => match items with [] => false | _ => true end
  end.

(** ** The interpreter's environment

    [datetime.now()] and the text [str()] gives for a mapping are inputs of
    the model: the first is the wall clock, the second is the builtin repr of
    a dict, which no template field is meant to receive. *)
Record datetime : Type := {
  year : nat; month : nat; day : nat;
  hour : nat; minute : nat; second : nat
}.

Record runtime : Type := {
  now : datetime;
  repr_dict : list (string * string) -> string
}.

(** A [datetime] object is within these bounds; the year is taken to have
    four digits, as [%Y] prints it with. *)
Definition datetime_ok (t : datetime) : Prop :=
  1000 <= year t < 10 * 1000 /\ 1 <= month t <= 12 /\ 1 <= day t <= 31 /\
  hour t <= 23 /\ minute t <= 59 /\ second t <= 59.

Definition digit (n : nat) : ascii := ascii_of_nat (48 + n mod 10).

Definition pad2 (n : nat) : string :=
  String (digit (n / 10)) (String (digit n) EmptyString).

Definition pad4 (n : nat) : string :=
  String (digit (n / 1000)) (String (digit (n / 100)) (pad2 n)).

(** [t.strftime(fmt)] for the directives the module uses. *)
Fixpoint strftime (fmt : string) (t : datetime) : string :=
  match fmt with
  | EmptyString => EmptyString
  | String "%" (String c rest) =>
      (if Ascii.eqb c "Y" then pad4 (year t)
       else if Ascii.eqb c "m" then pad2 (month t)
       else if Ascii.eqb c "d" then pad2 (day t)
       else if Ascii.eqb c "H" then pad2 (hour t)
       else if Ascii.eqb c "M" then pad2 (minute t)
       else if Ascii.eqb c "S" then pad2 (second t)
       else String "%" (String c EmptyString)) ++ strftime rest t
  | String c rest => String c (strftime rest t)
  end.

(** [str(v)], which is what an empty format specification applies. *)
Definition py_str (repr : list (string * string) -> string) (v : value) : string :=
  match v with
  | VNone => "None"
  | VBool true => "True"
  | VBool false => "False"
  | VInt z => str_of_Z z
  | VStr s => s
  | VDict items => repr items
  end.

(** ** [str.format]

    A format string is read into literal characters and replacement fields;
    [{{] and [}}] stand for a brace, [{name}] is looked up among the keyword
    arguments and [{}] takes the next positional argument. *)
Inductive piece : Type :=
| Lit (c : ascii)
| Field (name : string).

Definition snoc (s : string) (c : ascii) : string := s ++ String c EmptyString.

Fixpoint parse_format (cur : option string) (s : string) : option (list piece) :=
  match s with
  | EmptyString => match cur with None => Some [] | Some _ => None end
  | String c s' =>
      match cur with
      | Some name =>
          if Ascii.eqb c "}" then option_map (cons (Field name)) (parse_format None s')
          else if Ascii.eqb c "{" then None
          else parse_format (Some (snoc name c)) s'
      | None =>
          if Ascii.eqb c "{" then
            match s' with
            | String "{" s'' => option_map (cons (Lit "{")) (parse_format None s'')
            | _ => parse_format (Some EmptyString) s'
            end
          else if Ascii.eqb c "}" then
            match s' with
            | String "}" s'' => option_map (cons (Lit "}")) (parse_format None s'')
            | _ => None
            end
          else option_map (cons (Lit c)) (parse_format None s')
      end
  end.

Fixpoint format_pieces (repr : list (string * string) -> string) (ps : list piece)
    (pos : list value) (kw : dict value) : outcome string :=
  match ps with
  | [] => Ok EmptyString
  | Lit c :: ps' =>
      match format_pieces repr ps' pos kw with
      | Ok s => Ok (String c s)
      | Raise e => Raise e
      end
  | Field EmptyString :: ps' =>
      match pos with
      | [] => Raise (IndexError "Replacement index out of range for positional args tuple")
      | v :: pos' =>
          match format_pieces repr ps' pos' kw with
          | Ok s => Ok (py_str repr v ++ s)
          | Raise e => Raise e
          end
      end
  | Field name :: ps' =>
      match dict_get name kw with
      | None => Raise (KeyError name)
      | Some v =>
          match format_pieces repr ps' pos kw with
          | Ok s => Ok (py_str repr v ++ s)
          | Raise e => Raise e
          end
      end
  end.

Definition format (repr : list (string * string) -> string) (fmt : string)
    (pos : list value) (kw : dict value) : outcome string :=
  match parse_format None fmt with
  | Some ps => format_pieces repr ps pos kw
  | None => Raise (ValueError "malformed format string")
  end.

(** ** Computations on the options mapping

    [_init_args] reads and assigns the entries of one dict object; a
    computation takes that dict and gives the value or the exception together
    with the dict as it then stands (an exception keeps what was assigned
    before it). *)
Definition D (A : Type) : Type := dict value -> outcome A * dict value.

Definition ret {A : Type} (a : A) : D A := fun d => (Ok a, d).

Definition bind {A B : Type} (c : D A) (k : A -> D B) : D B :=
  fun d =>
    match c d with
    | (Ok a, d') => k a d'
    | (Raise e, d') => (Raise e, d')
    end.

Declare Scope py_scope.
Delimit Scope py_scope with py.
Notation "x <- c ;; k" := (bind c (fun x => k))
  (at level 61, c at next level, right associativity) : py_scope.
Notation "c ;; k" := (bind c (fun _ => k))
  (at level 61, right associativity) : py_scope.
Open Scope py_scope.

Definition lift {A : Type} (r : outcome A) : D A := fun d => (r, d).

(** [self.args[k]] *)
Definition getitem (k : string) : D value :=
  fun d => match dict_get k d with
           | Some v => (Ok v, d)
           | None => (Raise (KeyError k), d)
           end.

(** [self.args[k] = v] *)
Definition setitem (k : string) (v : value) : D unit :=
  fun d => (Ok tt, dict_set k v d).

(** [k in self.args] *)
Definition contains (k : string) : D bool :=
  fun d => (Ok (dict_mem k d), d).

(** [fmt.format] with the entries of [self.args] as keyword arguments *)
Definition format_args (repr : list (string * string) -> string) (fmt : string) : D string :=
  fun d => (format repr fmt [] d, d).

(** [fmt.format] with [name=v] and then the entries of [self.args]: a
    keyword given twice is a TypeError. *)
Definition format_args_with (repr : list (string * string) -> string) (fmt : string)
    (name : string) (v : value) : D string :=
  fun d =>
    if dict_mem name d
    then (Raise (TypeError "got multiple values for keyword argument"), d)
    else (format repr fmt [] ((name, v) :: d), d).

(** [v.replace(old, new)]: only a str has the method. *)
Definition method_replace (v : value) (old new : string) : outcome string :=
  match v with
  | VStr s => Ok (replace old new s)
  | _ => Raise (AttributeError "replace")
  end.

(** [all_sources.update(v)]: a mapping is merged in; the empty string is an
    empty sequence of pairs; a string with characters is a sequence of
    elements of length one; the other values cannot be iterated. *)
Definition method_update (all_sources : dict value) (v : value) : outcome (dict value) :=
  match v with
  | VDict items =>
      Ok (dict_update all_sources (map (fun kv => (fst kv, VStr (snd kv))) items))
  | VStr EmptyString => Ok all_sources
  | VStr _ => Raise (ValueError "dictionary update sequence element #0 has length 1; 2 is required")
  | _ => Raise (TypeError "object is not iterable")
  end.

(** [tuple(enumerate(l))] *)
Fixpoint enumerate_from {A : Type} (i : nat) (l : list A) : list (nat * A) :=
  match l with
  | [] => []
  | x :: l' => (i, x) :: enumerate_from (S i) l'
  end.
Definition enumerate {A : Type} (l : list A) : list (nat * A) := enumerate_from 0 l.

(** A list comprehension whose element expression can raise: the elements
    are computed from the left and the first exception ends it. *)
Fixpoint comprehension {A B : Type} (f : A -> outcome B) (l : list A) : outcome (list B) :=
  match l with
  | [] => Ok []
  | x :: l' =>
      match f x with
      | Raise e => Raise e
      | Ok y =>
          match comprehension f l' with
          | Raise e => Raise e
          | Ok ys => Ok (y :: ys)
          end
      end
  end.

(** The quote that ends a single-quoted shell string, an escaped quote, and
    the quote that opens the next one: the text of ["'\\''"]. *)
Definition escaped_quote : string := "'\''".

(** ["[{}]='{}'".format(i, x.replace("'", "'\\''"))] *)
Definition array_element (repr : list (string * string) -> string) (i : nat) (x : value) : outcome string :=
  match method_replace x "'" escaped_quote with
  | Raise e => Raise e
  | Ok s => format repr "[{}]='{}'" [VInt (Z.of_nat i); VStr s] []
  end.

(** ** The template

    The text of [_template], line by line as the module writes it.  [L s] is
    a line and its newline; [K s] is a line that ends in a backslash, which
    inside the Python literal joins it to the next one (neither the backslash
    nor the newline is part of the text).  [dq] is a double quote. *)
Inductive tline : Type :=
| L (s : string)
| K (s : string).

Definition tline_text (l : tline) : string :=
  match l with
  | L s => s ++ nl
  | K s => s
  end.

Definition _template_lines : list tline :=
  [ L EmptyString;
    L "#!/usr/bin/env bash";
    L EmptyString;
    L "# Script for creating Dataproc custom image.";
    L EmptyString;
    L "set -euxo pipefail";
    L EmptyString;
    L "RED='\e[0;31m'";
    L "GREEN='\e[0;32m'";
    L "NC='\e[0m'";
    L EmptyString;
    L "function exit_handler() {{";
    L "  echo 'Cleaning up before exiting.'";
    L EmptyString;
    L "  if [[ -f /tmp/{run_id}/vm_created ]]; then";
    L "    echo 'Deleting VM instance.'";
    K "    gcloud compute instances delete {image_name}-install ";
    L "        --project={project_id} --zone={zone} -q";
    L "  elif [[ -f /tmp/{run_id}/disk_created ]]; then";
    L "    echo 'Deleting disk.'";
    L "    gcloud compute disks delete {image_name}-install --project={project_id} --zone={zone} -q";
    L "  fi";
    L EmptyString;
    L "  echo 'Uploading local logs to GCS bucket.'";
    L "  gsutil -m rsync -r {log_dir}/ {gcs_log_dir}/";
    L EmptyString;
    L "  if [[ -f /tmp/{run_id}/image_created ]]; then";
    L ("    echo -e " ++ dq ++ "${{GREEN}}Workflow succeeded, check logs at {log_dir}/ or {gcs_log_dir}/${{NC}}" ++ dq);
    L "    exit 0";
    L "  else";
    L ("    echo -e " ++ dq ++ "${{RED}}Workflow failed, check logs at {log_dir}/ or {gcs_log_dir}/${{NC}}" ++ dq);
    L "    exit 1";
    L "  fi";
    L "}}";
    L EmptyString;
    L "function main() {{";
    L "  echo 'Uploading files to GCS bucket.'";
    L "  declare -a sources_k=({sources_map_k})";
    L "  declare -a sources_v=({sources_map_v})";
    L ("  for i in " ++ dq ++ "${{!sources_k[@]}}" ++ dq ++ "; do");
    L ("    gsutil cp " ++ dq ++ "${{sources_v[i]}}" ++ dq ++ " " ++ dq ++ "{custom_sources_path}/${{sources_k[i]}}" ++ dq);
    L "  done";
    L EmptyString;
    L "  echo 'Creating disk.'";
    L "  if [[ '{base_image_family}' = '' ||  '{base_image_family}' = 'None' ]]; then";
    L ("     IMAGE_SOURCE=" ++ dq ++ "--image={base_image}" ++ dq);
    L "  else";
    L ("     IMAGE_SOURCE=" ++ dq ++ "--image-family={base_image_family}" ++ dq);
    L "  fi";
    L "  ";
    K "  gcloud compute disks create {image_name}-install ";
    K "      --project={project_id} ";
    K "      --zone={zone} ";
    K "      ${{IMAGE_SOURCE}} ";
    K "      --type=pd-ssd ";
    L "      --size={disk_size}GB";
    L EmptyString;
    L ("  touch " ++ dq ++ "/tmp/{run_id}/disk_created" ++ dq);
    L EmptyString;
    L "  echo 'Creating VM instance to run customization script.'";
    K "  gcloud compute instances create {image_name}-install ";
    K "      --project={project_id} ";
    K "      --zone={zone} ";
    K "      {network_flag} ";
    K "      {subnetwork_flag} ";
    K "      {no_external_ip_flag} ";
    K "      --machine-type={machine_type} ";
    K "      --disk=auto-delete=yes,boot=yes,mode=rw,name={image_name}-install ";
    K "      {accelerator_flag} ";
    K "      {service_account_flag} ";
    K "      --scopes=cloud-platform ";
    K "      {metadata_flag} ";
    L "      --metadata-from-file startup-script=startup_script/run.sh";
    L "  touch /tmp/{run_id}/vm_created";
    L EmptyString;
    L "  echo 'Waiting for customization script to finish and VM shutdown.'";
    K "  gcloud compute instances tail-serial-port-output {image_name}-install ";
    K "      --project={project_id} ";
    K "      --zone={zone} ";
    K "      --port=1 2>&1 ";
    K "      | grep 'startup-script' ";
    K "      | tee {log_dir}/startup-script.log ";
    L "      || true";
    L EmptyString;
    L "  echo 'Checking customization script result.'";
    L "  if grep 'BuildFailed:' {log_dir}/startup-script.log; then";
    L ("    echo -e " ++ dq ++ "${{RED}}Customization script failed.${{NC}}" ++ dq);
    L "    exit 1";
    L "  elif grep 'BuildSucceeded:' {log_dir}/startup-script.log; then";
    L ("    echo -e " ++ dq ++ "${{GREEN}}Customization script succeeded.${{NC}}" ++ dq);
    L "  else";
    L "    echo 'Unable to determine the customization script result.'";
    L "    exit 1";
    L "  fi";
    L EmptyString;
    L "  echo 'Creating custom image.'";
    K "  gcloud compute images create {image_name} ";
    K "      --project={project_id} ";
    K "      --source-disk-zone={zone} ";
    K "      --source-disk={image_name}-install ";
    K "      {storage_location_flag} ";
    L "      --family={family}";
    L "  touch /tmp/{run_id}/image_created";
    L "}}";
    L EmptyString;
    L "trap exit_handler EXIT";
    L "mkdir -p {log_dir}";
    L ("main " ++ dq ++ "$@" ++ dq ++ " 2>&1 | tee {log_dir}/workflow.log") ].

Definition _template : string :=
  String.concat EmptyString (map tline_text _template_lines).

(** ** The generator

    [Generator._init_args] first binds the caller's mapping ([self.args =
    args]); every later statement reads and assigns entries of that one dict.
    The statements are given block by block, in the order of the source; no
    local variable is shared between two blocks. *)

Section Generator.

Variable rt : runtime.

(** Lines 136-138. *)
Definition set_run_id : D unit :=
  has_run_id <- contains "run_id" ;;
  if has_run_id then ret tt
  else
    run_id <- format_args_with (repr_dict rt) "custom-image-{image_name}-{timestamp}"
                "timestamp" (VStr (strftime "%Y%m%d-%H%M%S" (now rt))) ;;
    setitem "run_id" (VStr run_id).

(** Lines 139-140. *)
Definition set_bucket_paths : D unit :=
  gcs_bucket <- getitem "gcs_bucket" ;;
  bucket_name <- lift (method_replace gcs_bucket "gs://" EmptyString) ;;
  setitem "bucket_name" (VStr bucket_name) ;;
  custom_sources_path <- format_args (repr_dict rt) "gs://{bucket_name}/{run_id}/sources" ;;
  setitem "custom_sources_path" (VStr custom_sources_path).

(** Lines 142-146: the dict of the files to upload. *)
Definition all_sources_of (customization_script extra_sources : value)
  : outcome (dict value) :=
  method_update
    [("run.sh", VStr "startup_script/run.sh");
     ("init_actions.sh", customization_script)]
    extra_sources.

(** Lines 149-150 and 151-152: the two list comprehensions over
    [sources_map_items], joined with a space. *)
Definition sources_map_k_of (sources_map_items : list (nat * (string * value)))
  : outcome string :=
  match comprehension
          (fun ikv => array_element (repr_dict rt) (fst ikv) (VStr (fst (snd ikv))))
          sources_map_items with
  | Ok l => Ok (join " " l)
  | Raise e => Raise e
  end.

Definition sources_map_v_of (sources_map_items : list (nat * (string * value)))
  : outcome string :=
  match comprehension
          (fun ikv => array_element (repr_dict rt) (fst ikv) (snd (snd ikv)))
          sources_map_items with
  | Ok l => Ok (join " " l)
  | Raise e => Raise e
  end.

(** Lines 142-152. *)
Definition set_sources_map : D unit :=
  customization_script <- getitem "customization_script" ;;
  extra_sources <- getitem "extra_sources" ;;
  all_sources <- lift (all_sources_of customization_script extra_sources) ;;
  let sources_map_items := enumerate all_sources in
  sources_map_k <- lift (sources_map_k_of sources_map_items) ;;
  setitem "sources_map_k" (VStr sources_map_k) ;;
  sources_map_v <- lift (sources_map_v_of sources_map_items) ;;
  setitem "sources_map_v" (VStr sources_map_v).

(** Lines 154-156. *)
Definition set_log_dirs : D unit :=
  log_dir <- format_args (repr_dict rt) "/tmp/{run_id}/logs" ;;
  setitem "log_dir" (VStr log_dir) ;;
  gcs_log_dir <- format_args (repr_dict rt) "gs://{bucket_name}/{run_id}/logs" ;;
  setitem "gcs_log_dir" (VStr gcs_log_dir).

(** Lines 157-162. *)
Definition set_network_flags : D unit :=
  subnetwork <- getitem "subnetwork" ;;
  if truthy subnetwork then
    subnetwork_flag <- format_args (repr_dict rt) "--subnet={subnetwork}" ;;
    setitem "subnetwork_flag" (VStr subnetwork_flag) ;;
    setitem "network_flag" (VStr EmptyString)
  else
    network <- getitem "network" ;;
    if truthy network then
      network_flag <- format_args (repr_dict rt) "--network={network}" ;;
      setitem "network_flag" (VStr network_flag) ;;
      setitem "subnetwork_flag" (VStr EmptyString)
    else ret tt.

(** Lines 163-166. *)
Definition set_service_account_flag : D unit :=
  service_account <- getitem "service_account" ;;
  if truthy service_account then
    service_account_flag <-
      format_args (repr_dict rt) "--service-account={service_account}" ;;
    setitem "service_account_flag" (VStr service_account_flag)
  else ret tt.

(** Lines 167-168. *)
Definition set_no_external_ip_flag : D unit :=
  no_external_ip <- getitem "no_external_ip" ;;
  setitem "no_external_ip_flag"
    (VStr (if truthy no_external_ip then "--no-address" else EmptyString)).

(** Lines 169-171. *)
Definition set_accelerator_flag : D unit :=
  accelerator <- getitem "accelerator" ;;
  accelerator_flag <-
    (if truthy accelerator
     then format_args (repr_dict rt)
            "--accelerator={accelerator} --maintenance-policy terminate"
     else ret EmptyString) ;;
  setitem "accelerator_flag" (VStr accelerator_flag).

(** Lines 172-174. *)
Definition set_storage_location_flag : D unit :=
  storage_location <- getitem "storage_location" ;;
  storage_location_flag <-
    (if truthy storage_location
     then format_args (repr_dict rt) "--storage-location={storage_location}"
     else ret EmptyString) ;;
  setitem "storage_location_flag" (VStr storage_location_flag).

(** Lines 175-180. *)
Definition set_metadata_flag : D unit :=
  let metadata_flag_template :=
    "--metadata=shutdown-timer-in-sec={shutdown_timer_in_sec}," ++
    "custom-sources-path={custom_sources_path}" in
  metadata <- getitem "metadata" ;;
  let metadata_flag_template :=
    if truthy metadata then metadata_flag_template ++ ",{metadata}"
    else metadata_flag_template in
  metadata_flag <- format_args (repr_dict rt) metadata_flag_template ;;
  setitem "metadata_flag" (VStr metadata_flag).

Definition _init_args : D unit :=
  set_run_id ;;
  set_bucket_paths ;;
  set_sources_map ;;
  set_log_dirs ;;
  set_network_flags ;;
  set_service_account_flag ;;
  set_no_external_ip_flag ;;
  set_accelerator_flag ;;
  set_storage_location_flag ;;
  set_metadata_flag.

(** [Generator.generate] on the dict that [args] denotes: the template is
    filled from the mapping [_init_args] has just completed. *)
Definition generate : D string :=
  _init_args ;;
  format_args (repr_dict rt) _template.

End Generator.

(** ** Objects

    The caller's mapping and the generator are objects: [self.args = args]
    makes the generator's attribute denote the caller's dict, so that what
    [_init_args] assigns is seen through both names. *)
Module Generator.

Record state : Type := {
  heap : nat -> dict value;      (* the dict objects, by address *)
  self_args : option nat         (* the attribute [args] of the generator *)
}.

Definition M (A : Type) : Type := state -> outcome A * state.

Definition heap_set (a : nat) (d : dict value) (h : nat -> dict value)
  : nat -> dict value :=
  fun b => if Nat.eqb b a then d else h b.

(** Run a computation on the dict at address [a]. *)
Definition on_dict {A : Type} (a : nat) (c : D A) : M A :=
  fun st =>
    let (r, d') := c (heap st a) in
    (r, {| heap := heap_set a d' (heap st); self_args := self_args st |}).

(** Run a computation on the dict [self.args] denotes. *)
Definition on_self_args {A : Type} (c : D A) : M A :=
  fun st =>
    match self_args st with
    | Some a => on_dict a c st
    | None => (Raise (AttributeError "args"), st)
    end.

(** [self._init_args(args)] *)
Definition call_init_args (rt : runtime) (args : nat) : M unit :=
  fun st =>
    on_self_args (_init_args rt) {| heap := heap st; self_args := Some args |}.

(** [self.generate(args)]: the template is filled from [args], the caller's
    name for the dict. *)
Definition call_generate (rt : runtime) (args : nat) : M string :=
  fun st =>
    match call_init_args rt args st with
    | (Ok _, st') => on_dict args (format_args (repr_dict rt) _template) st'
    | (Raise e, st') => (Raise e, st')
    end.

End Generator.

(** ** The generated script

    What bash does with the text the template gives: the value of the quoted
    words, and the control flow of the functions [exit_handler] and [main]
    under [set -euxo pipefail], with the commands of the cloud platform as
    external commands that end with a status. *)
Module Script.

(** *** Quoted words *)

(** The value of a word written with single-quoted strings and
    backslash-escaped characters: inside quotes every character stands for
    itself up to the closing quote; outside, a backslash makes the next
    character literal.  [None] for a quote left open and for any other text
    outside quotes, which this fragment does not give a value to. *)
Fixpoint word_value (quoted : bool) (w : string) : option string :=
  match w with
  | EmptyString => if quoted then None else Some EmptyString
  | String c w' =>
      if quoted then
        if Ascii.eqb c sq then word_value false w'
        else option_map (String c) (word_value true w')
      else if Ascii.eqb c sq then word_value true w'
      else if Ascii.eqb c "\" then
        match w' with
        | String c' w'' =>
            if Ascii.eqb c' (ascii_of_nat 10) then None
            else option_map (String c') (word_value false w'')
        | EmptyString => None
        end
      else None
  end.

(** The word at the front of a text, read the same way: its value and the
    text after the space that ends it (nothing, for the last word). *)
Fixpoint read_word (quoted : bool) (s : string) : option (string * string) :=
  match s with
  | EmptyString => if quoted then None else Some (EmptyString, EmptyString)
  | String c s' =>
      if quoted then
        if Ascii.eqb c sq then read_word false s'
        else option_map (fun r => (String c (fst r), snd r)) (read_word true s')
      else if Ascii.eqb c sq then read_word true s'
      else if Ascii.eqb c "\" then
        match s' with
        | String c' s'' =>
            if Ascii.eqb c' (ascii_of_nat 10) then None
            else option_map (fun r => (String c' (fst r), snd r)) (read_word false s'')
        | EmptyString => None
        end
      else if Ascii.eqb c " " then Some (EmptyString, s')
      else None
  end.

(** The subscript of an array element, after its opening bracket: digits up
    to the bracket and the equals sign. *)
Fixpoint read_index (s : string) : option (string * string) :=
  match s with
  | EmptyString => None
  | String c s' =>
      if Ascii.eqb c "]" then
        match s' with
        | String c' rest => if Ascii.eqb c' "=" then Some (EmptyString, rest) else None
        | EmptyString => None
        end
      else if is_digit c
      then option_map (fun r => (String c (fst r), snd r)) (read_index s')
      else None
  end.

(** The elements [[i]=word] of the text between the parentheses of
    [declare -a name=(...)], as pairs of a subscript and a value. *)
Fixpoint array_value (fuel : nat) (s : string) : option (list (string * string)) :=
  match fuel with
  | O => None
  | S fuel' =>
      match s with
      | EmptyString => Some []
      | String c s' =>
          if Ascii.eqb c "[" then
            match read_index s' with
            | Some (i, rest) =>
                match read_word false rest with
                | Some (v, rest') => option_map (cons (i, v)) (array_value fuel' rest')
                | None => None
                end
            | None => None
            end
          else None
      end
  end.

Definition array_parse (s : string) : option (list (string * string)) :=
  array_value (S (String.length s)) s.

(** The text ['s'], as the template writes a value between single quotes. *)
Definition single_quoted (s : string) : string :=
  String sq (s ++ String sq EmptyString).

(** A text of ASCII characters without the NUL byte, which bash and grep
    read byte for byte in every locale.  (Of an input that is not such a
    text grep may stop printing: it reports a binary file instead.) *)
Definition is_text_byte (c : ascii) : bool :=
  ((1 <=? nat_of_ascii c) && (nat_of_ascii c <=? 127))%nat.

Fixpoint is_text (s : string) : bool :=
  match s with
  | EmptyString => true
  | String c s' => is_text_byte c && is_text s'
  end.

Fixpoint has_any (p : ascii -> bool) (s : string) : bool :=
  match s with
  | EmptyString => false
  | String c s' => p c || has_any p s'
  end.

(** The characters that do not stand for themselves between double quotes:
    the double quote, [$], the backquote and the backslash. *)
Definition dquote : ascii := ascii_of_nat 34.

Definition quote_active (c : ascii) : bool :=
  Ascii.eqb c dquote || Ascii.eqb c "$" || Ascii.eqb c "`" || Ascii.eqb c "\".

(** The value of the text between two double quotes.  A backslash makes a
    following [$], backquote, double quote or backslash literal, is dropped
    together with a following newline, and stands for itself before any other
    character.  [$] and the backquote start an expansion, whose value depends
    on the variables and the commands of the shell, and a double quote or a
    last backslash moves the end of the string: for these the fragment gives
    no value. *)
Fixpoint double_quoted_value (s : string) : option string :=
  match s with
  | EmptyString => Some EmptyString
  | String c s' =>
      if Ascii.eqb c "\" then
        match s' with
        | String c' s'' =>
            if quote_active c' then option_map (String c') (double_quoted_value s'')
            else if Ascii.eqb c' (ascii_of_nat 10) then double_quoted_value s''
            else option_map (fun v => String c (String c' v)) (double_quoted_value s'')
        | EmptyString => None
        end
      else if quote_active c then None
      else option_map (String c) (double_quoted_value s')
  end.

(** The characters of a value at which an unquoted expansion is split
    (space, tab, newline) or which make it a pattern that is matched against
    the names of files ([*], [?], [[]); the backslash is counted with them. *)
Definition splits_or_globs (c : ascii) : bool :=
  Ascii.eqb c " " || Ascii.eqb c (ascii_of_nat 9) || Ascii.eqb c (ascii_of_nat 10) ||
  Ascii.eqb c "*" || Ascii.eqb c "?" || Ascii.eqb c "[" || Ascii.eqb c "\".

(** What an unquoted [${NAME}] gives the command line when the value is one
    word that stands for itself.  An empty value gives no word at all, and a
    value that is split or matched against file names gives words that this
    fragment does not determine. *)
Definition single_word (v : string) : option string :=
  if String.eqb v EmptyString || has_any splits_or_globs v then None else Some v.

(** Template lines 65-69 and 74: the argument that [${IMAGE_SOURCE}] gives
    [gcloud compute disks create], from the texts put in for
    [{base_image_family}] and [{base_image}].  The test compares the
    single-quoted word of line 65; both assignments must be texts the shell
    can read, and the one that is made gives the value.  No value is given
    for texts with a NUL byte or a byte outside ASCII. *)
Definition image_source (base_image_family base_image : string) : option string :=
  if is_text base_image_family && is_text base_image then
    match word_value false (single_quoted base_image_family),
          double_quoted_value ("--image=" ++ base_image),
          double_quoted_value ("--image-family=" ++ base_image_family) with
    | Some family, Some from_image, Some from_family =>
        single_word (if String.eqb family EmptyString || String.eqb family "None"
                     then from_image else from_family)
    | _, _, _ => None
    end
  else None.

(** *** grep *)

Fixpoint has_substring (pattern s : string) : bool :=
  prefix pattern s ||
  match s with
  | EmptyString => false
  | String _ s' => has_substring pattern s'
  end.

Fixpoint split_lines (s : string) : list string :=
  match s with
  | EmptyString => [EmptyString]
  | String c s' =>
      if Ascii.eqb c (ascii_of_nat 10) then EmptyString :: split_lines s'
      else
        match split_lines s' with
        | l :: ls => String c l :: ls
        | [] => [String c EmptyString]
        end
  end.

(** [grep 'pattern'] for a pattern without special characters: the lines
    that contain it. *)
Definition grep_lines (pattern s : string) : list string :=
  filter (has_substring pattern) (split_lines s).

(** *** The state of a run *)

Inductive marker : Type := disk_created | vm_created | image_created.

Inductive command : Type :=
| MkdirLogDir
| GsutilCp (source destination : string)
| DisksCreate (image_source : option string)
| InstancesCreate
| TailSerialPortOutput
| ImagesCreate
| InstancesDelete
| DisksDelete
| GsutilRsync.

Inductive event : Type :=
| Trap
| Echo (text : string)
| Run (c : command)
| Touch (m : marker).

Record world : Type := {
  disk_created_exists : bool;
  vm_created_exists : bool;
  image_created_exists : bool;
  startup_script_log : option string;   (* {log_dir}/startup-script.log *)
  trap_set : bool;
  events : list event                   (* what was done, oldest first *)
}.

(** What the script cannot decide: the status each external command ends
    with, what the command that follows the serial port of the VM prints,
    and, for an output that is not text, what [grep 'startup-script'] lets
    through of it. *)
Record environment : Type := {
  status : command -> nat;
  serial_port_output : string;
  non_text_log : string
}.

(** The texts the generator has put into the script. *)
Record parameters : Type := {
  sources : list (string * string);     (* sources_k[i], sources_v[i] *)
  custom_sources_path : string;
  base_image_family : string;
  base_image : string;
  log_dir : string;
  gcs_log_dir : string
}.

Inductive flow (A : Type) : Type :=
| Next (a : A)
| Exit (code : nat).
Arguments Next {A} a.
Arguments Exit {A} code.

Definition Sh (A : Type) : Type := world -> flow A * world.

Definition sh_ret {A : Type} (a : A) : Sh A := fun w => (Next a, w).

Definition sh_bind {A B : Type} (c : Sh A) (k : A -> Sh B) : Sh B :=
  fun w =>
    match c w with
    | (Next a, w') => k a w'
    | (Exit code, w') => (Exit code, w')
    end.

Declare Scope sh_scope.
Delimit Scope sh_scope with sh.
Notation "x <- c ;; k" := (sh_bind c (fun x => k))
  (at level 61, c at next level, right associativity) : sh_scope.
Notation "c ;; k" := (sh_bind c (fun _ => k))
  (at level 61, right associativity) : sh_scope.

Definition record (e : event) (w : world) : world :=
  {| disk_created_exists := disk_created_exists w;
     vm_created_exists := vm_created_exists w;
     image_created_exists := image_created_exists w;
     startup_script_log := startup_script_log w;
     trap_set := trap_set w;
     events := (events w ++ [e])%list |}.

Definition exists_file (m : marker) (w : world) : bool :=
  match m with
  | disk_created => disk_created_exists w
  | vm_created => vm_created_exists w
  | image_created => image_created_exists w
  end.

Definition create_file (m : marker) (w : world) : world :=
  {| disk_created_exists := match m with disk_created => true | _ => disk_created_exists w end;
     vm_created_exists := match m with vm_created => true | _ => vm_created_exists w end;
     image_created_exists := match m with image_created => true | _ => image_created_exists w end;
     startup_script_log := startup_script_log w;
     trap_set := trap_set w;
     events := events w |}.

Definition write_log (text : string) (w : world) : world :=
  {| disk_created_exists := disk_created_exists w;
     vm_created_exists := vm_created_exists w;
     image_created_exists := image_created_exists w;
     startup_script_log := Some text;
     trap_set := trap_set w;
     events := events w |}.

Definition set_trap (w : world) : world :=
  {| disk_created_exists := disk_created_exists w;
     vm_created_exists := vm_created_exists w;
     image_created_exists := image_created_exists w;
     startup_script_log := startup_script_log w;
     trap_set := true;
     events := events w |}.

Section Run.

Variable env : environment.
Variable p : parameters.

Local Open Scope sh_scope.

Definition echo (text : string) : Sh unit :=
  fun w => (Next tt, record (Echo text) w).

Definition exit (code : nat) : Sh unit :=
  fun w => (Exit code, w).

(** An external command; under [set -e] a status other than 0 ends the
    shell with that status. *)
Definition run (c : command) : Sh unit :=
  fun w =>
    match status env c with
    | O => (Next tt, record (Run c) w)
    | S n => (Exit (S n), record (Run c) w)
    end.

(** [touch /tmp/{run_id}/m] *)
Definition touch (m : marker) : Sh unit :=
  fun w => (Next tt, record (Touch m) (create_file m w)).

(** [[[ -f /tmp/{run_id}/m ]]] *)
Definition test_f (m : marker) : Sh bool :=
  fun w => (Next (exists_file m w), w).

(** [grep 'pattern' {log_dir}/startup-script.log] as the condition of an
    [if]: true when a line of the file has the pattern (status 0), false
    when none has (status 1) or the file cannot be read (status 2). *)
Definition grep (pattern : string) : Sh bool :=
  fun w =>
    (Next match startup_script_log w with
          | Some log => match grep_lines pattern log with [] => false | _ => true end
          | None => false
          end, w).

(** Template lines 32-54. *)
Definition exit_handler : Sh unit :=
  echo "Cleaning up before exiting." ;;
  vm <- test_f vm_created ;;
  (if vm then
     echo "Deleting VM instance." ;;
     run InstancesDelete
   else
     disk <- test_f disk_created ;;
     if disk then
       echo "Deleting disk." ;;
       run DisksDelete
     else sh_ret tt) ;;
  echo "Uploading local logs to GCS bucket." ;;
  run GsutilRsync ;;
  image <- test_f image_created ;;
  if image then
    echo ("Workflow succeeded, check logs at " ++ log_dir p ++ "/ or " ++ gcs_log_dir p ++ "/") ;;
    exit 0
  else
    echo ("Workflow failed, check logs at " ++ log_dir p ++ "/ or " ++ gcs_log_dir p ++ "/") ;;
    exit 1.

(** Template lines 60-62: the loop over the indices of [sources_k]. *)
Fixpoint upload (l : list (string * string)) : Sh unit :=
  match l with
  | [] => sh_ret tt
  | (k, v) :: l' =>
      run (GsutilCp v (custom_sources_path p ++ "/" ++ k)) ;;
      upload l'
  end.

(** Template lines 97-103: the pipeline ends in [|| true], so its status is
    not looked at; [tee] leaves what [grep 'startup-script'] lets through in
    the log file: of an output that is text, the lines that have the
    pattern. *)
Definition wait_for_shutdown : Sh unit :=
  fun w =>
    (Next tt,
     write_log
       (if is_text (serial_port_output env)
        then String.concat EmptyString
               (map (fun l => l ++ nl)
                  (grep_lines "startup-script" (serial_port_output env)))
        else non_text_log env)
       (record (Run TailSerialPortOutput) w)).

(** Template lines 105-114. *)
Definition check_result : Sh unit :=
  echo "Checking customization script result." ;;
  failed <- grep "BuildFailed:" ;;
  if failed then
    echo "Customization script failed." ;;
    exit 1
  else
    succeeded <- grep "BuildSucceeded:" ;;
    if succeeded then
      echo "Customization script succeeded."
    else
      echo "Unable to determine the customization script result." ;;
      exit 1.

(** Template lines 116-123. *)
Definition create_image : Sh unit :=
  echo "Creating custom image." ;;
  run ImagesCreate ;;
  touch image_created.

(** Template lines 56-124. *)
Definition main : Sh unit :=
  echo "Uploading files to GCS bucket." ;;
  upload (sources p) ;;
  echo "Creating disk." ;;
  run (DisksCreate (image_source (base_image_family p) (base_image p))) ;;
  touch disk_created ;;
  echo "Creating VM instance to run customization script." ;;
  run InstancesCreate ;;
  touch vm_created ;;
  echo "Waiting for customization script to finish and VM shutdown." ;;
  wait_for_shutdown ;;
  check_result ;;
  create_image.

(** Template lines 126-128 and the end of the shell: [trap exit_handler
    EXIT], [mkdir -p], then [main] in a pipeline whose status, under
    [pipefail] and [set -e], ends the shell when it is not 0.  When the
    shell ends the trap runs; the status is the handler's [exit] code, or
    the status of the command that ended the handler. *)
Definition script (w : world) : nat * world :=
  let w0 := record Trap (set_trap w) in
  let (r, w1) := (run MkdirLogDir ;; main) w0 in
  let code := match r with Next _ => 0 | Exit c => c end in
  if trap_set w1 then
    match exit_handler w1 with
    | (Exit c, w2) => (c, w2)
    | (Next _, w2) => (code, w2)
    end
  else (code, w1).

End Run.

End Script.

(** * Notions used in the statements *)

(** [frames W c]: whatever its outcome, [c] leaves the entries outside [W]
    as they were. *)
Definition frames {A : Type} (W : list string) (c : D A) : Prop :=
  forall d k, ~ In k W -> dict_get k (snd (c d)) = dict_get k d.

(** The keys [_init_args] assigns. *)
Definition derived_keys : list string :=
  [ "run_id"; "bucket_name"; "custom_sources_path"; "sources_map_k";
    "sources_map_v"; "log_dir"; "gcs_log_dir"; "subnetwork_flag";
    "network_flag"; "service_account_flag"; "no_external_ip_flag";
    "accelerator_flag"; "storage_location_flag"; "metadata_flag" ].

(** A run of [_init_args] that returns has gone through every block. *)
Inductive resolution (rt : runtime) (d d' : dict value) : Prop :=
| Resolution (d1 d2 d3 d4 d5 d6 d7 d8 d9 : dict value)
    (run_id_set : set_run_id rt d = (Ok tt, d1))
    (bucket_paths_set : set_bucket_paths rt d1 = (Ok tt, d2))
    (sources_map_set : set_sources_map rt d2 = (Ok tt, d3))
    (log_dirs_set : set_log_dirs rt d3 = (Ok tt, d4))
    (network_flags_set : set_network_flags rt d4 = (Ok tt, d5))
    (service_account_flag_set : set_service_account_flag rt d5 = (Ok tt, d6))
    (no_external_ip_flag_set : set_no_external_ip_flag d6 = (Ok tt, d7))
    (accelerator_flag_set : set_accelerator_flag rt d7 = (Ok tt, d8))
    (storage_location_flag_set : set_storage_location_flag rt d8 = (Ok tt, d9))
    (metadata_flag_set : set_metadata_flag rt d9 = (Ok tt, d')).

(** The text of a shell array: element [i] is written [[i]='s'], with the
    quotes inside [s] escaped, and the elements are separated by a space. *)
Definition element_text (i : nat) (s : string) : string :=
  "[" ++ str_of_Z (Z.of_nat i) ++ "]=" ++
  Script.single_quoted (replace "'" escaped_quote s).

Fixpoint array_elements (i : nat) (l : list string) : list string :=
  match l with
  | [] => []
  | s :: l' => element_text i s :: array_elements (S i) l'
  end.

Definition array_text (l : list string) : string := join " " (array_elements 0 l).

(** The strings a dict holds as values, when all of them are strings. *)
Fixpoint str_values (d : dict value) : option (list string) :=
  match d with
  | [] => Some []
  | (_, VStr s) :: d' => option_map (cons s) (str_values d')
  | _ => None
  end.

(** The sources as the specification words them: the two fixed entries
    first, each with the value of the extra source of the same name when
    there is one, then the other extra sources in the caller's order. *)
Definition is_fixed_name (k : string) : bool :=
  String.eqb k "run.sh" || String.eqb k "init_actions.sh".

Definition overwritten (extra : list (string * string)) (k : string) (v : value) : value :=
  match dict_get k extra with
  | Some s => VStr s
  | None => v
  end.

Definition merged_sources (customization_script : value)
    (extra : list (string * string)) : dict value :=
  ([ ("run.sh", overwritten extra "run.sh" (VStr "startup_script/run.sh"));
     ("init_actions.sh", overwritten extra "init_actions.sh" customization_script) ]
   ++ map (fun kv => (fst kv, VStr (snd kv)))
        (filter (fun kv => negb (is_fixed_name (fst kv))) extra))%list.

(** What [d.update(items)] comes to when no key is given twice: the
    entries of [d] stay where they are, with the value [items] has for their
    key if it has one, and the entries of [items] under new keys follow in
    their order. *)
Definition overlay {V : Type} (base items : dict V) : dict V :=
  map (fun kv => (fst kv, match dict_get (fst kv) items with
                          | Some v => v
                          | None => snd kv
                          end)) base.

Definition fresh {V : Type} (base items : dict V) : dict V :=
  filter (fun kv => negb (dict_mem (fst kv) base)) items.

(** Options that lack nothing [_init_args] reads: a run id or the image name
    to make one from, the bucket and the customization script as strings, the
    extra sources as a mapping, and an entry (whatever its value) for every
    option the flags are computed from. *)
Definition is_str (v : option value) : bool :=
  match v with Some (VStr _) => true | _ => false end.

Definition is_mapping (v : option value) : bool :=
  match v with Some (VDict _) => true | _ => false end.

Definition options_complete (d : dict value) : bool :=
  (dict_mem "run_id" d || (dict_mem "image_name" d && negb (dict_mem "timestamp" d)))
  && is_str (dict_get "gcs_bucket" d)
  && is_str (dict_get "customization_script" d)
  && is_mapping (dict_get "extra_sources" d)
  && forallb (fun k => dict_mem k d)
       [ "subnetwork"; "network"; "service_account"; "no_external_ip";
         "accelerator"; "storage_location"; "metadata"; "shutdown_timer_in_sec" ].

(** The template as [str.format] reads it, and the names of its fields in
    the order they are looked up. *)
Definition _template_pieces : list piece :=
  Eval vm_compute in
    match parse_format None _template with Some ps => ps | None => [] end.

Fixpoint fields (ps : list piece) : list string :=
  match ps with
  | [] => []
  | Lit _ :: ps' => fields ps'
  | Field name :: ps' => name :: fields ps'
  end.

Definition template_fields : list string :=
  Eval vm_compute in fields _template_pieces.

(** The first field no keyword argument is given for. *)
Definition first_missing (names : list string) (kw : dict value) : option string :=
  find (fun name => negb (dict_mem name kw)) names.

(** The text [format] gives when every field has a keyword argument. *)
Fixpoint render (repr : list (string * string) -> string) (ps : list piece)
    (kw : dict value) : string :=
  match ps with
  | [] => EmptyString
  | Lit c :: ps' => String c (render repr ps' kw)
  | Field name :: ps' =>
      match dict_get name kw with
      | Some v => py_str repr v ++ render repr ps' kw
      | None => render repr ps' kw
      end
  end.

(** Two mappings that differ at most in the entry [f]. *)
Definition agree_except (f : string) (d1 d2 : dict value) : Prop :=
  forall k, String.eqb k f = false -> dict_get k d1 = dict_get k d2.

(** [s] has the text [t] somewhere in it. *)
Definition contains_text (t s : string) : Prop :=
  exists before after, s = before ++ t ++ after.

Fixpoint has_char (c : ascii) (s : string) : bool :=
  match s with
  | EmptyString => false
  | String c' s' => Ascii.eqb c c' || has_char c s'
  end.









(** ** Sample inputs *)

Definition sample_runtime : runtime :=
  {| now := {| year := 2019; month := 1; day := 2;
               hour := 3; minute := 4; second := 5 |};
     repr_dict := fun _ => "{...}" |}.

(** The options of the end-to-end scenario: an image family, no extra
    source, and no network, subnetwork, accelerator or service account. *)
Definition demo_options : dict value :=
  [ ("image_name", VStr "demo"); ("project_id", VStr "p"); ("zone", VStr "z");
    ("gcs_bucket", VStr "gs://b"); ("base_image_family", VStr "debian-11");
    ("base_image", VNone); ("family", VStr "demo-family");
    ("disk_size", VInt 15); ("machine_type", VStr "n1-standard-1");
    ("shutdown_timer_in_sec", VInt 300);
    ("customization_script", VStr "/local/init.sh");
    ("extra_sources", VDict []);
    ("subnetwork", VNone); ("network", VNone); ("service_account", VNone);
    ("no_external_ip", VBool false); ("accelerator", VNone);
    ("storage_location", VNone); ("metadata", VNone) ].

(** The same with a network, a subnetwork and a service account. *)
Definition networked_options : dict value :=
  dict_set "service_account" (VStr "default")
    (dict_set "subnetwork" (VStr "sub") (dict_set "network" (VStr "net") demo_options)).

Definition networked_resolved : dict value :=
  Eval vm_compute in snd (generate sample_runtime networked_options).

Definition networked_script : string :=
  Eval vm_compute in
    match fst (generate sample_runtime networked_options) with
    | Ok s => s
    | Raise _ => EmptyString
    end.


Definition all_succeed : Script.environment :=
  {| Script.status := fun _ => 0;
     Script.serial_port_output :=
       "startup-script: BuildSucceeded: done" ++ nl;
     Script.non_text_log := EmptyString |}.

Definition sample_parameters : Script.parameters :=
  {| Script.sources := [("run.sh", "startup_script/run.sh"); ("init_actions.sh", "/local/init.sh")];
     Script.custom_sources_path := "gs://b/run/sources";
     Script.base_image_family := "debian-11";
     Script.base_image := "None";
     Script.log_dir := "/tmp/run/logs";
     Script.gcs_log_dir := "gs://b/run/logs" |}.

Definition world_with (disk vm image : bool) (log : option string) : Script.world :=
  {| Script.disk_created_exists := disk;
     Script.vm_created_exists := vm;
     Script.image_created_exists := image;
     Script.startup_script_log := log;
     Script.trap_set := false;
     Script.events := [] |}.

(** What bash reads back from the text of an array of [l]: every element
    under its position. *)
Fixpoint indexed (i : nat) (l : list string) : list (string * string) :=
  match l with
  | [] => []
  | s :: l' => (str_of_Z (Z.of_nat i), s) :: indexed (S i) l'
  end.

(** The end-to-end options with two extra sources, one of them with a quote
    and a space in its name. *)
Definition quoted_options : dict value :=
  dict_set "extra_sources"
    (VDict [("a.sh", "gs://x/a.sh"); ("it's.sh", "gs://x/it's here.sh")])
    demo_options.

Definition quoted_resolved : dict value :=
  Eval vm_compute in snd (_init_args sample_runtime quoted_options).

(** A text without its prefix [p], when it starts with [p]. *)
Definition strip_prefix (p s : string) : string :=
  if prefix p s then substring (String.length p) (String.length s - String.length p) s
  else s.

Definition demo_resolved : dict value :=
  Eval vm_compute in snd (_init_args sample_runtime demo_options).

(** The networked options with a run id of the caller's, and a later clock. *)
Definition pinned_options : dict value :=
  dict_set "run_id" (VStr "run-1") networked_options.

Definition later_runtime : runtime :=
  {| now := {| year := 2024; month := 12; day := 31;
               hour := 23; minute := 59; second := 58 |};
     repr_dict := fun _ => "{...}" |}.

(** A store with the caller's mapping at address 0. *)
Definition sample_state : Generator.state :=
  {| Generator.heap := fun a => match a with 0 => networked_options | _ => [] end;
     Generator.self_args := None |}.

(** The fields the specification names as required. *)
Definition required_fields : list string :=
  [ "image_name"; "project_id"; "zone"; "gcs_bucket"; "customization_script" ].

(** A computation that does not look at the entry [f]: from two mappings
    that differ at most there, a run that returns on the one returns on the
    other, and the two still differ at most there. *)
Definition blind_to (f : string) (c : D unit) : Prop :=
  forall a b a', agree_except f a b -> c a = (Ok tt, a') ->
    exists b', c b = (Ok tt, b') /\ agree_except f a' b'.

(** [del d[k]] *)
Definition dict_remove {V : Type} (k : string) (d : dict V) : dict V :=
  filter (fun kv => negb (String.eqb (fst kv) k)) d.

(** The networked options without a zone, and with the zone given back. *)
Definition zoneless_options : dict value := dict_remove "zone" networked_options.

Definition rezoned_resolved : dict value :=
  Eval vm_compute in
    snd (generate sample_runtime (dict_set "zone" (VStr "z") zoneless_options)).

Definition rezoned_script : string :=
  Eval vm_compute in
    match fst (generate sample_runtime (dict_set "zone" (VStr "z") zoneless_options)) with
    | Ok s => s
    | Raise _ => EmptyString
    end.

(** What resolving the pinned options leaves, and the script they give. *)
Definition pinned_resolved : dict value :=
  Eval vm_compute in snd (generate sample_runtime pinned_options).

Definition pinned_script : string :=
  Eval vm_compute in
    match fst (generate sample_runtime pinned_options) with
    | Ok s => s
    | Raise _ => EmptyString
    end.

(** The networked options without the subnetwork. *)
Definition network_only_options : dict value :=
  dict_set "subnetwork" VNone networked_options.

Definition network_only_resolved : dict value :=
  Eval vm_compute in snd (_init_args sample_runtime network_only_options).

(** The mapping a first call has resolved, given to a second call with the
    service account taken back. *)
Definition cleared_options : dict value :=
  dict_set "service_account" VNone networked_resolved.

Definition cleared_resolved : dict value :=
  Eval vm_compute in snd (_init_args later_runtime cleared_options).

(** The options of the end-to-end scenario with an entry named timestamp,
    and with a bucket that is not a string. *)
Definition stamped_options : dict value :=
  dict_set "timestamp" (VStr "20190102") demo_options.

Definition bucketless_options : dict value :=
  dict_set "gcs_bucket" VNone demo_options.

(** Reading a timestamp back: the number a run of digits writes, and the
    date and time in a text of the form YYYYMMDD-HHMMSS. *)
Fixpoint digits_value (acc : nat) (s : string) : nat :=
  match s with
  | EmptyString => acc
  | String c s' => digits_value (10 * acc + (nat_of_ascii c - 48)) s'
  end.

Definition read_stamp (s : string) : datetime :=
  {| year := digits_value 0 (substring 0 4 s);
     month := digits_value 0 (substring 4 2 s);
     day := digits_value 0 (substring 6 2 s);
     hour := digits_value 0 (substring 9 2 s);
     minute := digits_value 0 (substring 11 2 s);
     second := digits_value 0 (substring 13 2 s) |}.

(** The options of the end-to-end scenario resolved at two times. *)
Definition demo_resolved_later : dict value :=
  Eval vm_compute in snd (_init_args later_runtime demo_options).

(** When the values of the sources are all strings: the extra sources are a
    mapping (or the empty string, which [update] takes for no entry at all),
    and the customization script is a string unless an extra source named
    init_actions.sh takes its place. *)
Definition sources_are_strings (customization_script extra_sources : value) : bool :=
  match extra_sources with
  | VDict items => is_str (Some customization_script) || dict_mem "init_actions.sh" items
  | VStr EmptyString => is_str (Some customization_script)
  | _ => false
  end.

(** An option that is there and true. *)
Definition is_set (v : option value) : bool :=
  match v with Some x => truthy x | None => false end.

(** The options [_init_args] returns on. *)
Definition resolves (d : dict value) : bool :=
  (dict_mem "run_id" d || (dict_mem "image_name" d && negb (dict_mem "timestamp" d)))
  && is_str (dict_get "gcs_bucket" d)
  && match dict_get "customization_script" d, dict_get "extra_sources" d with
     | Some customization_script, Some extra_sources =>
         sources_are_strings customization_script extra_sources
     | _, _ => false
     end
  && dict_mem "subnetwork" d
  && (is_set (dict_get "subnetwork" d) || dict_mem "network" d)
  && forallb (fun k => dict_mem k d)
       [ "service_account"; "no_external_ip"; "accelerator"; "storage_location";
         "metadata"; "shutdown_timer_in_sec" ].

(** The options [generate] returns a script for: those that resolve, with
    an entry for every field of the template that is an option, and with the
    three flags that [_init_args] does not always assign either assigned by
    it or already in the mapping. *)
Definition gives_script (d : dict value) : bool :=
  resolves d
  && forallb (fun k => dict_mem k d)
       [ "image_name"; "project_id"; "zone"; "base_image_family"; "base_image";
         "disk_size"; "machine_type"; "family" ]
  && (is_set (dict_get "subnetwork" d) || is_set (dict_get "network" d)
      || (dict_mem "network_flag" d && dict_mem "subnetwork_flag" d))
  && (is_set (dict_get "service_account" d) || dict_mem "service_account_flag" d).

(** The names of the template's fields, each once. *)
Definition option_fields : list string :=
  [ "image_name"; "project_id"; "zone"; "base_image_family"; "base_image";
    "disk_size"; "machine_type"; "family" ].

Definition assigned_fields : list string :=
  [ "run_id"; "bucket_name"; "custom_sources_path"; "sources_map_k"; "sources_map_v";
    "log_dir"; "gcs_log_dir"; "no_external_ip_flag"; "accelerator_flag";
    "storage_location_flag"; "metadata_flag" ].

Definition conditional_fields : list string :=
  [ "network_flag"; "subnetwork_flag"; "service_account_flag" ].

(** Complete options with a network, a subnetwork, a service account and
    two extra sources, one of them under the name init_actions.sh, and no
    customization script to speak of. *)
Definition replaced_script_options : dict value :=
  dict_set "customization_script" VNone
    (dict_set "extra_sources"
       (VDict [("a.sh", "gs://x/a.sh"); ("init_actions.sh", "gs://x/init.sh")])
       networked_options).

(** The names [generate] knows: the options it reads, the keys it assigns
    and the keyword timestamp. *)
Definition known_keys : list string :=
  ([ "image_name"; "project_id"; "zone"; "gcs_bucket"; "base_image_family";
     "base_image"; "family"; "disk_size"; "machine_type"; "shutdown_timer_in_sec";
     "customization_script"; "extra_sources"; "subnetwork"; "network";
     "service_account"; "no_external_ip"; "accelerator"; "storage_location";
     "metadata"; "timestamp" ] ++ derived_keys)%list.

(** The first lines of the template, which have no field. *)
Definition script_header : string :=
  nl ++ "#!/usr/bin/env bash" ++ nl ++ nl ++
  "# Script for creating Dataproc custom image." ++ nl ++ nl ++
  "set -euxo pipefail" ++ nl.

Definition literal_pieces (s : string) : list piece :=
  map Lit (list_ascii_of_string s).




(** A world some steps later: marker files that have been made, the log
    when it has been written, and what has been done since. *)
Definition later_world (disk vm image : bool) (log : option string)
    (done : list Script.event) (w : Script.world) : Script.world :=
  {| Script.disk_created_exists := disk || Script.disk_created_exists w;
     Script.vm_created_exists := vm || Script.vm_created_exists w;
     Script.image_created_exists := image || Script.image_created_exists w;
     Script.startup_script_log :=
       match log with Some text => Some text | None => Script.startup_script_log w end;
     Script.trap_set := Script.trap_set w;
     Script.events := (Script.events w ++ done)%list |}.

(** The log file the wait for the VM leaves: of an output that is text,
    the lines that have the text startup-script. *)
Definition captured_log (env : Script.environment) : string :=
  if Script.is_text (Script.serial_port_output env)
  then String.concat EmptyString
         (map (fun l => l ++ nl)
            (Script.grep_lines "startup-script" (Script.serial_port_output env)))
  else Script.non_text_log env.








(** A machine on which no run has left a file. *)
Definition fresh_world : Script.world := world_with false false false None.





(** Whether a line of the serial port output has both the text
    startup-script and the pattern. *)
Definition tagged_line (env : Script.environment) (pattern : string) : bool :=
  existsb (fun l => Script.has_substring "startup-script" l &&
                    Script.has_substring pattern l)
    (Script.split_lines (Script.serial_port_output env)).

(** A VM whose customization script reports a failure on a line that does
    not carry the text startup-script. *)
Definition untagged_failure : Script.environment :=
  {| Script.status := fun _ => 0;
     Script.serial_port_output :=
       "BuildFailed: out of disk" ++ nl ++
       "startup-script: BuildSucceeded: done" ++ nl;
     Script.non_text_log := EmptyString |}.











(** * Properties *)

(** ** Strings and dictionaries *)

Lemma append_nil_r (s : string) : s ++ EmptyString = s.
Proof. induction s as [|c s IH]; simpl; [reflexivity | now rewrite IH]. Qed.

Lemma append_assoc (s1 s2 s3 : string) : (s1 ++ s2) ++ s3 = s1 ++ (s2 ++ s3).
Proof. induction s1 as [|c s1 IH]; simpl; [reflexivity | now rewrite IH]. Qed.

Lemma dict_get_set {V : Type} (k k' : string) (v : V) (d : dict V) :
  dict_get k (dict_set k' v d) = if String.eqb k k' then Some v else dict_get k d.
Proof.
  induction d as [|[k0 v0] d IH]; simpl.
  - reflexivity.
  - destruct (String.eqb k' k0) eqn:E1; simpl.
    + apply String.eqb_eq in E1; subst k0.
      destruct (String.eqb k k'); reflexivity.
    + rewrite IH. destruct (String.eqb k k0) eqn:E2; [|reflexivity].
      apply String.eqb_eq in E2; subst k0.
      now rewrite String.eqb_sym, E1.
Qed.

Lemma dict_mem_set {V : Type} (k k' : string) (v : V) (d : dict V) :
  dict_mem k (dict_set k' v d) = String.eqb k k' || dict_mem k d.
Proof.
  unfold dict_mem. rewrite dict_get_set. now destruct (String.eqb k k').
Qed.

(** Assigning the value a key already has leaves the dict as it is. *)
Lemma dict_set_same {V : Type} (k : string) (v : V) (d : dict V) :
  dict_get k d = Some v -> dict_set k v d = d.
Proof.
  induction d as [|[k0 v0] d IH]; simpl; [discriminate|].
  destruct (String.eqb k k0) eqn:E.
  - intros [= ->]. reflexivity.
  - intros H. now rewrite IH.
Qed.

Lemma keys_dict_set_mem {V : Type} (k : string) (v : V) (d : dict V) :
  dict_mem k d = true -> keys (dict_set k v d) = keys d.
Proof.
  unfold dict_mem, keys.
  induction d as [|[k0 v0] d IH]; simpl; [discriminate|].
  destruct (String.eqb k k0) eqn:E; simpl; [reflexivity|].
  intros H. now rewrite IH.
Qed.

Lemma keys_dict_set_new {V : Type} (k : string) (v : V) (d : dict V) :
  dict_mem k d = false -> dict_set k v d = (d ++ [(k, v)])%list.
Proof.
  unfold dict_mem.
  induction d as [|[k0 v0] d IH]; simpl; [reflexivity|].
  destruct (String.eqb k k0) eqn:E; [discriminate|].
  intros H. now rewrite IH.
Qed.

(** ** Quoting (C5) *)

Lemma replace_quote_nil : replace "'" escaped_quote EmptyString = EmptyString.
Proof. reflexivity. Qed.

Lemma prefix_single (a c : ascii) (s : string) :
  prefix (String a EmptyString) (String c s) = Ascii.eqb a c.
Proof.
  simpl. destruct (ascii_dec a c) as [->|n].
  - rewrite Ascii.eqb_refl. now destruct s.
  - symmetry. apply Ascii.eqb_neq. exact n.
Qed.

Lemma replace_quote_cons (c : ascii) (s : string) :
  replace "'" escaped_quote (String c s) =
  if Ascii.eqb c sq then escaped_quote ++ replace "'" escaped_quote s
  else String c (replace "'" escaped_quote s).
Proof.
  unfold replace.
  change (replace_go "'" escaped_quote 0 (String c s)) with
    (if prefix "'" (String c s)
     then escaped_quote ++ replace_go "'" escaped_quote 0 s
     else String c (replace_go "'" escaped_quote 0 s)).
  rewrite prefix_single, Ascii.eqb_sym. reflexivity.
Qed.

Lemma word_value_escaped (s tail : string) :
  Script.word_value true (replace "'" escaped_quote s ++ tail) =
  option_map (append s) (Script.word_value true tail).
Proof.
  induction s as [|c s IH].
  - rewrite replace_quote_nil. simpl. now destruct (Script.word_value true tail).
  - rewrite replace_quote_cons.
    destruct (Ascii.eqb_spec c sq) as [->|n].
    + rewrite append_assoc.
      change (Script.word_value true (escaped_quote ++ replace "'" escaped_quote s ++ tail))
        with (option_map (String sq)
                (Script.word_value true (replace "'" escaped_quote s ++ tail))).
      rewrite IH. now destruct (Script.word_value true tail).
    + cbn [append Script.word_value].
      apply Ascii.eqb_neq in n. rewrite n, IH.
      now destruct (Script.word_value true tail).
Qed.

Lemma word_value_single_quoted (s : string) :
  Script.word_value false (Script.single_quoted (replace "'" escaped_quote s)) = Some s.
Proof.
  unfold Script.single_quoted.
  change (Script.word_value false (String sq ?x))
    with (Script.word_value true x).
  rewrite word_value_escaped.
  change (Script.word_value true (String sq EmptyString)) with (Some EmptyString).
  simpl. now rewrite append_nil_r.
Qed.

(** ** Reasoning about computations on the mapping *)

Lemma bind_ok {A B : Type} (c : D A) (k : A -> D B) (d d' : dict value) (b : B) :
  bind c k d = (Ok b, d') ->
  exists a d1, c d = (Ok a, d1) /\ k a d1 = (Ok b, d').
Proof.
  unfold bind. destruct (c d) as [[a|e] d1]; [|discriminate].
  intros H. now exists a, d1.
Qed.

Lemma bind_ok_intro {A B : Type} (c : D A) (k : A -> D B) (d d1 : dict value) (a : A) :
  c d = (Ok a, d1) -> bind c k d = k a d1.
Proof. unfold bind. now intros ->. Qed.

Lemma bind_raise_intro {A B : Type} (c : D A) (k : A -> D B) (d d1 : dict value) (e : exn) :
  c d = (Raise e, d1) -> bind c k d = (Raise e, d1).
Proof. unfold bind. now intros ->. Qed.

Lemma frames_ret {A : Type} (W : list string) (a : A) : frames W (ret a).
Proof. intros d k _. reflexivity. Qed.

Lemma frames_lift {A : Type} (W : list string) (r : outcome A) : frames W (lift r).
Proof. intros d k _. reflexivity. Qed.

Lemma frames_getitem (W : list string) (k : string) : frames W (getitem k).
Proof. intros d k' _. unfold getitem. now destruct (dict_get k d). Qed.

Lemma frames_contains (W : list string) (k : string) : frames W (contains k).
Proof. intros d k' _. reflexivity. Qed.

Lemma frames_format_args (W : list string) repr fmt : frames W (format_args repr fmt).
Proof. intros d k _. reflexivity. Qed.

Lemma frames_format_args_with (W : list string) repr fmt name v :
  frames W (format_args_with repr fmt name v).
Proof. intros d k _. unfold format_args_with. now destruct (dict_mem name d). Qed.

Lemma frames_setitem (W : list string) (k : string) (v : value) :
  In k W -> frames W (setitem k v).
Proof.
  intros Hin d k' Hn. unfold setitem. simpl. rewrite dict_get_set.
  destruct (String.eqb_spec k' k) as [->|_]; [now elim Hn | reflexivity].
Qed.

Lemma frames_bind {A B : Type} (W : list string) (c : D A) (k : A -> D B) :
  frames W c -> (forall a, frames W (k a)) -> frames W (bind c k).
Proof.
  intros Hc Hk d x Hn. unfold bind.
  specialize (Hc d x Hn).
  destruct (c d) as [[a|e] d1]; simpl in *.
  - now rewrite (Hk a d1 x Hn).
  - exact Hc.
Qed.

Lemma frames_weaken {A : Type} (W W' : list string) (c : D A) :
  incl W W' -> frames W c -> frames W' c.
Proof. intros Hi Hc d k Hn. apply Hc. intros Hin. apply Hn, Hi, Hin. Qed.

Ltac frames_step :=
  first
    [ apply frames_ret | apply frames_lift | apply frames_getitem
    | apply frames_contains | apply frames_format_args
    | apply frames_format_args_with
    | apply frames_setitem; simpl; tauto
    | apply frames_bind; [| intros ?]
    | match goal with
      | |- frames _ (if ?b then _ else _) => destruct b
      end ].

Ltac frames_tac := cbv zeta; repeat frames_step.

Section Frames.

Variable rt : runtime.

Lemma frames_set_run_id : frames ["run_id"] (set_run_id rt).
Proof. unfold set_run_id. frames_tac. Qed.

Lemma frames_set_bucket_paths :
  frames ["bucket_name"; "custom_sources_path"] (set_bucket_paths rt).
Proof. unfold set_bucket_paths. frames_tac. Qed.

Lemma frames_set_sources_map :
  frames ["sources_map_k"; "sources_map_v"] (set_sources_map rt).
Proof. unfold set_sources_map. frames_tac. Qed.

Lemma frames_set_log_dirs : frames ["log_dir"; "gcs_log_dir"] (set_log_dirs rt).
Proof. unfold set_log_dirs. frames_tac. Qed.

Lemma frames_set_network_flags :
  frames ["subnetwork_flag"; "network_flag"] (set_network_flags rt).
Proof. unfold set_network_flags. frames_tac. Qed.

Lemma frames_set_service_account_flag :
  frames ["service_account_flag"] (set_service_account_flag rt).
Proof. unfold set_service_account_flag. frames_tac. Qed.

Lemma frames_set_no_external_ip_flag :
  frames ["no_external_ip_flag"] set_no_external_ip_flag.
Proof. unfold set_no_external_ip_flag. frames_tac. Qed.

Lemma frames_set_accelerator_flag :
  frames ["accelerator_flag"] (set_accelerator_flag rt).
Proof. unfold set_accelerator_flag. frames_tac. Qed.

Lemma frames_set_storage_location_flag :
  frames ["storage_location_flag"] (set_storage_location_flag rt).
Proof. unfold set_storage_location_flag. frames_tac. Qed.

Lemma frames_set_metadata_flag : frames ["metadata_flag"] (set_metadata_flag rt).
Proof. unfold set_metadata_flag. frames_tac. Qed.

End Frames.

Ltac incl_tac := intros ? ?; simpl in *; tauto.

Lemma frames_init_args (rt : runtime) : frames derived_keys (_init_args rt).
Proof.
  unfold _init_args.
  repeat (apply frames_bind; [| intros _]).
  - eapply frames_weaken; [| apply frames_set_run_id]. incl_tac.
  - eapply frames_weaken; [| apply frames_set_bucket_paths]. incl_tac.
  - eapply frames_weaken; [| apply frames_set_sources_map]. incl_tac.
  - eapply frames_weaken; [| apply frames_set_log_dirs]. incl_tac.
  - eapply frames_weaken; [| apply frames_set_network_flags]. incl_tac.
  - eapply frames_weaken; [| apply frames_set_service_account_flag]. incl_tac.
  - eapply frames_weaken; [| apply frames_set_no_external_ip_flag]. incl_tac.
  - eapply frames_weaken; [| apply frames_set_accelerator_flag]. incl_tac.
  - eapply frames_weaken; [| apply frames_set_storage_location_flag]. incl_tac.
  - eapply frames_weaken; [| apply frames_set_metadata_flag]. incl_tac.
Qed.

Lemma init_args_resolution (rt : runtime) (d d' : dict value) :
  _init_args rt d = (Ok tt, d') <-> resolution rt d d'.
Proof.
  unfold _init_args. split.
  - intros H.
    do 9 (apply bind_ok in H; destruct H as ([] & ? & ? & H)).
    econstructor; eassumption.
  - intros [].
    do 9 (erewrite bind_ok_intro by eassumption). assumption.
Qed.

(** Evaluating a format string whose fields are looked up in a mapping the
    context knows the entries of. *)
Arguments format : simpl never.

Ltac parse_in H :=
  unfold format in H;
  match type of H with
  | context [parse_format None ?s] =>
      let r := eval vm_compute in (parse_format None s) in
      change (parse_format None s) with r in H
  end.

Ltac format_in H :=
  parse_in H; simpl in H;
  repeat (rewrite ?dict_get_set in H; simpl in H;
          match type of H with
          | context [dict_get ?k ?d] =>
              match goal with
              | E : dict_get k d = _ |- _ => rewrite E in H
              | _ => destruct (dict_get k d) eqn:?
              end
          end; simpl in H).

Ltac step_in H :=
  match type of H with
  | context [match dict_get ?k ?d with _ => _ end] =>
      match goal with
      | E : dict_get k d = _ |- _ => rewrite E in H
      | _ => destruct (dict_get k d) eqn:?
      end
  | context [if dict_mem ?k ?d then _ else _] => destruct (dict_mem k d) eqn:?
  | context [if truthy ?v then _ else _] => destruct (truthy v) eqn:?
  | context [method_replace ?v ?a ?b] =>
      destruct v; simpl in H
  | context [match format ?r ?f ?p ?k with _ => _ end] =>
      let E := fresh "Ef" in
      destruct (format r f p k) eqn:E
  end; simpl in H; try discriminate H.

Ltac run_in H :=
  unfold bind, getitem, setitem, contains, lift, ret, format_args, format_args_with in H;
  simpl in H; repeat step_in H.

Ltac parse_goal :=
  unfold format;
  repeat match goal with
  | |- context [parse_format None ?s] =>
      let r := eval vm_compute in (parse_format None s) in
      change (parse_format None s) with r
  end.

Ltac block_step :=
  match goal with
  | H : dict_get ?k ?d = _ |- context [dict_get ?k ?d] => rewrite H
  | |- context [dict_get _ (dict_set _ _ _)] => rewrite dict_get_set
  | |- context [match dict_get ?k ?d with _ => _ end] => destruct (dict_get k d) eqn:?
  | |- context [if truthy ?v then _ else _] => destruct (truthy v) eqn:?
  | |- context [format _ _ _ _] => parse_goal
  end; simpl.

Ltac block_eq :=
  unfold bind, getitem, setitem, contains, lift, ret, format_args,
    format_args_with, dict_mem;
  simpl; repeat block_step; try reflexivity.

Section Blocks.

Variable rt : runtime.

Lemma set_run_id_ok (d d' : dict value) :
  set_run_id rt d = (Ok tt, d') ->
  match dict_get "run_id" d with
  | Some _ => d' = d
  | None =>
      dict_mem "timestamp" d = false /\
      exists v, dict_get "image_name" d = Some v /\
        d' = dict_set "run_id"
               (VStr ("custom-image-" ++ py_str (repr_dict rt) v ++ "-" ++
                      strftime "%Y%m%d-%H%M%S" (now rt))) d
  end.
Proof.
  unfold set_run_id. intros H.
  unfold bind, contains, dict_mem in H.
  destruct (dict_get "run_id" d) eqn:Er.
  - unfold ret in H. now inversion H.
  - run_in H. split; [reflexivity|].
    format_in Ef; [|discriminate].
    inversion Ef; subst. inversion H; subst. eexists; split; reflexivity.
Qed.

Lemma set_bucket_paths_ok (d d' : dict value) :
  set_bucket_paths rt d = (Ok tt, d') ->
  exists b r,
    dict_get "gcs_bucket" d = Some (VStr b) /\
    dict_get "run_id" d = Some r /\
    d' = dict_set "custom_sources_path"
           (VStr ("gs://" ++ replace "gs://" EmptyString b ++ "/" ++
                  py_str (repr_dict rt) r ++ "/sources"))
           (dict_set "bucket_name" (VStr (replace "gs://" EmptyString b)) d).
Proof.
  unfold set_bucket_paths. intros H. run_in H.
  format_in Ef; [|discriminate].
  inversion Ef; subst. inversion H; subst.
  do 2 eexists. repeat split; reflexivity.
Qed.

Lemma set_log_dirs_ok (d d' : dict value) :
  set_log_dirs rt d = (Ok tt, d') ->
  exists b r,
    dict_get "bucket_name" d = Some b /\
    dict_get "run_id" d = Some r /\
    d' = dict_set "gcs_log_dir"
           (VStr ("gs://" ++ py_str (repr_dict rt) b ++ "/" ++
                  py_str (repr_dict rt) r ++ "/logs"))
           (dict_set "log_dir" (VStr ("/tmp/" ++ py_str (repr_dict rt) r ++ "/logs")) d).
Proof.
  unfold set_log_dirs. intros H. run_in H.
  format_in Ef; [|discriminate].
  format_in Ef0; [|discriminate].
  inversion Ef; inversion Ef0; subst. inversion H; subst.
  do 2 eexists. repeat split; reflexivity.
Qed.

(** *** Each block as an equation *)

Lemma set_run_id_eq (d : dict value) :
  set_run_id rt d =
  match dict_get "run_id" d with
  | Some _ => (Ok tt, d)
  | None =>
      match dict_get "timestamp" d with
      | Some _ => (Raise (TypeError "got multiple values for keyword argument"), d)
      | None =>
          match dict_get "image_name" d with
          | Some v =>
              (Ok tt,
               dict_set "run_id"
                 (VStr ("custom-image-" ++ py_str (repr_dict rt) v ++ "-" ++
                        strftime "%Y%m%d-%H%M%S" (now rt))) d)
          | None => (Raise (KeyError "image_name"), d)
          end
      end
  end.
Proof. unfold set_run_id. block_eq. Qed.

Lemma set_bucket_paths_eq (d : dict value) :
  set_bucket_paths rt d =
  match dict_get "gcs_bucket" d with
  | None => (Raise (KeyError "gcs_bucket"), d)
  | Some (VStr b) =>
      let d1 := dict_set "bucket_name" (VStr (replace "gs://" EmptyString b)) d in
      match dict_get "run_id" d with
      | Some r =>
          (Ok tt,
           dict_set "custom_sources_path"
             (VStr ("gs://" ++ replace "gs://" EmptyString b ++ "/" ++
                    py_str (repr_dict rt) r ++ "/sources")) d1)
      | None => (Raise (KeyError "run_id"), d1)
      end
  | Some _ => (Raise (AttributeError "replace"), d)
  end.
Proof.
  unfold set_bucket_paths.
  unfold bind at 1, getitem at 1.
  destruct (dict_get "gcs_bucket" d) as [[]|] eqn:E; try reflexivity.
  block_eq.
Qed.

Lemma set_sources_map_eq (d : dict value) :
  set_sources_map rt d =
  match dict_get "customization_script" d with
  | None => (Raise (KeyError "customization_script"), d)
  | Some customization_script =>
      match dict_get "extra_sources" d with
      | None => (Raise (KeyError "extra_sources"), d)
      | Some extra_sources =>
          match all_sources_of customization_script extra_sources with
          | Raise e => (Raise e, d)
          | Ok all_sources =>
              match sources_map_k_of rt (enumerate all_sources) with
              | Raise e => (Raise e, d)
              | Ok k =>
                  let d1 := dict_set "sources_map_k" (VStr k) d in
                  match sources_map_v_of rt (enumerate all_sources) with
                  | Raise e => (Raise e, d1)
                  | Ok v => (Ok tt, dict_set "sources_map_v" (VStr v) d1)
                  end
              end
          end
      end
  end.
Proof.
  unfold set_sources_map, bind, getitem, lift, setitem.
  destruct (dict_get "customization_script" d); [|reflexivity].
  destruct (dict_get "extra_sources" d); [|reflexivity].
  destruct (all_sources_of v v0); [|reflexivity].
  destruct (sources_map_k_of rt (enumerate a)); [|reflexivity].
  simpl. destruct (sources_map_v_of rt (enumerate a)); reflexivity.
Qed.

Lemma set_log_dirs_eq (d : dict value) :
  set_log_dirs rt d =
  match dict_get "run_id" d with
  | None => (Raise (KeyError "run_id"), d)
  | Some r =>
      let d1 := dict_set "log_dir"
                  (VStr ("/tmp/" ++ py_str (repr_dict rt) r ++ "/logs")) d in
      match dict_get "bucket_name" d with
      | None => (Raise (KeyError "bucket_name"), d1)
      | Some b =>
          (Ok tt,
           dict_set "gcs_log_dir"
             (VStr ("gs://" ++ py_str (repr_dict rt) b ++ "/" ++
                    py_str (repr_dict rt) r ++ "/logs")) d1)
      end
  end.
Proof. unfold set_log_dirs. block_eq. Qed.

Lemma set_network_flags_eq (d : dict value) :
  set_network_flags rt d =
  match dict_get "subnetwork" d with
  | None => (Raise (KeyError "subnetwork"), d)
  | Some subnetwork =>
      if truthy subnetwork then
        (Ok tt,
         dict_set "network_flag" (VStr EmptyString)
           (dict_set "subnetwork_flag"
              (VStr ("--subnet=" ++ py_str (repr_dict rt) subnetwork)) d))
      else
        match dict_get "network" d with
        | None => (Raise (KeyError "network"), d)
        | Some network =>
            if truthy network then
              (Ok tt,
               dict_set "subnetwork_flag" (VStr EmptyString)
                 (dict_set "network_flag"
                    (VStr ("--network=" ++ py_str (repr_dict rt) network)) d))
            else (Ok tt, d)
        end
  end.
Proof. unfold set_network_flags. block_eq; now rewrite append_nil_r. Qed.

Lemma set_service_account_flag_eq (d : dict value) :
  set_service_account_flag rt d =
  match dict_get "service_account" d with
  | None => (Raise (KeyError "service_account"), d)
  | Some service_account =>
      if truthy service_account then
        (Ok tt,
         dict_set "service_account_flag"
           (VStr ("--service-account=" ++ py_str (repr_dict rt) service_account)) d)
      else (Ok tt, d)
  end.
Proof. unfold set_service_account_flag. block_eq; now rewrite append_nil_r. Qed.

Lemma set_no_external_ip_flag_eq (d : dict value) :
  set_no_external_ip_flag d =
  match dict_get "no_external_ip" d with
  | None => (Raise (KeyError "no_external_ip"), d)
  | Some no_external_ip =>
      (Ok tt,
       dict_set "no_external_ip_flag"
         (VStr (if truthy no_external_ip then "--no-address" else EmptyString)) d)
  end.
Proof.
  unfold set_no_external_ip_flag, bind, getitem, setitem.
  now destruct (dict_get "no_external_ip" d).
Qed.

Lemma set_accelerator_flag_eq (d : dict value) :
  set_accelerator_flag rt d =
  match dict_get "accelerator" d with
  | None => (Raise (KeyError "accelerator"), d)
  | Some accelerator =>
      (Ok tt,
       dict_set "accelerator_flag"
         (VStr (if truthy accelerator
                then "--accelerator=" ++ py_str (repr_dict rt) accelerator ++
                     " --maintenance-policy terminate"
                else EmptyString)) d)
  end.
Proof. unfold set_accelerator_flag. block_eq. Qed.

Lemma set_storage_location_flag_eq (d : dict value) :
  set_storage_location_flag rt d =
  match dict_get "storage_location" d with
  | None => (Raise (KeyError "storage_location"), d)
  | Some storage_location =>
      (Ok tt,
       dict_set "storage_location_flag"
         (VStr (if truthy storage_location
                then "--storage-location=" ++ py_str (repr_dict rt) storage_location
                else EmptyString)) d)
  end.
Proof. unfold set_storage_location_flag. block_eq; now rewrite append_nil_r. Qed.

Lemma set_metadata_flag_eq (d : dict value) :
  set_metadata_flag rt d =
  match dict_get "metadata" d with
  | None => (Raise (KeyError "metadata"), d)
  | Some metadata =>
      match dict_get "shutdown_timer_in_sec" d with
      | None => (Raise (KeyError "shutdown_timer_in_sec"), d)
      | Some timer =>
          match dict_get "custom_sources_path" d with
          | None => (Raise (KeyError "custom_sources_path"), d)
          | Some path =>
              (Ok tt,
               dict_set "metadata_flag"
                 (VStr ("--metadata=shutdown-timer-in-sec=" ++
                        py_str (repr_dict rt) timer ++
                        ",custom-sources-path=" ++ py_str (repr_dict rt) path ++
                        (if truthy metadata
                         then "," ++ py_str (repr_dict rt) metadata
                         else EmptyString))) d)
          end
      end
  end.
Proof.
  unfold set_metadata_flag. cbv zeta.
  unfold bind at 1, getitem at 1.
  destruct (dict_get "metadata" d) as [m|] eqn:Em; [|reflexivity].
  destruct (truthy m); block_eq; now rewrite ?append_nil_r.
Qed.

End Blocks.

(** ** Merging the sources (C4) *)

Section Update.

Context {V : Type}.

Lemma dict_get_app (k : string) (d1 d2 : dict V) :
  dict_get k (d1 ++ d2)%list =
  match dict_get k d1 with Some v => Some v | None => dict_get k d2 end.
Proof.
  induction d1 as [|[k0 v0] d1 IH]; simpl; [reflexivity|].
  now destruct (String.eqb k k0).
Qed.

Lemma dict_get_none (k : string) (d : dict V) :
  dict_get k d = None <-> ~ In k (keys d).
Proof.
  induction d as [|[k0 v0] d IH]; simpl.
  - tauto.
  - destruct (String.eqb_spec k k0) as [->|n].
    + split; [discriminate | tauto].
    + rewrite IH. split; [intros H [E|I]; [now elim n | tauto] | tauto].
Qed.

Lemma dict_set_app_mem (k : string) (v : V) (d1 d2 : dict V) :
  dict_mem k d1 = true -> dict_set k v (d1 ++ d2)%list = (dict_set k v d1 ++ d2)%list.
Proof.
  unfold dict_mem.
  induction d1 as [|[k0 v0] d1 IH]; simpl; [discriminate|].
  destruct (String.eqb k k0); [reflexivity|].
  intros H. now rewrite IH.
Qed.

Lemma dict_update_snoc (d items : dict V) (k : string) (v : V) :
  dict_update d (items ++ [(k, v)])%list = dict_set k v (dict_update d items).
Proof. unfold dict_update. now rewrite fold_left_app. Qed.

Lemma dict_mem_overlay (k : string) (base items : dict V) :
  dict_mem k (overlay base items) = dict_mem k base.
Proof.
  unfold dict_mem, overlay.
  induction base as [|[k0 v0] base IH]; simpl; [reflexivity|].
  now destruct (String.eqb k k0).
Qed.

Lemma overlay_snoc_other (base items : dict V) (k : string) (v : V) :
  dict_mem k base = false -> overlay base (items ++ [(k, v)])%list = overlay base items.
Proof.
  unfold dict_mem, overlay.
  induction base as [|[k0 v0] base IH]; simpl; [reflexivity|].
  destruct (String.eqb_spec k k0) as [->|n]; [discriminate|].
  intros H. rewrite IH by exact H. f_equal. f_equal.
  rewrite dict_get_app. destruct (dict_get k0 items); [reflexivity|].
  simpl. apply not_eq_sym, String.eqb_neq in n. now rewrite n.
Qed.

Lemma overlay_snoc_mem (base items : dict V) (k : string) (v : V) :
  NoDup (keys base) -> dict_mem k base = true -> dict_get k items = None ->
  dict_set k v (overlay base items) = overlay base (items ++ [(k, v)])%list.
Proof.
  intros Hnd Hm Hn. revert Hnd Hm.
  induction base as [|[k0 v0] base IH]; [discriminate|].
  intros Hnd Hm. inversion Hnd as [|? ? Hnotin Hnd']; subst.
  cbn [overlay map fst snd dict_set].
  destruct (String.eqb_spec k k0) as [->|n].
  - rewrite dict_get_app, Hn. cbn. rewrite String.eqb_refl.
    fold (overlay base items). fold (overlay base (items ++ [(k0, v)])%list).
    rewrite overlay_snoc_other; [reflexivity|].
    unfold dict_mem. apply dict_get_none in Hnotin. now rewrite Hnotin.
  - fold (overlay base items). fold (overlay base (items ++ [(k, v)])%list).
    rewrite IH.
    + f_equal. f_equal. rewrite dict_get_app.
      destruct (dict_get k0 items); [reflexivity|].
      cbn. apply not_eq_sym, String.eqb_neq in n. now rewrite n.
    + exact Hnd'.
    + unfold dict_mem in *. cbn in Hm.
      apply String.eqb_neq in n. now rewrite n in Hm.
Qed.

Lemma dict_get_filter_none (p : string * V -> bool) (k : string) (d : dict V) :
  dict_get k d = None -> dict_get k (filter p d) = None.
Proof.
  induction d as [|[k0 v0] d IH]; simpl; [reflexivity|].
  destruct (String.eqb k k0) eqn:E; [discriminate|].
  intros H. destruct (p (k0, v0)); simpl; [rewrite E|]; now apply IH.
Qed.

Lemma NoDup_snoc {A : Type} (l : list A) (a : A) :
  NoDup (l ++ [a]) -> NoDup l /\ ~ In a l.
Proof.
  intros H. split.
  - apply NoDup_remove_1 in H. now rewrite app_nil_r in H.
  - apply NoDup_remove_2 in H. now rewrite app_nil_r in H.
Qed.

(** [d.update(items)] when no key is given twice. *)
Lemma dict_update_overlay (base items : dict V) :
  NoDup (keys base) -> NoDup (keys items) ->
  dict_update base items = (overlay base items ++ fresh base items)%list.
Proof.
  intros Hb. induction items as [|[k v] items IH] using rev_ind.
  - intros _. unfold dict_update, fresh, overlay. simpl.
    rewrite app_nil_r. induction base as [|[k0 v0] base IHb]; simpl; [reflexivity|].
    inversion Hb; subst. now rewrite <- IHb.
  - unfold keys. rewrite map_app. simpl. intros Hnd.
    apply NoDup_snoc in Hnd. destruct Hnd as [Hnd Hnotin].
    apply dict_get_none in Hnotin.
    rewrite dict_update_snoc, IH by exact Hnd.
    unfold fresh at 2. rewrite filter_app. simpl. fold (fresh base items).
    destruct (dict_mem k base) eqn:Em; simpl.
    + rewrite dict_set_app_mem by now rewrite dict_mem_overlay.
      rewrite overlay_snoc_mem by assumption. now rewrite app_nil_r.
    + rewrite keys_dict_set_new.
      * rewrite overlay_snoc_other by exact Em. now rewrite <- app_assoc.
      * unfold dict_mem. rewrite dict_get_app.
        fold (dict_mem k (overlay base items)) in *.
        pose proof (dict_mem_overlay k base items) as Ho. unfold dict_mem in Ho, Em.
        destruct (dict_get k (overlay base items)).
        -- destruct (dict_get k base); discriminate.
        -- unfold fresh. now rewrite dict_get_filter_none.
Qed.

End Update.

Lemma dict_get_map_VStr (k : string) (extra : list (string * string)) :
  dict_get k (map (fun kv => (fst kv, VStr (snd kv))) extra) =
  option_map VStr (dict_get k extra).
Proof.
  induction extra as [|[k0 v0] extra IH]; simpl; [reflexivity|].
  now destruct (String.eqb k k0).
Qed.

(** The dict the generator builds is the one the specification describes. *)
Lemma all_sources_merged (customization_script : value) (extra : list (string * string)) :
  NoDup (keys extra) ->
  all_sources_of customization_script (VDict extra) =
  Ok (merged_sources customization_script extra).
Proof.
  intros Hnd. unfold all_sources_of, method_update. f_equal.
  rewrite dict_update_overlay.
  - unfold merged_sources, overlay, overwritten. cbn [map fst snd].
    rewrite !dict_get_map_VStr. f_equal.
    + now destruct (dict_get "run.sh" extra), (dict_get "init_actions.sh" extra).
    + unfold fresh. clear Hnd.
      induction extra as [|[k0 v0] extra IH]; [reflexivity|].
      cbn [map filter fst snd]. rewrite IH.
      replace (dict_mem k0 [("run.sh", VStr "startup_script/run.sh");
                            ("init_actions.sh", customization_script)])
        with (is_fixed_name k0).
      * now destruct (is_fixed_name k0).
      * unfold dict_mem, is_fixed_name. simpl.
        now destruct (String.eqb k0 "run.sh"), (String.eqb k0 "init_actions.sh").
  - simpl. repeat constructor; simpl; intuition discriminate.
  - unfold keys in *. rewrite map_map. simpl. exact Hnd.
Qed.

(** ** The two arrays *)

Lemma array_element_str repr (i : nat) (s : string) :
  array_element repr i (VStr s) = Ok (element_text i s).
Proof. unfold array_element, method_replace. parse_goal. reflexivity. Qed.

Lemma array_element_not_str repr (i : nat) (v : value) :
  (forall s, v <> VStr s) -> array_element repr i v = Raise (AttributeError "replace").
Proof. destruct v; intros H; try reflexivity. now elim (H s). Qed.

Lemma comprehension_keys repr (i : nat) (all : dict value) :
  comprehension (fun ikv => array_element repr (fst ikv) (VStr (fst (snd ikv))))
    (enumerate_from i all) = Ok (array_elements i (keys all)).
Proof.
  revert i. induction all as [|[k v] all IH]; intros i; [reflexivity|].
  cbn [enumerate_from comprehension fst snd keys map array_elements].
  rewrite array_element_str. fold (keys all). now rewrite IH.
Qed.

Lemma comprehension_values repr (i : nat) (all : dict value) :
  comprehension (fun ikv => array_element repr (fst ikv) (snd (snd ikv)))
    (enumerate_from i all) =
  match str_values all with
  | Some vals => Ok (array_elements i vals)
  | None => Raise (AttributeError "replace")
  end.
Proof.
  revert i. induction all as [|[k v] all IH]; intros i; [reflexivity|].
  cbn [enumerate_from comprehension fst snd str_values].
  destruct v; try reflexivity.
  rewrite array_element_str, IH.
  now destruct (str_values all).
Qed.

Lemma sources_map_k_of_eq rt (all : dict value) :
  sources_map_k_of rt (enumerate all) = Ok (array_text (keys all)).
Proof. unfold sources_map_k_of, enumerate. now rewrite comprehension_keys. Qed.

Lemma sources_map_v_of_eq rt (all : dict value) :
  sources_map_v_of rt (enumerate all) =
  match str_values all with
  | Some vals => Ok (array_text vals)
  | None => Raise (AttributeError "replace")
  end.
Proof.
  unfold sources_map_v_of, enumerate. rewrite comprehension_values.
  now destruct (str_values all).
Qed.

Lemma array_elements_length (i : nat) (l : list string) :
  List.length (array_elements i l) = List.length l.
Proof. revert i. induction l; intros i; simpl; [reflexivity | now rewrite IHl]. Qed.

Lemma array_elements_nth (i n : nat) (l : list string) :
  nth_error (array_elements i l) n = option_map (element_text (i + n)) (nth_error l n).
Proof.
  revert i n. induction l as [|s l IH]; intros i [|n]; simpl; try reflexivity.
  - now rewrite Nat.add_0_r.
  - rewrite IH. now rewrite Nat.add_succ_r.
Qed.

Lemma str_values_length (all : dict value) (vals : list string) :
  str_values all = Some vals -> List.length vals = List.length all.
Proof.
  revert vals. induction all as [|[k v] all IH]; intros vals; simpl.
  - now intros [= <-].
  - destruct v; try discriminate.
    destruct (str_values all); [|discriminate].
    intros [= <-]. simpl. now rewrite (IH l).
Qed.

Lemma str_values_nth (all : dict value) (vals : list string) :
  str_values all = Some vals ->
  forall n k v, nth_error all n = Some (k, v) ->
    exists s, v = VStr s /\ nth_error vals n = Some s.
Proof.
  revert vals. induction all as [|[k0 v0] all IH]; intros vals H n k v Hn.
  - now destruct n.
  - simpl in H. destruct v0; try discriminate.
    destruct (str_values all) as [l|] eqn:E; [|discriminate].
    injection H as <-. destruct n as [|n]; simpl in *.
    + injection Hn as <- <-. now exists s.
    + now apply (IH l eq_refl n k v).
Qed.

Lemma keys_nth {V : Type} (d : dict V) (n : nat) (k : string) (v : V) :
  nth_error d n = Some (k, v) -> nth_error (keys d) n = Some k.
Proof. unfold keys. intros H. now rewrite nth_error_map, H. Qed.

(** What the third block leaves in the mapping when it returns. *)
Lemma set_sources_map_ok rt (d d' : dict value) :
  set_sources_map rt d = (Ok tt, d') ->
  exists cs es all vals,
    dict_get "customization_script" d = Some cs /\
    dict_get "extra_sources" d = Some es /\
    all_sources_of cs es = Ok all /\
    str_values all = Some vals /\
    d' = dict_set "sources_map_v" (VStr (array_text vals))
           (dict_set "sources_map_k" (VStr (array_text (keys all))) d).
Proof.
  rewrite set_sources_map_eq.
  destruct (dict_get "customization_script" d) as [cs|] eqn:E1; [|discriminate].
  destruct (dict_get "extra_sources" d) as [es|] eqn:E2; [|discriminate].
  destruct (all_sources_of cs es) as [all|] eqn:E3; [|discriminate].
  rewrite sources_map_k_of_eq, sources_map_v_of_eq. cbv zeta.
  destruct (str_values all) as [vals|] eqn:E4; [|discriminate].
  intros [= <-]. now exists cs, es, all, vals.
Qed.

(** ** Running [_init_args] *)

Arguments set_run_id : simpl never.
Arguments set_bucket_paths : simpl never.
Arguments set_sources_map : simpl never.
Arguments set_log_dirs : simpl never.
Arguments set_network_flags : simpl never.
Arguments set_service_account_flag : simpl never.
Arguments set_no_external_ip_flag : simpl never.
Arguments set_accelerator_flag : simpl never.
Arguments set_storage_location_flag : simpl never.
Arguments set_metadata_flag : simpl never.

Lemma frames_run {A : Type} (W : list string) (c : D A)
    (d : dict value) (r : outcome A) (d' : dict value) (k : string) :
  frames W c -> c d = (r, d') -> existsb (String.eqb k) W = false ->
  dict_get k d' = dict_get k d.
Proof.
  intros Hf Hc Hk. specialize (Hf d k). rewrite Hc in Hf. apply Hf.
  intros Hin. apply Bool.not_true_iff_false in Hk. apply Hk.
  apply existsb_exists. exists k. split; [exact Hin | apply String.eqb_refl].
Qed.

(** Looking up [k] in the mapping a block has left: back to the mapping the
    block started from, as long as the block does not assign [k]. *)
Ltac back k :=
  repeat match goal with
  | H : set_metadata_flag ?rt ?d = (_, ?d') |- context [dict_get k ?d'] =>
      rewrite (frames_run _ _ _ _ _ k (frames_set_metadata_flag rt) H eq_refl)
  | H : set_storage_location_flag ?rt ?d = (_, ?d') |- context [dict_get k ?d'] =>
      rewrite (frames_run _ _ _ _ _ k (frames_set_storage_location_flag rt) H eq_refl)
  | H : set_accelerator_flag ?rt ?d = (_, ?d') |- context [dict_get k ?d'] =>
      rewrite (frames_run _ _ _ _ _ k (frames_set_accelerator_flag rt) H eq_refl)
  | H : set_no_external_ip_flag ?d = (_, ?d') |- context [dict_get k ?d'] =>
      rewrite (frames_run _ _ _ _ _ k frames_set_no_external_ip_flag H eq_refl)
  | H : set_service_account_flag ?rt ?d = (_, ?d') |- context [dict_get k ?d'] =>
      rewrite (frames_run _ _ _ _ _ k (frames_set_service_account_flag rt) H eq_refl)
  | H : set_network_flags ?rt ?d = (_, ?d') |- context [dict_get k ?d'] =>
      rewrite (frames_run _ _ _ _ _ k (frames_set_network_flags rt) H eq_refl)
  | H : set_log_dirs ?rt ?d = (_, ?d') |- context [dict_get k ?d'] =>
      rewrite (frames_run _ _ _ _ _ k (frames_set_log_dirs rt) H eq_refl)
  | H : set_sources_map ?rt ?d = (_, ?d') |- context [dict_get k ?d'] =>
      rewrite (frames_run _ _ _ _ _ k (frames_set_sources_map rt) H eq_refl)
  | H : set_bucket_paths ?rt ?d = (_, ?d') |- context [dict_get k ?d'] =>
      rewrite (frames_run _ _ _ _ _ k (frames_set_bucket_paths rt) H eq_refl)
  | H : set_run_id ?rt ?d = (_, ?d') |- context [dict_get k ?d'] =>
      rewrite (frames_run _ _ _ _ _ k (frames_set_run_id rt) H eq_refl)
  end.

(** One block forward, in a goal where the lookups it makes are known. *)
Ltac lookups :=
  repeat (rewrite ?dict_get_set; simpl;
          match goal with
          | H : dict_get ?k ?d = _ |- context [dict_get ?k ?d] => rewrite H
          end);
  simpl.

Ltac run_block :=
  first [ rewrite set_run_id_eq | rewrite set_bucket_paths_eq
        | rewrite set_sources_map_eq | rewrite set_log_dirs_eq
        | rewrite set_network_flags_eq | rewrite set_service_account_flag_eq
        | rewrite set_no_external_ip_flag_eq | rewrite set_accelerator_flag_eq
        | rewrite set_storage_location_flag_eq | rewrite set_metadata_flag_eq ];
  cbv zeta; lookups.

Lemma dict_mem_true {V : Type} (k : string) (d : dict V) :
  dict_mem k d = true -> exists v, dict_get k d = Some v.
Proof. unfold dict_mem. destruct (dict_get k d) as [v|]; [now exists v | discriminate]. Qed.

Lemma str_values_merge (cs : string) (extra : list (string * string)) :
  exists vals,
    str_values
      (dict_update
         [("run.sh", VStr "startup_script/run.sh"); ("init_actions.sh", VStr cs)]
         (map (fun kv => (fst kv, VStr (snd kv))) extra)) = Some vals.
Proof.
  unfold dict_update.
  assert (G : forall (base : dict value),
             (exists vals, str_values base = Some vals) ->
             exists vals, str_values
               (fold_left (fun acc kv => dict_set (fst kv) (snd kv) acc)
                  (map (fun kv : string * string => (fst kv, VStr (snd kv))) extra)
                  base) = Some vals).
  { induction extra as [|[k v] extra IH]; intros base Hb; [exact Hb|].
    simpl. apply IH. clear IH. destruct Hb as [vals Hb]. revert vals Hb.
    induction base as [|[k0 v0] base IHb]; intros vals Hb.
    - now exists [v].
    - simpl in *. destruct v0; try discriminate.
      destruct (str_values base) as [l|] eqn:E; [|discriminate].
      destruct (String.eqb k k0); simpl.
      + rewrite E. now eexists.
      + destruct (IHb l eq_refl) as [l' ->]. now eexists. }
  apply G. now eexists.
Qed.

(** Complete options resolve. *)
Lemma init_args_succeeds (rt : runtime) (d : dict value) :
  options_complete d = true -> exists d', _init_args rt d = (Ok tt, d').
Proof.
  unfold options_complete. rewrite !andb_true_iff. cbn [forallb].
  rewrite !andb_true_iff.
  intros ((((Hr & Hb) & Hc) & He) & H1 & H2 & H3 & H4 & H5 & H6 & H7 & H8 & _).
  apply dict_mem_true in H1, H2, H3, H4, H5, H6, H7, H8.
  destruct H1 as [v1 H1], H2 as [v2 H2], H3 as [v3 H3], H4 as [v4 H4],
    H5 as [v5 H5], H6 as [v6 H6], H7 as [v7 H7], H8 as [v8 H8].
  destruct (dict_get "gcs_bucket" d) as [[]|] eqn:Eb; try discriminate.
  destruct (dict_get "customization_script" d) as [[]|] eqn:Ec; try discriminate.
  destruct (dict_get "extra_sources" d) as [[]|] eqn:Ee; try discriminate.
  destruct (str_values_merge s0 items) as [vals Hv].
  assert (Hrun : exists r d1, set_run_id rt d = (Ok tt, d1) /\
                   dict_get "run_id" d1 = Some r /\
                   forall k, String.eqb k "run_id" = false ->
                             dict_get k d1 = dict_get k d).
  { rewrite set_run_id_eq. unfold dict_mem in Hr.
    destruct (dict_get "run_id" d) as [r|] eqn:Er.
    - exists r, d. auto.
    - simpl in Hr. destruct (dict_get "image_name" d); [|discriminate].
      destruct (dict_get "timestamp" d); [discriminate|].
      eexists _, _. split; [reflexivity|]. split.
      + rewrite dict_get_set. simpl. reflexivity.
      + intros k Hk. rewrite dict_get_set. now rewrite Hk. }
  destruct Hrun as (r & d1 & Hrun & Hr1 & Hk1).
  rewrite <- (Hk1 "gcs_bucket" eq_refl) in Eb.
  rewrite <- (Hk1 "customization_script" eq_refl) in Ec.
  rewrite <- (Hk1 "extra_sources" eq_refl) in Ee.
  rewrite <- (Hk1 "subnetwork" eq_refl) in H1.
  rewrite <- (Hk1 "network" eq_refl) in H2.
  rewrite <- (Hk1 "service_account" eq_refl) in H3.
  rewrite <- (Hk1 "no_external_ip" eq_refl) in H4.
  rewrite <- (Hk1 "accelerator" eq_refl) in H5.
  rewrite <- (Hk1 "storage_location" eq_refl) in H6.
  rewrite <- (Hk1 "metadata" eq_refl) in H7.
  rewrite <- (Hk1 "shutdown_timer_in_sec" eq_refl) in H8.
  unfold _init_args, bind. rewrite Hrun.
  run_block. run_block.
  unfold all_sources_of, method_update.
  rewrite sources_map_k_of_eq, sources_map_v_of_eq, Hv. simpl.
  run_block. run_block.
  destruct (truthy v1); simpl.
  - run_block. destruct (truthy v3); simpl; repeat run_block; eexists; reflexivity.
  - destruct (truthy v2); simpl; run_block;
      destruct (truthy v3); simpl; repeat run_block; eexists; reflexivity.
Qed.

(** ** Filling the template *)

Lemma parse_template : parse_format None _template = Some _template_pieces.
Proof. vm_compute. reflexivity. Qed.

Lemma template_fields_eq : fields _template_pieces = template_fields.
Proof. vm_compute. reflexivity. Qed.

Lemma template_fields_named : forallb (fun n => negb (String.eqb n EmptyString)) template_fields = true.
Proof. vm_compute. reflexivity. Qed.

Lemma format_pieces_named repr (ps : list piece) (kw : dict value) :
  forallb (fun n => negb (String.eqb n EmptyString)) (fields ps) = true ->
  format_pieces repr ps [] kw =
  match first_missing (fields ps) kw with
  | Some name => Raise (KeyError name)
  | None => Ok (render repr ps kw)
  end.
Proof.
  unfold first_missing.
  induction ps as [|[c|name] ps IH]; intros Hn.
  - reflexivity.
  - cbn [format_pieces fields render] in *. rewrite (IH Hn).
    now destruct (find _ (fields ps)).
  - cbn [fields forallb] in Hn. apply andb_true_iff in Hn. destruct Hn as [Hne Hn].
    cbn [format_pieces fields render find].
    destruct name as [|c name]; [discriminate|].
    unfold dict_mem. destruct (dict_get (String c name) kw) as [v|]; cbn.
    + rewrite (IH Hn). now destruct (find _ (fields ps)).
    + reflexivity.
Qed.

Lemma format_template repr (kw : dict value) :
  format repr _template [] kw =
  match first_missing template_fields kw with
  | Some name => Raise (KeyError name)
  | None => Ok (render repr _template_pieces kw)
  end.
Proof.
  unfold format. rewrite parse_template, format_pieces_named.
  - now rewrite template_fields_eq.
  - rewrite template_fields_eq. exact template_fields_named.
Qed.

Lemma first_missing_none (names : list string) (kw : dict value) :
  first_missing names kw = None <-> forall n, In n names -> dict_mem n kw = true.
Proof.
  unfold first_missing. split.
  - intros H n Hin. pose proof (find_none _ _ H n Hin) as Hf.
    now apply negb_false_iff in Hf.
  - intros H. induction names as [|n names IH]; [reflexivity|].
    simpl. rewrite (H n (or_introl eq_refl)). simpl.
    apply IH. intros m Hm. apply H. now right.
Qed.


(** [generate] in one equation. *)
Lemma generate_eq (rt : runtime) (d : dict value) :
  generate rt d =
  match _init_args rt d with
  | (Ok _, d') =>
      match first_missing template_fields d' with
      | Some name => (Raise (KeyError name), d')
      | None => (Ok (render (repr_dict rt) _template_pieces d'), d')
      end
  | (Raise e, d') => (Raise e, d')
  end.
Proof.
  unfold generate, bind, format_args.
  destruct (_init_args rt d) as [[[]|e] d']; [|reflexivity].
  rewrite format_template. now destruct (first_missing template_fields d').
Qed.

(** ** Searching a text *)

Lemma prefix_nil (s : string) : prefix EmptyString s = true.
Proof. now destruct s. Qed.

Lemma prefix_cons (a b : ascii) (p s : string) :
  prefix (String a p) (String b s) = Ascii.eqb a b && prefix p s.
Proof.
  simpl. destruct (ascii_dec a b) as [->|n].
  - now rewrite Ascii.eqb_refl.
  - apply Ascii.eqb_neq in n. now rewrite n.
Qed.

Lemma prefix_spec (p s : string) :
  prefix p s = true <-> exists after, s = p ++ after.
Proof.
  revert s. induction p as [|a p IH]; intros s.
  - rewrite prefix_nil. split; [intros _; now exists s | reflexivity].
  - destruct s as [|b s].
    + split; [discriminate | intros [after H]; discriminate].
    + rewrite prefix_cons, andb_true_iff, Ascii.eqb_eq, IH. split.
      * intros [-> [after ->]]. now exists after.
      * intros [after H]. simpl in H. injection H as -> ->. split; [reflexivity | now exists after].
Qed.

Lemma has_substring_spec (p s : string) :
  Script.has_substring p s = true <-> contains_text p s.
Proof.
  unfold contains_text. induction s as [|c s IH].
  - cbn [Script.has_substring]. rewrite orb_false_r, prefix_spec. split.
    + intros [after H]. now exists EmptyString, after.
    + intros [before [after H]]. destruct before; [now exists after | discriminate].
  - cbn [Script.has_substring]. rewrite orb_true_iff, prefix_spec, IH. split.
    + intros [[after H] | [before [after H]]].
      * now exists EmptyString, after.
      * exists (String c before), after. simpl. now rewrite H.
    + intros [before [after H]]. destruct before as [|c' before].
      * left. now exists after.
      * right. simpl in H. injection H as _ H. now exists before, after.
Qed.

Lemma split_lines_cons (s : string) : exists l ls, Script.split_lines s = l :: ls.
Proof.
  induction s as [|c s [l [ls IH]]]; simpl.
  - now eexists _, _.
  - destruct (Ascii.eqb c (ascii_of_nat 10)); [now eexists _, _|].
    rewrite IH. now eexists _, _.
Qed.

(** A pattern without a newline matches at the start of a text when it
    matches at the start of its first line. *)
Lemma prefix_first_line (p s l : string) (ls : list string) :
  has_char (ascii_of_nat 10) p = false ->
  Script.split_lines s = l :: ls -> prefix p s = prefix p l.
Proof.
  revert s l ls. induction p as [|a p IH]; intros s l ls Hp Hs.
  - now rewrite !prefix_nil.
  - cbn [has_char] in Hp. apply orb_false_iff in Hp. destruct Hp as [Ha Hp].
    destruct s as [|c s].
    + simpl in Hs. injection Hs as <- <-. reflexivity.
    + cbn [Script.split_lines] in Hs.
      destruct (Ascii.eqb c (ascii_of_nat 10)) eqn:Ec.
      * injection Hs as <- <-. apply Ascii.eqb_eq in Ec. subst c.
        rewrite prefix_cons, Ascii.eqb_sym, Ha. reflexivity.
      * destruct (split_lines_cons s) as [l' [ls' Hl]]. rewrite Hl in Hs.
        injection Hs as <- <-. rewrite !prefix_cons. f_equal.
        now apply (IH s l' ls').
Qed.

(** [grep] looks for the pattern line by line; for a pattern without a
    newline this finds what a search of the whole text finds. *)
Lemma grep_lines_has_substring (p s : string) :
  has_char (ascii_of_nat 10) p = false ->
  existsb (Script.has_substring p) (Script.split_lines s) = Script.has_substring p s.
Proof.
  intros Hp. induction s as [|c s IH].
  - simpl. now rewrite orb_false_r.
  - destruct (split_lines_cons (String c s)) as [l0 [ls0 H0]].
    cbn [Script.has_substring].
    rewrite (prefix_first_line p (String c s) l0 ls0 Hp H0).
    cbn [Script.split_lines] in *.
    destruct (Ascii.eqb c (ascii_of_nat 10)).
    + injection H0 as <- <-. cbn [existsb]. rewrite IH.
      simpl. now rewrite orb_false_r.
    + destruct (split_lines_cons s) as [l' [ls' Hl]]. rewrite Hl in *.
      injection H0 as <- <-. cbn [existsb Script.has_substring] in *.
      rewrite <- IH. now rewrite orb_assoc.
Qed.

Lemma filter_nonempty {A : Type} (f : A -> bool) (l : list A) :
  match filter f l with [] => false | _ => true end = existsb f l.
Proof.
  induction l as [|a l IH]; simpl; [reflexivity|].
  destruct (f a); [reflexivity | exact IH].
Qed.

Lemma grep_eq (p : string) (w : Script.world) (log : string) :
  has_char (ascii_of_nat 10) p = false ->
  Script.startup_script_log w = Some log ->
  Script.grep p w = (Script.Next (Script.has_substring p log), w).
Proof.
  intros Hp Hl. unfold Script.grep, Script.grep_lines. rewrite Hl.
  now rewrite filter_nonempty, grep_lines_has_substring.
Qed.

(** ** The result of the customization script (C7) *)

Lemma check_result_eq (w : Script.world) (log : string) :
  Script.startup_script_log w = Some log ->
  Script.check_result w =
  let w1 := Script.record (Script.Echo "Checking customization script result.") w in
  if Script.has_substring "BuildFailed:" log then
    (Script.Exit 1, Script.record (Script.Echo "Customization script failed.") w1)
  else if Script.has_substring "BuildSucceeded:" log then
    (Script.Next tt, Script.record (Script.Echo "Customization script succeeded.") w1)
  else
    (Script.Exit 1,
     Script.record
       (Script.Echo "Unable to determine the customization script result.") w1).
Proof.
  intros Hl. unfold Script.check_result, Script.sh_bind, Script.echo, Script.exit.
  rewrite (grep_eq "BuildFailed:" (Script.record _ w) log eq_refl Hl).
  destruct (Script.has_substring "BuildFailed:" log); [reflexivity|].
  rewrite (grep_eq "BuildSucceeded:" (Script.record _ w) log eq_refl Hl).
  now destruct (Script.has_substring "BuildSucceeded:" log).
Qed.

(** ** The exit trap (C8) *)





















Lemma render_app repr (ps1 ps2 : list piece) (kw : dict value) :
  render repr (ps1 ++ ps2) kw = render repr ps1 kw ++ render repr ps2 kw.
Proof.
  induction ps1 as [|[c|name] ps1 IH]; simpl; [reflexivity | now rewrite IH |].
  destruct (dict_get name kw); [|exact IH].
  now rewrite IH, append_assoc.
Qed.



Lemma Ok_inj {A : Type} (a b : A) : Ok a = Ok b -> a = b.
Proof. intros H. injection H as H. exact H. Qed.

Lemma generate_ok_inv (rt : runtime) (d d' : dict value) (script : string) :
  generate rt d = (Ok script, d') ->
  _init_args rt d = (Ok tt, d') /\
  first_missing template_fields d' = None /\
  script = render (repr_dict rt) _template_pieces d'.
Proof.
  rewrite generate_eq.
  destruct (_init_args rt d) as [[[]|e] d1]; [|discriminate].
  destruct (first_missing template_fields d1) eqn:Em; [discriminate|].
  intros H. apply pair_equal_spec in H. destruct H as [Hs Hd]. subst d1.
  split; [reflexivity|]. split; [exact Em|]. symmetry. exact (Ok_inj _ _ Hs).
Qed.

Lemma init_args_keeps (rt : runtime) (d d' : dict value) (r : outcome unit) (k : string) :
  _init_args rt d = (r, d') -> existsb (String.eqb k) derived_keys = false ->
  dict_get k d' = dict_get k d.
Proof. intros H. exact (frames_run _ _ _ _ _ k (frames_init_args rt) H). Qed.


Lemma networked_generated :
  generate sample_runtime networked_options = (Ok networked_script, networked_resolved).
Proof. vm_compute. reflexivity. Qed.




(** Nor does it hold for a family with a space or with a [$] in it, which
    has no single quote: the value is split into two words, or depends on
    the variables of the shell, and is not the one argument
    --image-family=<base_image_family>. *)
Lemma family_with_active_characters :
  Script.image_source "a b" "base" = None /\
  Script.image_source "$HOME" "base" = None /\
  Script.double_quoted_value "--image-family=a b" = Some "--image-family=a b" /\
  Script.double_quoted_value "--image-family=$HOME" = None.
Proof. repeat split. Qed.

(** C7.  In the result-detection step, for every captured log: when the log
    has "BuildFailed:" the script exits with 1, also when "BuildSucceeded:"
    is there too; when it has "BuildSucceeded:" and no "BuildFailed:" the
    script goes on to create the image; when it has neither, the script says
    that the result cannot be determined and exits with 1. *)
Theorem result_detection_policy (env : Script.environment)
    (w : Script.world) (log : string) :
  Script.startup_script_log w = Some log ->
  let checked :=
    Script.record (Script.Echo "Checking customization script result.") w in
  let rest := Script.sh_bind Script.check_result (fun _ => Script.create_image env) in
  (contains_text "BuildFailed:" log ->
   rest w = (Script.Exit 1,
             Script.record (Script.Echo "Customization script failed.") checked)) /\
  (~ contains_text "BuildFailed:" log -> contains_text "BuildSucceeded:" log ->
   rest w = Script.create_image env
              (Script.record (Script.Echo "Customization script succeeded.") checked)) /\
  (~ contains_text "BuildFailed:" log -> ~ contains_text "BuildSucceeded:" log ->
   rest w = (Script.Exit 1,
             Script.record
               (Script.Echo "Unable to determine the customization script result.")
               checked)).
Proof.
  intros Hl checked rest. unfold rest, Script.sh_bind.
  rewrite (check_result_eq w log Hl). cbv zeta. fold checked.
  rewrite <- !has_substring_spec.
  destruct (Script.has_substring "BuildFailed:" log);
    destruct (Script.has_substring "BuildSucceeded:" log);
    repeat split; intros; try reflexivity; try congruence;
    exfalso; auto.
Qed.

Lemma result_detection_policy_witness :
  Script.sh_bind Script.check_result (fun _ => Script.create_image all_succeed)
    (world_with true true false (Some ("x BuildSucceeded: y BuildFailed: z" ++ nl))) =
  (Script.Exit 1,
   Script.record (Script.Echo "Customization script failed.")
     (Script.record (Script.Echo "Checking customization script result.")
        (world_with true true false (Some ("x BuildSucceeded: y BuildFailed: z" ++ nl))))).
Proof.
  apply (proj1 (result_detection_policy all_succeed
                  (world_with true true false
                     (Some ("x BuildSucceeded: y BuildFailed: z" ++ nl)))
                  ("x BuildSucceeded: y BuildFailed: z" ++ nl) eq_refl)).
  exists "x BuildSucceeded: y ", (" z" ++ nl). reflexivity.
Defined.




(** ** Reading the arrays back (C5) *)

Lemma all_digits_uint (d : Decimal.uint) :
  all_digits (NilEmpty.string_of_uint d) = true.
Proof. induction d; simpl; auto. Qed.

Lemma all_digits_index (i : nat) : all_digits (str_of_Z (Z.of_nat i)) = true.
Proof.
  unfold str_of_Z. pose proof (Nat2Z.is_nonneg i) as Hi.
  destruct (Z.of_nat i) as [|p|p]; simpl.
  - reflexivity.
  - destruct (Pos.to_uint p) eqn:E; try reflexivity;
      rewrite <- E; unfold NilZero.string_of_uint;
      pose proof (all_digits_uint (Pos.to_uint p)) as H;
      rewrite E in *; exact H.
  - lia.
Qed.

Lemma read_index_digits (ds rest : string) :
  all_digits ds = true ->
  Script.read_index (ds ++ String "]" (String "=" rest)) = Some (ds, rest).
Proof.
  induction ds as [|c ds IH]; intros H.
  - reflexivity.
  - cbn [all_digits] in H. apply andb_true_iff in H. destruct H as [Hc Hd].
    cbn [append Script.read_index].
    destruct (Ascii.eqb_spec c "]") as [->|_]; [discriminate Hc|].
    rewrite Hc, (IH Hd). reflexivity.
Qed.

Lemma read_word_escaped (s tail : string) :
  Script.read_word true (replace "'" escaped_quote s ++ tail) =
  option_map (fun r => (s ++ fst r, snd r)) (Script.read_word true tail).
Proof.
  induction s as [|c s IH].
  - rewrite replace_quote_nil. simpl.
    now destruct (Script.read_word true tail) as [[]|].
  - rewrite replace_quote_cons.
    destruct (Ascii.eqb_spec c sq) as [->|n].
    + rewrite append_assoc.
      change (Script.read_word true (escaped_quote ++ replace "'" escaped_quote s ++ tail))
        with (option_map (fun r => (String sq (fst r), snd r))
                (Script.read_word true (replace "'" escaped_quote s ++ tail))).
      rewrite IH. now destruct (Script.read_word true tail) as [[]|].
    + cbn [append Script.read_word].
      apply Ascii.eqb_neq in n. rewrite n, IH.
      now destruct (Script.read_word true tail) as [[]|].
Qed.

Lemma read_word_last (s : string) :
  Script.read_word false (Script.single_quoted (replace "'" escaped_quote s)) =
  Some (s, EmptyString).
Proof.
  unfold Script.single_quoted.
  change (Script.read_word false (String sq ?x)) with (Script.read_word true x).
  rewrite read_word_escaped.
  change (Script.read_word true (String sq EmptyString)) with (Some (EmptyString, EmptyString)).
  simpl. now rewrite append_nil_r.
Qed.

Lemma read_word_next (s rest : string) :
  Script.read_word false
    (Script.single_quoted (replace "'" escaped_quote s) ++ String " " rest) =
  Some (s, rest).
Proof.
  unfold Script.single_quoted. cbn [append]. rewrite append_assoc.
  change (Script.read_word false (String sq ?x)) with (Script.read_word true x).
  rewrite read_word_escaped.
  change (Script.read_word true (String sq EmptyString ++ String " " rest))
    with (Some (EmptyString, rest)).
  simpl. now rewrite append_nil_r.
Qed.

Lemma array_value_elements (l : list string) (i fuel : nat) :
  List.length l < fuel ->
  Script.array_value fuel (join " " (array_elements i l)) = Some (indexed i l).
Proof.
  revert i fuel. induction l as [|s l IH]; intros i fuel Hf.
  - destruct fuel; [lia | reflexivity].
  - destruct fuel as [|fuel]; [lia|]. simpl in Hf.
    destruct l as [|s' l].
    + cbn [array_elements join indexed]. unfold element_text.
      cbn [append Script.array_value]. cbn [Ascii.eqb Bool.eqb].
      rewrite (read_index_digits (str_of_Z (Z.of_nat i)) _ (all_digits_index i)).
      rewrite read_word_last.
      destruct fuel; [lia | reflexivity].
    + change (join " " (array_elements i (s :: s' :: l)))
        with (element_text i s ++ " " ++ join " " (array_elements (S i) (s' :: l))).
      unfold element_text at 1.
      cbn [append Script.array_value]. cbn [Ascii.eqb Bool.eqb].
      rewrite append_assoc. cbn [append].
      rewrite (read_index_digits (str_of_Z (Z.of_nat i)) _ (all_digits_index i)).
      rewrite read_word_next.
      rewrite (IH (S i) fuel) by (simpl in *; lia). reflexivity.
Qed.

Lemma length_append (a b : string) :
  String.length (a ++ b) = String.length a + String.length b.
Proof. induction a as [|c a IH]; simpl; [reflexivity | now rewrite IH]. Qed.

Lemma array_text_length (l : list string) (i : nat) :
  List.length l <= String.length (join " " (array_elements i l)).
Proof.
  revert i. induction l as [|s l IH]; intros i; [apply Nat.le_0_l|].
  destruct l as [|s' l].
  - simpl. lia.
  - change (join " " (array_elements i (s :: s' :: l)))
      with (element_text i s ++ " " ++ join " " (array_elements (S i) (s' :: l))).
    rewrite !length_append. specialize (IH (S i)). simpl in *. lia.
Qed.

(** bash reads the text of an array back as the list it was written from. *)
Lemma array_parse_text (l : list string) :
  Script.array_parse (array_text l) = Some (indexed 0 l).
Proof.
  unfold Script.array_parse, array_text. apply array_value_elements.
  pose proof (array_text_length l 0). lia.
Qed.

(** ** The sources in the resolved mapping (C4, C5) *)

Lemma resolved_sources (rt : runtime) (d d' : dict value) :
  _init_args rt d = (Ok tt, d') ->
  exists cs es all vals,
    dict_get "customization_script" d = Some cs /\
    dict_get "extra_sources" d = Some es /\
    all_sources_of cs es = Ok all /\
    str_values all = Some vals /\
    dict_get "sources_map_k" d' = Some (VStr (array_text (keys all))) /\
    dict_get "sources_map_v" d' = Some (VStr (array_text vals)).
Proof.
  intros Hi. apply init_args_resolution in Hi. destruct Hi.
  destruct (set_sources_map_ok _ _ _ sources_map_set)
    as (cs & es & all & vals & Hc & He & Ha & Hv & ->).
  exists cs, es, all, vals.
  assert (Hc' : dict_get "customization_script" d = Some cs).
  { rewrite <- Hc. symmetry. back "customization_script". reflexivity. }
  assert (He' : dict_get "extra_sources" d = Some es).
  { rewrite <- He. symmetry. back "extra_sources". reflexivity. }
  repeat split; try assumption.
  - back "sources_map_k". rewrite !dict_get_set. reflexivity.
  - back "sources_map_v". rewrite !dict_get_set. reflexivity.
Qed.

(** C4.  The resolved sources map has the two fixed entries first ("run.sh"
    for the startup script, then "init_actions.sh" for the customization
    script), then the caller's extra sources in the caller's order; an extra
    source under a fixed name gives that entry its value.  The two rendered
    arrays have one element per entry, the same positions in both, and for
    the extra source "a.sh" -> "gs://x/a.sh" both have three elements with
    "a.sh" and "gs://x/a.sh" under index 2. *)
Theorem sources_map_order (rt : runtime) (d : dict value)
    (customization_script : string) (extra : list (string * string)) :
  options_complete d = true ->
  dict_get "customization_script" d = Some (VStr customization_script) ->
  dict_get "extra_sources" d = Some (VDict extra) ->
  NoDup (keys extra) ->
  let all_sources := merged_sources (VStr customization_script) extra in
  exists d' vals,
    _init_args rt d = (Ok tt, d') /\
    all_sources_of (VStr customization_script) (VDict extra) = Ok all_sources /\
    str_values all_sources = Some vals /\
    dict_get "sources_map_k" d' = Some (VStr (array_text (keys all_sources))) /\
    dict_get "sources_map_v" d' = Some (VStr (array_text vals)) /\
    Script.array_parse (array_text (keys all_sources)) = Some (indexed 0 (keys all_sources)) /\
    Script.array_parse (array_text vals) = Some (indexed 0 vals) /\
    List.length vals = List.length (keys all_sources) /\
    (forall i k v, nth_error all_sources i = Some (k, v) ->
       nth_error (keys all_sources) i = Some k /\
       exists s, v = VStr s /\ nth_error vals i = Some s) /\
    (extra = [("a.sh", "gs://x/a.sh")] ->
       indexed 0 (keys all_sources) =
         [("0", "run.sh"); ("1", "init_actions.sh"); ("2", "a.sh")] /\
       indexed 0 vals =
         [("0", "startup_script/run.sh"); ("1", customization_script);
          ("2", "gs://x/a.sh")] /\
       array_text (keys all_sources) = "[0]='run.sh' [1]='init_actions.sh' [2]='a.sh'").
Proof.
  intros Hc Hcs Hes Hnd all_sources.
  destruct (init_args_succeeds rt d Hc) as [d' Hi].
  destruct (resolved_sources rt d d' Hi) as (cs & es & all & vals & Hcs' & Hes' & Ha & Hv & Hk & Hvv).
  rewrite Hcs in Hcs'. rewrite Hes in Hes'.
  injection Hcs' as <-. injection Hes' as <-.
  rewrite (all_sources_merged _ _ Hnd) in Ha. injection Ha as <-.
  fold all_sources in Hv, Hk.
  exists d', vals. split; [exact Hi|].
  split; [exact (all_sources_merged _ _ Hnd)|].
  split; [exact Hv|]. split; [exact Hk|]. split; [exact Hvv|].
  split; [apply array_parse_text|]. split; [apply array_parse_text|].
  split.
  { rewrite (str_values_length _ _ Hv). unfold keys. now rewrite length_map. }
  split.
  { intros i k v Hn. split; [exact (keys_nth _ _ _ _ Hn)|].
    exact (str_values_nth _ _ Hv i k v Hn). }
  intros ->. unfold all_sources in *. cbn in Hv. injection Hv as <-.
  repeat split.
Qed.

Lemma sources_map_order_witness :
  exists d' vals,
    _init_args sample_runtime quoted_options = (Ok tt, d') /\
    dict_get "sources_map_k" d' =
      Some (VStr (array_text ["run.sh"; "init_actions.sh"; "a.sh"; "it's.sh"])) /\
    dict_get "sources_map_v" d' = Some (VStr (array_text vals)).
Proof.
  assert (Hnd : NoDup (keys [("a.sh", "gs://x/a.sh"); ("it's.sh", "gs://x/it's here.sh")])).
  { repeat constructor; simpl; intuition discriminate. }
  destruct (sources_map_order sample_runtime quoted_options "/local/init.sh"
              [("a.sh", "gs://x/a.sh"); ("it's.sh", "gs://x/it's here.sh")]
              eq_refl eq_refl eq_refl Hnd)
    as (d' & vals & Hi & _ & _ & Hk & Hv & _).
  exists d', vals. repeat split; assumption.
Defined.

(** C5.  Every key and every value of the sources map is written into its
    array between single quotes with each single quote inside it replaced
    by the four characters that close the string, give an escaped quote and
    open the string again; bash reads each word back as the original
    string, and each array back as the list of the keys, or of the values,
    under their positions.  So it is for a name such as it's.sh. *)
Theorem sources_quoting (rt : runtime) (d d' : dict value) :
  _init_args rt d = (Ok tt, d') ->
  exists cs es all vals,
    dict_get "customization_script" d = Some cs /\
    dict_get "extra_sources" d = Some es /\
    all_sources_of cs es = Ok all /\
    str_values all = Some vals /\
    dict_get "sources_map_k" d' = Some (VStr (array_text (keys all))) /\
    dict_get "sources_map_v" d' = Some (VStr (array_text vals)) /\
    Script.array_parse (array_text (keys all)) = Some (indexed 0 (keys all)) /\
    Script.array_parse (array_text vals) = Some (indexed 0 vals) /\
    (forall i s,
       element_text i s =
         "[" ++ str_of_Z (Z.of_nat i) ++ "]=" ++
         Script.single_quoted (replace "'" escaped_quote s) /\
       Script.word_value false
         (Script.single_quoted (replace "'" escaped_quote s)) = Some s) /\
    Script.single_quoted (replace "'" escaped_quote "it's.sh") = "'it'\''s.sh'".
Proof.
  intros Hi.
  destruct (resolved_sources rt d d' Hi) as (cs & es & all & vals & H1 & H2 & H3 & H4 & H5 & H6).
  exists cs, es, all, vals.
  repeat match goal with |- _ /\ _ => split end; try assumption.
  - apply array_parse_text.
  - apply array_parse_text.
  - intros i s. split; [reflexivity | apply word_value_single_quoted].
  - reflexivity.
Qed.

Lemma quoted_resolution :
  _init_args sample_runtime quoted_options = (Ok tt, quoted_resolved).
Proof. vm_compute. reflexivity. Qed.

Lemma sources_quoting_witness :
  exists vals,
    dict_get "sources_map_v" quoted_resolved = Some (VStr (array_text vals)) /\
    Script.array_parse (array_text vals) = Some (indexed 0 vals).
Proof.
  destruct (sources_quoting sample_runtime quoted_options quoted_resolved quoted_resolution)
    as (cs & es & all & vals & _ & _ & _ & _ & _ & Hv & _ & Hp & _).
  exists vals. split; assumption.
Defined.

(** ** The run id and the paths (C3) *)

Lemma nat_of_digit (n : nat) : nat_of_ascii (digit n) = 48 + n mod 10.
Proof.
  unfold digit. apply nat_ascii_embedding.
  pose proof (Nat.mod_upper_bound n 10). lia.
Qed.

Lemma is_digit_digit (n : nat) : is_digit (digit n) = true.
Proof.
  unfold is_digit. rewrite nat_of_digit.
  pose proof (Nat.mod_upper_bound n 10).
  apply andb_true_iff. split; apply Nat.leb_le; lia.
Qed.

Lemma all_digits_pad2 (n : nat) : all_digits (pad2 n) = true.
Proof. unfold pad2. cbn [all_digits]. now rewrite !is_digit_digit. Qed.

Lemma all_digits_pad4 (n : nat) : all_digits (pad4 n) = true.
Proof. unfold pad4, pad2. cbn [all_digits]. now rewrite !is_digit_digit. Qed.

Lemma all_digits_app (a b : string) :
  all_digits (a ++ b) = all_digits a && all_digits b.
Proof.
  induction a as [|c a IH]; simpl; [reflexivity|].
  now rewrite IH, andb_assoc.
Qed.

(** What [strftime("%Y%m%d-%H%M%S")] gives: eight digits, a hyphen, six
    digits. *)
Lemma strftime_stamp (t : datetime) :
  strftime "%Y%m%d-%H%M%S" t =
  (pad4 (year t) ++ pad2 (month t) ++ pad2 (day t)) ++ "-" ++
  (pad2 (hour t) ++ pad2 (minute t) ++ pad2 (second t)).
Proof. reflexivity. Qed.

Lemma replace_go_skip (old new x rest : string) :
  replace_go old new (String.length x) (x ++ rest) = replace_go old new 0 rest.
Proof.
  induction x as [|c x IH]; [reflexivity|].
  simpl. exact IH.
Qed.

Lemma replace_prefix (c : ascii) (old new rest : string) :
  replace (String c old) new (String c old ++ rest) =
  new ++ replace (String c old) new rest.
Proof.
  unfold replace.
  change (replace_go (String c old) new 0 (String c old ++ rest))
    with (if prefix (String c old) (String c (old ++ rest))
          then new ++ replace_go (String c old) new (String.length old) (old ++ rest)
          else String c (replace_go (String c old) new 0 (old ++ rest))).
  replace (prefix (String c old) (String c (old ++ rest))) with true.
  - now rewrite replace_go_skip.
  - symmetry. apply prefix_spec. now exists rest.
Qed.

Lemma replace_absent (c : ascii) (old new s : string) :
  Script.has_substring (String c old) s = false ->
  replace (String c old) new s = s.
Proof.
  unfold replace. induction s as [|c' s IH]; [reflexivity|].
  cbn [Script.has_substring]. intros H. apply orb_false_iff in H.
  destruct H as [Hp Hs].
  change (replace_go (String c old) new 0 (String c' s))
    with (if prefix (String c old) (String c' s)
          then new ++ replace_go (String c old) new (String.length old) s
          else String c' (replace_go (String c old) new 0 s)).
  rewrite Hp. now rewrite (IH Hs).
Qed.

Lemma resolved_paths (rt : runtime) (d d' : dict value) :
  _init_args rt d = (Ok tt, d') ->
  exists bucket run_id,
    dict_get "gcs_bucket" d = Some (VStr bucket) /\
    dict_get "run_id" d' = Some run_id /\
    match dict_get "run_id" d with
    | Some r => run_id = r
    | None =>
        exists image_name,
          dict_get "image_name" d = Some image_name /\
          run_id = VStr ("custom-image-" ++ py_str (repr_dict rt) image_name ++ "-" ++
                         strftime "%Y%m%d-%H%M%S" (now rt))
    end /\
    dict_get "bucket_name" d' = Some (VStr (replace "gs://" EmptyString bucket)) /\
    dict_get "custom_sources_path" d' =
      Some (VStr ("gs://" ++ replace "gs://" EmptyString bucket ++ "/" ++
                  py_str (repr_dict rt) run_id ++ "/sources")) /\
    dict_get "log_dir" d' =
      Some (VStr ("/tmp/" ++ py_str (repr_dict rt) run_id ++ "/logs")) /\
    dict_get "gcs_log_dir" d' =
      Some (VStr ("gs://" ++ replace "gs://" EmptyString bucket ++ "/" ++
                  py_str (repr_dict rt) run_id ++ "/logs")).
Proof.
  intros Hi. apply init_args_resolution in Hi. destruct Hi.
  destruct (set_bucket_paths_ok _ _ _ bucket_paths_set) as (b & r & Hb & Hr & Hd2).
  destruct (set_log_dirs_ok _ _ _ log_dirs_set) as (b' & r' & Hb' & Hr' & Hd4).
  assert (Hb3 : dict_get "bucket_name" d3 = Some (VStr (replace "gs://" EmptyString b))).
  { back "bucket_name". rewrite Hd2, !dict_get_set. reflexivity. }
  assert (Hr3 : dict_get "run_id" d3 = Some r).
  { back "run_id". exact Hr. }
  rewrite Hb3 in Hb'. rewrite Hr3 in Hr'. injection Hb' as <-. injection Hr' as <-.
  exists b, r.
  split. { rewrite <- Hb. symmetry. back "gcs_bucket". reflexivity. }
  split. { back "run_id". exact Hr. }
  split.
  { pose proof (set_run_id_ok _ _ _ run_id_set) as H1.
    destruct (dict_get "run_id" d) as [r0|] eqn:E0.
    - subst d1. rewrite E0 in Hr. now injection Hr.
    - destruct H1 as (_ & v & Hv & Hd1). exists v. split; [exact Hv|].
      rewrite Hd1, dict_get_set in Hr. simpl in Hr. now injection Hr. }
  split. { back "bucket_name". rewrite Hd2, !dict_get_set. reflexivity. }
  split. { back "custom_sources_path". rewrite Hd2, !dict_get_set. reflexivity. }
  split. { back "log_dir". rewrite Hd4, !dict_get_set. reflexivity. }
  back "gcs_log_dir". rewrite Hd4, !dict_get_set. reflexivity.
Qed.

(** C3 (amended).  When the caller gives no run_id, resolution sets it to
    custom-image-<image_name>-<timestamp>, where the timestamp is the eight
    digits of the date, a hyphen and the six digits of the time; a run_id
    the caller gives is left as it is.  The derived paths are
    gs://<bucket_name>/<run_id>/sources, /tmp/<run_id>/logs and
    gs://<bucket_name>/<run_id>/logs, where bucket_name is gcs_bucket with
    every occurrence of gs:// removed: the name after the scheme prefix when
    gs:// does not occur in it again. *)
Theorem run_id_and_paths (rt : runtime) (d : dict value) :
  datetime_ok (now rt) ->
  options_complete d = true ->
  exists d' bucket run_id,
    _init_args rt d = (Ok tt, d') /\
    dict_get "gcs_bucket" d = Some (VStr bucket) /\
    dict_get "run_id" d' = Some run_id /\
    (forall r, dict_get "run_id" d = Some r -> run_id = r) /\
    (dict_get "run_id" d = None ->
     exists image_name date time,
       dict_get "image_name" d = Some image_name /\
       run_id = VStr ("custom-image-" ++ py_str (repr_dict rt) image_name ++ "-" ++
                      date ++ "-" ++ time) /\
       date = pad4 (year (now rt)) ++ pad2 (month (now rt)) ++ pad2 (day (now rt)) /\
       time = pad2 (hour (now rt)) ++ pad2 (minute (now rt)) ++ pad2 (second (now rt)) /\
       String.length date = 8 /\ all_digits date = true /\
       String.length time = 6 /\ all_digits time = true) /\
    dict_get "bucket_name" d' = Some (VStr (replace "gs://" EmptyString bucket)) /\
    (forall name, bucket = "gs://" ++ name ->
       Script.has_substring "gs://" name = false ->
       replace "gs://" EmptyString bucket = name) /\
    dict_get "custom_sources_path" d' =
      Some (VStr ("gs://" ++ replace "gs://" EmptyString bucket ++ "/" ++
                  py_str (repr_dict rt) run_id ++ "/sources")) /\
    dict_get "log_dir" d' =
      Some (VStr ("/tmp/" ++ py_str (repr_dict rt) run_id ++ "/logs")) /\
    dict_get "gcs_log_dir" d' =
      Some (VStr ("gs://" ++ replace "gs://" EmptyString bucket ++ "/" ++
                  py_str (repr_dict rt) run_id ++ "/logs")).
Proof.
  intros _ Hc. destruct (init_args_succeeds rt d Hc) as [d' Hi].
  destruct (resolved_paths rt d d' Hi) as (b & r & Hb & Hr & Hrun & Hbn & Hp & Hl & Hg).
  exists d', b, r.
  split; [exact Hi|]. split; [exact Hb|]. split; [exact Hr|].
  split. { intros r0 E. rewrite E in Hrun. exact Hrun. }
  split.
  { intros E. rewrite E in Hrun. destruct Hrun as (v & Hv & ->).
    exists v, (pad4 (year (now rt)) ++ pad2 (month (now rt)) ++ pad2 (day (now rt))),
      (pad2 (hour (now rt)) ++ pad2 (minute (now rt)) ++ pad2 (second (now rt))).
    split; [exact Hv|]. split; [now rewrite strftime_stamp|].
    split; [reflexivity|]. split; [reflexivity|].
    split; [reflexivity|].
    split; [now rewrite !all_digits_app, all_digits_pad4, !all_digits_pad2|].
    split; [reflexivity|].
    now rewrite !all_digits_app, !all_digits_pad2. }
  split; [exact Hbn|].
  split.
  { intros name -> Hn. rewrite replace_prefix. simpl. now apply replace_absent. }
  split; [exact Hp|]. split; [exact Hl | exact Hg].
Qed.

Lemma run_id_and_paths_witness :
  exists d' bucket run_id,
    _init_args sample_runtime demo_options = (Ok tt, d') /\
    dict_get "gcs_bucket" demo_options = Some (VStr bucket) /\
    dict_get "run_id" d' = Some run_id /\
    dict_get "log_dir" d' =
      Some (VStr ("/tmp/" ++ py_str (repr_dict sample_runtime) run_id ++ "/logs")).
Proof.
  assert (Hok : datetime_ok (now sample_runtime)) by (unfold datetime_ok; simpl; lia).
  destruct (run_id_and_paths sample_runtime demo_options Hok eq_refl)
    as (d' & b & r & H1 & H2 & H3 & _ & _ & _ & _ & _ & H4 & _).
  exists d', b, r. repeat split; assumption.
Defined.

(** The claim C3 as stated fails: the timestamp of the default run id is not
    a run of fourteen digits, and a bucket in which gs:// occurs again loses
    more than its prefix. *)
Lemma timestamp_is_not_14_digits :
  dict_get "run_id" demo_resolved = Some (VStr "custom-image-demo-20190102-030405") /\
  ~ (exists stamp, "custom-image-demo-20190102-030405" = "custom-image-demo-" ++ stamp /\
                   String.length stamp = 14 /\ all_digits stamp = true) /\
  replace "gs://" EmptyString "gs://a/gs://b" = "a/b" /\
  strip_prefix "gs://" "gs://a/gs://b" = "a/gs://b".
Proof.
  split; [reflexivity|]. split.
  - intros (stamp & H & Hl & _). simpl in H. injection H as <-. discriminate Hl.
  - split; reflexivity.
Qed.

(** ** Options without a network (C1) *)

Lemma in_names (k : string) (names : list string) :
  existsb (String.eqb k) names = true -> In k names.
Proof.
  intros H. apply existsb_exists in H. destruct H as (x & Hin & E).
  apply String.eqb_eq in E. now subst.
Qed.

Lemma missing_field_raises (k : string) (d : dict value) :
  existsb (String.eqb k) template_fields = true ->
  dict_get k d = None ->
  exists name, first_missing template_fields d = Some name.
Proof.
  intros Hin Hk. destruct (first_missing template_fields d) as [n|] eqn:E.
  - now exists n.
  - pose proof (proj1 (first_missing_none _ _) E k (in_names _ _ Hin)) as Hm.
    unfold dict_mem in Hm. rewrite Hk in Hm. discriminate.
Qed.

(** C1 (the code departs from the claim).  When subnetwork and network are
    both absent or empty and the caller supplies no network_flag of its own,
    [_init_args] returns without having set network_flag, and [generate]
    raises instead of giving a script: the flag does not resolve to the empty
    string. *)
Theorem absent_network_leaves_flag_unset (rt : runtime) (d : dict value)
    (subnetwork network : value) :
  dict_get "subnetwork" d = Some subnetwork -> truthy subnetwork = false ->
  dict_get "network" d = Some network -> truthy network = false ->
  dict_get "network_flag" d = None ->
  (forall d', _init_args rt d = (Ok tt, d') -> dict_get "network_flag" d' = None) /\
  exists e d', generate rt d = (Raise e, d').
Proof.
  intros Hs Hst Hn Hnt Hf.
  assert (H1 : forall d', _init_args rt d = (Ok tt, d') ->
                          dict_get "network_flag" d' = None).
  { intros d' Hi. apply init_args_resolution in Hi. destruct Hi.
    back "network_flag".
    assert (Hs4 : dict_get "subnetwork" d4 = Some subnetwork).
    { back "subnetwork". exact Hs. }
    assert (Hn4 : dict_get "network" d4 = Some network).
    { back "network". exact Hn. }
    rewrite set_network_flags_eq, Hs4, Hst, Hn4, Hnt in network_flags_set.
    injection network_flags_set as <-.
    back "network_flag". exact Hf. }
  split; [exact H1|].
  rewrite generate_eq.
  destruct (_init_args rt d) as [[[]|e] d'] eqn:Hi.
  - destruct (missing_field_raises "network_flag" d' eq_refl (H1 d' eq_refl)) as [n ->].
    now eexists _, _.
  - now eexists _, _.
Qed.

Lemma absent_network_leaves_flag_unset_witness :
  exists e d', generate sample_runtime demo_options = (Raise e, d').
Proof.
  exact (proj2 (absent_network_leaves_flag_unset sample_runtime demo_options
                  VNone VNone eq_refl eq_refl eq_refl eq_refl eq_refl)).
Defined.

(** The end-to-end scenario of the specification: the flags of the sibling
    options are empty strings, the three others are not in the mapping, and
    no script is returned. *)
Lemma demo_scenario_raises :
  generate sample_runtime demo_options = (Raise (KeyError "network_flag"), demo_resolved) /\
  dict_get "accelerator_flag" demo_resolved = Some (VStr EmptyString) /\
  dict_get "storage_location_flag" demo_resolved = Some (VStr EmptyString) /\
  dict_get "no_external_ip_flag" demo_resolved = Some (VStr EmptyString) /\
  dict_get "network_flag" demo_resolved = None /\
  dict_get "subnetwork_flag" demo_resolved = None /\
  dict_get "service_account_flag" demo_resolved = None.
Proof. vm_compute. repeat split. Qed.

(** ** Two runs (C6) *)

(** A block run again on the mapping [d'] that a whole resolution has left:
    it looks up what it looked up the first time and assigns what is already
    there. *)
Ltac stable_block eqn d' :=
  let Hrun := fresh "Hrun" in
  let Hreads := fresh "Hreads" in
  let Hwrites := fresh "Hwrites" in
  intros Hrun Hreads Hwrites;
  rewrite eqn in Hrun; rewrite eqn; cbv zeta in *;
  repeat match goal with
  | |- context [dict_get ?k d'] => rewrite (Hreads k ltac:(simpl; tauto))
  end;
  repeat match type of Hrun with
  | context [match dict_get ?k ?d with _ => _ end] =>
      destruct (dict_get k d) eqn:?; try discriminate Hrun
  | context [match all_sources_of ?x ?y with _ => _ end] =>
      destruct (all_sources_of x y) eqn:?; try discriminate Hrun
  | context [match sources_map_k_of ?x ?y with _ => _ end] =>
      destruct (sources_map_k_of x y) eqn:?; try discriminate Hrun
  | context [match sources_map_v_of ?x ?y with _ => _ end] =>
      destruct (sources_map_v_of x y) eqn:?; try discriminate Hrun
  | context [if truthy ?v then _ else _] =>
      destruct (truthy v) eqn:?; try discriminate Hrun
  | context [match ?v with VNone => _ | _ => _ end] =>
      is_var v; destruct v; try discriminate Hrun
  end;
  apply pair_equal_spec in Hrun; destruct Hrun as [_ Hrun]; subst;
  repeat match goal with
  | |- context [dict_set ?k ?v d'] =>
      rewrite (dict_set_same k v d')
        by (rewrite (Hwrites k ltac:(simpl; tauto)), !dict_get_set; reflexivity)
  end;
  reflexivity.

Lemma stable_set_run_id (rt : runtime) (d' : dict value) (r : value) :
  dict_get "run_id" d' = Some r -> set_run_id rt d' = (Ok tt, d').
Proof. intros H. now rewrite set_run_id_eq, H. Qed.

Lemma stable_set_bucket_paths (rt : runtime) (a a1 d' : dict value) :
  set_bucket_paths rt a = (Ok tt, a1) ->
  (forall k, In k ["gcs_bucket"; "run_id"] ->
             dict_get k d' = dict_get k a) ->
  (forall k, In k ["bucket_name"; "custom_sources_path"] ->
             dict_get k d' = dict_get k a1) ->
  set_bucket_paths rt d' = (Ok tt, d').
Proof. stable_block (set_bucket_paths_eq rt) d'. Qed.

Lemma stable_set_sources_map (rt : runtime) (a a1 d' : dict value) :
  set_sources_map rt a = (Ok tt, a1) ->
  (forall k, In k ["customization_script"; "extra_sources"] ->
             dict_get k d' = dict_get k a) ->
  (forall k, In k ["sources_map_k"; "sources_map_v"] ->
             dict_get k d' = dict_get k a1) ->
  set_sources_map rt d' = (Ok tt, d').
Proof. stable_block (set_sources_map_eq rt) d'. Qed.

Lemma stable_set_log_dirs (rt : runtime) (a a1 d' : dict value) :
  set_log_dirs rt a = (Ok tt, a1) ->
  (forall k, In k ["run_id"; "bucket_name"] ->
             dict_get k d' = dict_get k a) ->
  (forall k, In k ["log_dir"; "gcs_log_dir"] ->
             dict_get k d' = dict_get k a1) ->
  set_log_dirs rt d' = (Ok tt, d').
Proof. stable_block (set_log_dirs_eq rt) d'. Qed.

Lemma stable_set_network_flags (rt : runtime) (a a1 d' : dict value) :
  set_network_flags rt a = (Ok tt, a1) ->
  (forall k, In k ["subnetwork"; "network"] ->
             dict_get k d' = dict_get k a) ->
  (forall k, In k ["subnetwork_flag"; "network_flag"] ->
             dict_get k d' = dict_get k a1) ->
  set_network_flags rt d' = (Ok tt, d').
Proof. stable_block (set_network_flags_eq rt) d'. Qed.

Lemma stable_set_service_account_flag (rt : runtime) (a a1 d' : dict value) :
  set_service_account_flag rt a = (Ok tt, a1) ->
  (forall k, In k ["service_account"] ->
             dict_get k d' = dict_get k a) ->
  (forall k, In k ["service_account_flag"] ->
             dict_get k d' = dict_get k a1) ->
  set_service_account_flag rt d' = (Ok tt, d').
Proof. stable_block (set_service_account_flag_eq rt) d'. Qed.

Lemma stable_set_no_external_ip_flag (a a1 d' : dict value) :
  set_no_external_ip_flag a = (Ok tt, a1) ->
  (forall k, In k ["no_external_ip"] ->
             dict_get k d' = dict_get k a) ->
  (forall k, In k ["no_external_ip_flag"] ->
             dict_get k d' = dict_get k a1) ->
  set_no_external_ip_flag d' = (Ok tt, d').
Proof. stable_block set_no_external_ip_flag_eq d'. Qed.

Lemma stable_set_accelerator_flag (rt : runtime) (a a1 d' : dict value) :
  set_accelerator_flag rt a = (Ok tt, a1) ->
  (forall k, In k ["accelerator"] ->
             dict_get k d' = dict_get k a) ->
  (forall k, In k ["accelerator_flag"] ->
             dict_get k d' = dict_get k a1) ->
  set_accelerator_flag rt d' = (Ok tt, d').
Proof. stable_block (set_accelerator_flag_eq rt) d'. Qed.

Lemma stable_set_storage_location_flag (rt : runtime) (a a1 d' : dict value) :
  set_storage_location_flag rt a = (Ok tt, a1) ->
  (forall k, In k ["storage_location"] ->
             dict_get k d' = dict_get k a) ->
  (forall k, In k ["storage_location_flag"] ->
             dict_get k d' = dict_get k a1) ->
  set_storage_location_flag rt d' = (Ok tt, d').
Proof. stable_block (set_storage_location_flag_eq rt) d'. Qed.

Lemma stable_set_metadata_flag (rt : runtime) (a a1 d' : dict value) :
  set_metadata_flag rt a = (Ok tt, a1) ->
  (forall k, In k ["metadata"; "shutdown_timer_in_sec"; "custom_sources_path"] ->
             dict_get k d' = dict_get k a) ->
  (forall k, In k ["metadata_flag"] ->
             dict_get k d' = dict_get k a1) ->
  set_metadata_flag rt d' = (Ok tt, d').
Proof. stable_block (set_metadata_flag_eq rt) d'. Qed.

Ltac same_entry :=
  let k := fresh "k" in
  let Hk := fresh "Hk" in
  intros k Hk; simpl in Hk;
  repeat (destruct Hk as [<-|Hk];
          [match goal with |- dict_get ?s _ = _ => back s end; reflexivity|]);
  destruct Hk.

Lemma resolved_has_run_id (rt : runtime) (d d' : dict value) :
  _init_args rt d = (Ok tt, d') -> exists r, dict_get "run_id" d' = Some r.
Proof.
  intros Hi. apply init_args_resolution in Hi. destruct Hi.
  back "run_id". rewrite set_bucket_paths_eq in bucket_paths_set.
  destruct (dict_get "gcs_bucket" d1) as [[]|]; try discriminate.
  destruct (dict_get "run_id" d1) as [r|]; [now exists r | discriminate].
Qed.

(** Resolution is idempotent: on a mapping it has resolved, [_init_args]
    changes nothing. *)
Lemma init_args_idempotent (rt : runtime) (d d' : dict value) :
  _init_args rt d = (Ok tt, d') -> _init_args rt d' = (Ok tt, d').
Proof.
  intros Hi. destruct (resolved_has_run_id rt d d' Hi) as [r Hr].
  apply init_args_resolution in Hi. destruct Hi.
  apply init_args_resolution.
  apply (Resolution rt d' d' d' d' d' d' d' d' d' d' d').
  - exact (stable_set_run_id rt d' r Hr).
  - apply (stable_set_bucket_paths rt d1 d2 d' bucket_paths_set); same_entry.
  - apply (stable_set_sources_map rt d2 d3 d' sources_map_set); same_entry.
  - apply (stable_set_log_dirs rt d3 d4 d' log_dirs_set); same_entry.
  - apply (stable_set_network_flags rt d4 d5 d' network_flags_set); same_entry.
  - apply (stable_set_service_account_flag rt d5 d6 d' service_account_flag_set); same_entry.
  - apply (stable_set_no_external_ip_flag d6 d7 d' no_external_ip_flag_set); same_entry.
  - apply (stable_set_accelerator_flag rt d7 d8 d' accelerator_flag_set); same_entry.
  - apply (stable_set_storage_location_flag rt d8 d9 d' storage_location_flag_set); same_entry.
  - apply (stable_set_metadata_flag rt d9 d' d' metadata_flag_set); same_entry.
Qed.

(** With a run id in the mapping, [_init_args] does not read the clock. *)
Lemma init_args_ignores_clock (rt1 rt2 : runtime) (d : dict value) :
  repr_dict rt1 = repr_dict rt2 ->
  dict_mem "run_id" d = true ->
  _init_args rt1 d = _init_args rt2 d.
Proof.
  destruct rt1 as [n1 r1], rt2 as [n2 r2]. simpl. intros -> Hr.
  unfold _init_args, bind. rewrite !set_run_id_eq.
  unfold dict_mem in Hr. destruct (dict_get "run_id" d); [|discriminate].
  reflexivity.
Qed.

(** C6.  With a run id of the caller's, resolution and generation do not
    read the clock: two runs on the same options, whenever they happen, give
    the same resolved parameters and the same script (or the same
    exception).  So does a second run on the mapping that the first run has
    filled in, which is what a caller passing one dict twice gets: the same
    script, and the mapping unchanged. *)
Theorem generation_deterministic (rt1 rt2 : runtime) (d : dict value) :
  repr_dict rt1 = repr_dict rt2 ->
  dict_mem "run_id" d = true ->
  _init_args rt1 d = _init_args rt2 d /\
  generate rt1 d = generate rt2 d /\
  forall script d',
    generate rt1 d = (Ok script, d') -> generate rt2 d' = (Ok script, d').
Proof.
  intros Hrepr Hr.
  pose proof (init_args_ignores_clock rt1 rt2 d Hrepr Hr) as Hi.
  split; [exact Hi|]. split.
  - unfold generate, bind. rewrite Hi, Hrepr. reflexivity.
  - intros script d' Hg. apply generate_ok_inv in Hg.
    destruct Hg as (Hd' & Hm & Hs).
    destruct (resolved_has_run_id rt1 d d' Hd') as [r Hr'].
    assert (Hmem : dict_mem "run_id" d' = true).
    { unfold dict_mem. rewrite Hr'. reflexivity. }
    pose proof (init_args_idempotent rt1 d d' Hd') as Hagain.
    rewrite (init_args_ignores_clock rt1 rt2 d' Hrepr Hmem) in Hagain.
    rewrite generate_eq, Hagain, Hm, <- Hrepr, <- Hs. reflexivity.
Qed.

Lemma generation_deterministic_witness :
  generate sample_runtime pinned_options = generate later_runtime pinned_options /\
  generate later_runtime pinned_resolved = (Ok pinned_script, pinned_resolved).
Proof.
  pose proof (generation_deterministic sample_runtime later_runtime pinned_options
                eq_refl eq_refl) as (_ & Hsame & Hagain).
  split; [exact Hsame|].
  apply Hagain. vm_compute. reflexivity.
Defined.

(** ** The caller's mapping (C10) *)

Lemma run_id_kept (rt : runtime) (d d' : dict value) (r : outcome unit) (v : value) :
  dict_get "run_id" d = Some v -> _init_args rt d = (r, d') ->
  dict_get "run_id" d' = Some v.
Proof.
  intros Hv. unfold _init_args. unfold bind at 1. rewrite set_run_id_eq, Hv.
  intros H. rewrite <- Hv.
  refine (frames_run (tl derived_keys) _ d r d' "run_id" _ H eq_refl).
  repeat (apply frames_bind; [| intros _]).
  - eapply frames_weaken; [| apply frames_set_bucket_paths]. incl_tac.
  - eapply frames_weaken; [| apply frames_set_sources_map]. incl_tac.
  - eapply frames_weaken; [| apply frames_set_log_dirs]. incl_tac.
  - eapply frames_weaken; [| apply frames_set_network_flags]. incl_tac.
  - eapply frames_weaken; [| apply frames_set_service_account_flag]. incl_tac.
  - eapply frames_weaken; [| apply frames_set_no_external_ip_flag]. incl_tac.
  - eapply frames_weaken; [| apply frames_set_accelerator_flag]. incl_tac.
  - eapply frames_weaken; [| apply frames_set_storage_location_flag]. incl_tac.
  - eapply frames_weaken; [| apply frames_set_metadata_flag]. incl_tac.
Qed.

Lemma generated_has_derived_keys (rt : runtime) (d d' : dict value) (script : string) :
  generate rt d = (Ok script, d') ->
  forall k, In k derived_keys -> dict_mem k d' = true.
Proof.
  intros Hg. apply generate_ok_inv in Hg. destruct Hg as (Hi & Hm & _).
  pose proof (proj1 (first_missing_none _ _) Hm) as Hall.
  intros k Hk. simpl in Hk.
  destruct Hk as [<-|[<-|Hk]]; [apply Hall, in_names; reflexivity | |].
  - destruct (resolved_paths rt d d' Hi) as (b & r & _ & _ & _ & Hb & _).
    unfold dict_mem. now rewrite Hb.
  - repeat (destruct Hk as [<-|Hk]; [apply Hall, in_names; reflexivity|]).
    destruct Hk.
Qed.

Lemma call_generate_eq (rt : runtime) (args : nat) (st : Generator.state) :
  let (r, st') := Generator.call_generate rt args st in
  (r, Generator.heap st' args) = generate rt (Generator.heap st args) /\
  Generator.self_args st' = Some args /\
  forall b, b <> args -> Generator.heap st' b = Generator.heap st b.
Proof.
  unfold Generator.call_generate, Generator.call_init_args, Generator.on_self_args,
    Generator.on_dict, generate, bind, format_args. cbn [Generator.self_args Generator.heap].
  destruct (_init_args rt (Generator.heap st args)) as [[[]|e] d'];
    cbn [Generator.self_args Generator.heap]; unfold Generator.heap_set;
    rewrite ?Nat.eqb_refl.
  - split; [reflexivity|]. split; [reflexivity|].
    intros b Hb. apply Nat.eqb_neq in Hb. now rewrite Hb.
  - split; [reflexivity|]. split; [reflexivity|].
    intros b Hb. apply Nat.eqb_neq in Hb. now rewrite Hb.
Qed.

(** ** A required field that is not there (C9) *)

Lemma agree_except_set (f k : string) (v : value) (a b : dict value) :
  agree_except f a b -> agree_except f (dict_set k v a) (dict_set k v b).
Proof.
  intros H x Hx. rewrite !dict_get_set.
  destruct (String.eqb x k); [reflexivity | now apply H].
Qed.

Lemma agree_except_given (f : string) (v : value) (d : dict value) :
  agree_except f (dict_set f v d) d.
Proof. intros k Hk. now rewrite dict_get_set, Hk. Qed.

Lemma blind_to_bind (f : string) (c k : D unit) :
  blind_to f c -> blind_to f k -> blind_to f (bind c (fun _ => k)).
Proof.
  intros Hc Hk a b a' Hag Hrun.
  apply bind_ok in Hrun. destruct Hrun as ([] & a1 & H1 & H2).
  destruct (Hc a b a1 Hag H1) as (b1 & Hb1 & Hag1).
  destruct (Hk a1 b1 a' Hag1 H2) as (b' & Hb' & Hag').
  exists b'. split; [|exact Hag'].
  now rewrite (bind_ok_intro _ _ _ _ _ Hb1).
Qed.


Section Blind.

Variable rt : runtime.
Variable f : string.












End Blind.







Lemma without_required_no_script (rt : runtime) (d : dict value) (f : string) :
  In f required_fields -> dict_get f d = None ->
  exists e d', generate rt d = (Raise e, d').
Proof.
  intros Hf Hn. destruct (generate rt d) as [[script|e] d'] eqn:Hg; [exfalso | now eexists _, _].
  pose proof Hg as Hg'. apply generate_ok_inv in Hg'. destruct Hg' as (Hi & Hm & _).
  pose proof (proj1 (first_missing_none _ _) Hm) as Hall.
  assert (Hkeep : forall k, existsb (String.eqb k) derived_keys = false ->
                           existsb (String.eqb k) template_fields = true ->
                           dict_get k d <> None).
  { intros k Hk Ht. rewrite <- (init_args_keeps rt d d' _ k Hi Hk).
    specialize (Hall k (in_names _ _ Ht)). unfold dict_mem in Hall.
    now destruct (dict_get k d'). }
  simpl in Hf. destruct Hf as [<-|[<-|[<-|[<-|[<-|[]]]]]].
  - now apply (Hkeep "image_name").
  - now apply (Hkeep "project_id").
  - now apply (Hkeep "zone").
  - destruct (resolved_paths rt d d' Hi) as (b & r & Hb & _). congruence.
  - destruct (resolved_sources rt d d' Hi) as (cs & es & all & vals & Hc & _). congruence.
Qed.

Lemma rezoned_generated :
  generate sample_runtime (dict_set "zone" (VStr "z") zoneless_options) =
  (Ok rezoned_script, rezoned_resolved).
Proof. vm_compute. reflexivity. Qed.

(** * Further properties of the generator *)

(** ** The flags of the optional settings *)

(** X1.  When [_init_args] returns, metadata_flag is
    --metadata=shutdown-timer-in-sec=<timer>,custom-sources-path=<path>, with
    the path that the same run has derived from the bucket and the run id,
    followed by a comma and the caller's metadata when that is set, and by
    nothing when it is None or empty. *)
Theorem metadata_flag_value (rt : runtime) (d d' : dict value) :
  _init_args rt d = (Ok tt, d') ->
  exists metadata timer path,
    dict_get "metadata" d = Some metadata /\
    dict_get "shutdown_timer_in_sec" d = Some timer /\
    dict_get "custom_sources_path" d' = Some (VStr path) /\
    dict_get "metadata_flag" d' =
      Some (VStr ("--metadata=shutdown-timer-in-sec=" ++ py_str (repr_dict rt) timer ++
                  ",custom-sources-path=" ++ path ++
                  (if truthy metadata then "," ++ py_str (repr_dict rt) metadata
                   else EmptyString))).
Proof.
  intros Hi. apply init_args_resolution in Hi. destruct Hi.
  destruct (set_bucket_paths_ok rt d1 d2 bucket_paths_set) as (b & r & _ & _ & Hd2).
  assert (Hp : dict_get "custom_sources_path" d9 =
               Some (VStr ("gs://" ++ replace "gs://" EmptyString b ++ "/" ++
                           py_str (repr_dict rt) r ++ "/sources"))).
  { back "custom_sources_path". rewrite Hd2, dict_get_set. reflexivity. }
  rewrite set_metadata_flag_eq, Hp in metadata_flag_set.
  destruct (dict_get "metadata" d9) as [m|] eqn:Em; [|discriminate].
  destruct (dict_get "shutdown_timer_in_sec" d9) as [t|] eqn:Et; [|discriminate].
  apply pair_equal_spec in metadata_flag_set. destruct metadata_flag_set as [_ <-].
  exists m, t. eexists. rewrite !dict_get_set. cbn [String.eqb Ascii.eqb Bool.eqb].
  repeat split.
  - rewrite <- Em. back "metadata". reflexivity.
  - rewrite <- Et. back "shutdown_timer_in_sec". reflexivity.
  - simpl. exact Hp.
Qed.

Lemma networked_resolution :
  _init_args sample_runtime networked_options = (Ok tt, networked_resolved).
Proof. vm_compute. reflexivity. Qed.

Lemma metadata_flag_value_witness :
  exists metadata timer path,
    dict_get "metadata" networked_options = Some metadata /\
    dict_get "shutdown_timer_in_sec" networked_options = Some timer /\
    dict_get "custom_sources_path" networked_resolved = Some (VStr path) /\
    dict_get "metadata_flag" networked_resolved =
      Some (VStr ("--metadata=shutdown-timer-in-sec=" ++
                  py_str (repr_dict sample_runtime) timer ++
                  ",custom-sources-path=" ++ path ++
                  (if truthy metadata
                   then "," ++ py_str (repr_dict sample_runtime) metadata
                   else EmptyString))).
Proof.
  exact (metadata_flag_value sample_runtime networked_options networked_resolved
           networked_resolution).
Defined.

(** X2.  When [_init_args] returns, the three flags written with a
    conditional expression are decided by the truth value of their option:
    no_external_ip_flag is --no-address or empty, accelerator_flag is
    --accelerator=<accelerator> --maintenance-policy terminate or empty,
    storage_location_flag is --storage-location=<storage_location> or
    empty. *)
Theorem conditional_flags_values (rt : runtime) (d d' : dict value) :
  _init_args rt d = (Ok tt, d') ->
  exists no_external_ip accelerator storage_location,
    dict_get "no_external_ip" d = Some no_external_ip /\
    dict_get "accelerator" d = Some accelerator /\
    dict_get "storage_location" d = Some storage_location /\
    dict_get "no_external_ip_flag" d' =
      Some (VStr (if truthy no_external_ip then "--no-address" else EmptyString)) /\
    dict_get "accelerator_flag" d' =
      Some (VStr (if truthy accelerator
                  then "--accelerator=" ++ py_str (repr_dict rt) accelerator ++
                       " --maintenance-policy terminate"
                  else EmptyString)) /\
    dict_get "storage_location_flag" d' =
      Some (VStr (if truthy storage_location
                  then "--storage-location=" ++ py_str (repr_dict rt) storage_location
                  else EmptyString)).
Proof.
  intros Hi. apply init_args_resolution in Hi. destruct Hi.
  pose proof no_external_ip_flag_set as H7.
  pose proof accelerator_flag_set as H8.
  pose proof storage_location_flag_set as H9.
  rewrite set_no_external_ip_flag_eq in H7.
  rewrite set_accelerator_flag_eq in H8.
  rewrite set_storage_location_flag_eq in H9.
  destruct (dict_get "no_external_ip" d6) as [ip|] eqn:E7; [|discriminate].
  destruct (dict_get "accelerator" d7) as [acc|] eqn:E8; [|discriminate].
  destruct (dict_get "storage_location" d8) as [loc|] eqn:E9; [|discriminate].
  apply pair_equal_spec in H7, H8, H9.
  destruct H7 as [_ H7], H8 as [_ H8], H9 as [_ H9].
  exists ip, acc, loc. repeat split.
  - rewrite <- E7. back "no_external_ip". reflexivity.
  - rewrite <- E8. back "accelerator". reflexivity.
  - rewrite <- E9. back "storage_location". reflexivity.
  - back "no_external_ip_flag". rewrite <- H7, dict_get_set. reflexivity.
  - back "accelerator_flag". rewrite <- H8, dict_get_set. reflexivity.
  - back "storage_location_flag". rewrite <- H9, dict_get_set. reflexivity.
Qed.

Lemma conditional_flags_values_witness :
  exists no_external_ip accelerator storage_location,
    dict_get "no_external_ip" networked_options = Some no_external_ip /\
    dict_get "accelerator" networked_options = Some accelerator /\
    dict_get "storage_location" networked_options = Some storage_location /\
    dict_get "no_external_ip_flag" networked_resolved =
      Some (VStr (if truthy no_external_ip then "--no-address" else EmptyString)) /\
    dict_get "accelerator_flag" networked_resolved =
      Some (VStr (if truthy accelerator
                  then "--accelerator=" ++ py_str (repr_dict sample_runtime) accelerator ++
                       " --maintenance-policy terminate"
                  else EmptyString)) /\
    dict_get "storage_location_flag" networked_resolved =
      Some (VStr (if truthy storage_location
                  then "--storage-location=" ++
                       py_str (repr_dict sample_runtime) storage_location
                  else EmptyString)).
Proof.
  exact (conditional_flags_values sample_runtime networked_options networked_resolved
           networked_resolution).
Defined.

(** X3.  With no subnetwork (None or empty) and a network, [_init_args]
    takes the elif branch: network_flag is --network=<network> and
    subnetwork_flag is the empty string. *)
Theorem network_without_subnetwork (rt : runtime) (d d' : dict value)
    (subnetwork network : value) :
  _init_args rt d = (Ok tt, d') ->
  dict_get "subnetwork" d = Some subnetwork -> truthy subnetwork = false ->
  dict_get "network" d = Some network -> truthy network = true ->
  dict_get "network_flag" d' =
    Some (VStr ("--network=" ++ py_str (repr_dict rt) network)) /\
  dict_get "subnetwork_flag" d' = Some (VStr EmptyString).
Proof.
  intros Hi Hs Hst Hn Hnt. apply init_args_resolution in Hi. destruct Hi.
  back "network_flag". back "subnetwork_flag".
  assert (Hs4 : dict_get "subnetwork" d4 = Some subnetwork).
  { back "subnetwork". exact Hs. }
  assert (Hn4 : dict_get "network" d4 = Some network).
  { back "network". exact Hn. }
  rewrite set_network_flags_eq, Hs4, Hst, Hn4, Hnt in network_flags_set.
  apply pair_equal_spec in network_flags_set. destruct network_flags_set as [_ <-].
  rewrite !dict_get_set. split; reflexivity.
Qed.

Lemma network_only_resolution :
  _init_args sample_runtime network_only_options = (Ok tt, network_only_resolved).
Proof. vm_compute. reflexivity. Qed.

Lemma network_without_subnetwork_witness :
  dict_get "network_flag" network_only_resolved = Some (VStr "--network=net") /\
  dict_get "subnetwork_flag" network_only_resolved = Some (VStr EmptyString).
Proof.
  exact (network_without_subnetwork sample_runtime network_only_options
           network_only_resolved VNone (VStr "net") network_only_resolution
           eq_refl eq_refl eq_refl eq_refl).
Defined.

(** X4.  A service account makes service_account_flag
    --service-account=<service_account>; and since the flag is written into
    the caller's mapping and a later call without a service account does not
    assign it, a second resolution of the same mapping with the service
    account taken back (None or empty) still carries the flag of the
    first. *)
Theorem service_account_flag_survives (rt rt' : runtime) (d d1 d2 : dict value)
    (service_account cleared : value) :
  _init_args rt d = (Ok tt, d1) ->
  dict_get "service_account" d = Some service_account ->
  truthy service_account = true ->
  truthy cleared = false ->
  _init_args rt' (dict_set "service_account" cleared d1) = (Ok tt, d2) ->
  dict_get "service_account_flag" d1 =
    Some (VStr ("--service-account=" ++ py_str (repr_dict rt) service_account)) /\
  dict_get "service_account_flag" d2 =
    Some (VStr ("--service-account=" ++ py_str (repr_dict rt) service_account)).
Proof.
  intros H1 Hs Hst Hc H2.
  assert (Hf : dict_get "service_account_flag" d1 =
               Some (VStr ("--service-account=" ++
                           py_str (repr_dict rt) service_account))).
  { apply init_args_resolution in H1. destruct H1.
    back "service_account_flag".
    assert (Hs5 : dict_get "service_account" d6 = Some service_account).
    { back "service_account". exact Hs. }
    rewrite set_service_account_flag_eq, Hs5, Hst in service_account_flag_set.
    apply pair_equal_spec in service_account_flag_set.
    destruct service_account_flag_set as [_ <-].
    rewrite dict_get_set. reflexivity. }
  split; [exact Hf|].
  apply init_args_resolution in H2. destruct H2.
  back "service_account_flag".
  assert (Hs5 : dict_get "service_account" d6 = Some cleared).
  { back "service_account". rewrite dict_get_set. reflexivity. }
  rewrite set_service_account_flag_eq, Hs5, Hc in service_account_flag_set.
  apply pair_equal_spec in service_account_flag_set.
  destruct service_account_flag_set as [_ <-].
  back "service_account_flag". rewrite dict_get_set. exact Hf.
Qed.

Lemma cleared_resolution :
  _init_args later_runtime cleared_options = (Ok tt, cleared_resolved).
Proof. vm_compute. reflexivity. Qed.

Lemma service_account_flag_survives_witness :
  dict_get "service_account" cleared_resolved = Some VNone /\
  dict_get "service_account_flag" cleared_resolved =
    Some (VStr "--service-account=default").
Proof.
  split; [reflexivity|].
  exact (proj2 (service_account_flag_survives sample_runtime later_runtime
                  networked_options networked_resolved cleared_resolved
                  (VStr "default") VNone networked_resolution eq_refl eq_refl eq_refl
                  cleared_resolution)).
Defined.

(** ** Options the resolver stumbles on *)

(** X5.  The default run id is formatted with [timestamp=...] next to the
    entries of the mapping: options that have no run_id but an entry named
    timestamp make [generate] raise a TypeError (a keyword given twice), and
    the mapping is left as it was. *)
Theorem timestamp_option_clashes (rt : runtime) (d : dict value) :
  dict_get "run_id" d = None ->
  dict_mem "timestamp" d = true ->
  generate rt d = (Raise (TypeError "got multiple values for keyword argument"), d).
Proof.
  intros Hr Ht. rewrite generate_eq. unfold _init_args.
  unfold dict_mem in Ht. destruct (dict_get "timestamp" d) eqn:E; [|discriminate].
  erewrite bind_raise_intro; [reflexivity|].
  rewrite set_run_id_eq, Hr, E. reflexivity.
Qed.

Lemma timestamp_option_clashes_witness :
  generate sample_runtime stamped_options =
  (Raise (TypeError "got multiple values for keyword argument"), stamped_options).
Proof. exact (timestamp_option_clashes sample_runtime stamped_options eq_refl eq_refl). Defined.

(** X6.  A bucket that is not a string (None, say) has no [replace]:
    [generate] raises AttributeError.  The exception comes after the run id
    has been settled, so a mapping that came without one is handed back with
    the default run id in it and nothing else added. *)
Theorem bucket_not_a_string (rt : runtime) (d : dict value) (gcs_bucket : value) :
  dict_get "gcs_bucket" d = Some gcs_bucket ->
  is_str (Some gcs_bucket) = false ->
  (dict_mem "run_id" d = true ->
   generate rt d = (Raise (AttributeError "replace"), d)) /\
  (forall image_name,
     dict_get "run_id" d = None -> dict_get "timestamp" d = None ->
     dict_get "image_name" d = Some image_name ->
     generate rt d =
       (Raise (AttributeError "replace"),
        dict_set "run_id"
          (VStr ("custom-image-" ++ py_str (repr_dict rt) image_name ++ "-" ++
                 strftime "%Y%m%d-%H%M%S" (now rt))) d)).
Proof.
  intros Hb Hn. split.
  - intros Hr. unfold dict_mem in Hr.
    destruct (dict_get "run_id" d) as [r|] eqn:Er; [|discriminate].
    rewrite generate_eq. unfold _init_args.
    erewrite bind_ok_intro by (rewrite set_run_id_eq, Er; reflexivity).
    erewrite bind_raise_intro; [reflexivity|].
    rewrite set_bucket_paths_eq, Hb. destruct gcs_bucket; try reflexivity. discriminate.
  - intros image_name Hr Ht Hi.
    rewrite generate_eq. unfold _init_args.
    erewrite bind_ok_intro by (rewrite set_run_id_eq, Hr, Ht, Hi; reflexivity).
    erewrite bind_raise_intro; [reflexivity|].
    rewrite set_bucket_paths_eq, dict_get_set. cbn [String.eqb Ascii.eqb Bool.eqb].
    rewrite Hb. destruct gcs_bucket; try reflexivity. discriminate.
Qed.

Lemma bucket_not_a_string_witness :
  generate sample_runtime bucketless_options =
  (Raise (AttributeError "replace"),
   dict_set "run_id" (VStr "custom-image-demo-20190102-030405") bucketless_options).
Proof.
  exact (proj2 (bucket_not_a_string sample_runtime bucketless_options VNone
                  eq_refl eq_refl) (VStr "demo") eq_refl eq_refl eq_refl).
Defined.

(** ** The default run id *)

Lemma digit_value (k : nat) : nat_of_ascii (digit k) - 48 = k mod 10.
Proof.
  unfold digit. pose proof (Nat.mod_upper_bound k 10 ltac:(discriminate)) as Hk.
  rewrite nat_ascii_embedding; lia.
Qed.

Lemma pad2_value (n : nat) : n < 100 -> digits_value 0 (pad2 n) = n.
Proof.
  intros Hn. unfold pad2. cbn [digits_value]. rewrite !digit_value.
  pose proof (Nat.div_mod_eq n 10) as H0.
  assert (H1 : n / 10 < 10) by (apply Nat.Div0.div_lt_upper_bound; exact Hn).
  rewrite (Nat.mod_small (n / 10) 10 H1). lia.
Qed.

Lemma pad4_value (n : nat) : n < 10 * 1000 -> digits_value 0 (pad4 n) = n.
Proof.
  intros Hn. unfold pad4, pad2. cbn [digits_value]. rewrite !digit_value.
  pose proof (Nat.div_mod_eq n 10) as H0.
  pose proof (Nat.div_mod_eq (n / 10) 10) as H1.
  pose proof (Nat.div_mod_eq (n / 10 / 10) 10) as H2.
  assert (E2 : n / 10 / 10 = n / 100) by (rewrite Nat.Div0.div_div; reflexivity).
  assert (E3 : n / 10 / 10 / 10 = n / 1000)
    by (rewrite !Nat.Div0.div_div; reflexivity).
  assert (H3 : n / 1000 < 10) by (apply Nat.Div0.div_lt_upper_bound; lia).
  rewrite (Nat.mod_small (n / 1000) 10 H3).
  rewrite E3 in H2. rewrite E2 in H1, H2. lia.
Qed.

(** The timestamp has fifteen characters and can be read back. *)
Lemma strftime_length (t : datetime) :
  String.length (strftime "%Y%m%d-%H%M%S" t) = 15.
Proof. reflexivity. Qed.

Lemma read_stamp_strftime (t : datetime) :
  datetime_ok t -> read_stamp (strftime "%Y%m%d-%H%M%S" t) = t.
Proof.
  intros (Hy & Hm & Hd & HH & HM & HS). destruct t as [y m d h mi s].
  cbn [year month day hour minute second] in *.
  rewrite strftime_stamp. cbn [year month day hour minute second].
  unfold read_stamp.
  change (substring 0 4 _) with (pad4 y).
  change (substring 4 2 _) with (pad2 m).
  change (substring 6 2 _) with (pad2 d).
  change (substring 9 2 _) with (pad2 h).
  change (substring 11 2 _) with (pad2 mi).
  change (substring 13 2 _) with (pad2 s).
  rewrite pad4_value by lia. rewrite !pad2_value by lia. reflexivity.
Qed.

Lemma append_inv_same_length (a b x y : string) :
  a ++ x = b ++ y -> String.length x = String.length y -> a = b /\ x = y.
Proof.
  revert b. induction a as [|c a IH]; intros b H Hl.
  - destruct b as [|c' b]; [now split|].
    simpl in H. rewrite H in Hl. simpl in Hl. rewrite length_append in Hl. lia.
  - destruct b as [|c' b].
    + simpl in H. rewrite <- H in Hl. simpl in Hl. rewrite length_append in Hl. lia.
    + simpl in H. injection H as -> H. destruct (IH b H Hl) as [-> ->]. now split.
Qed.

(** X7.  Two resolutions of options without a run id, for image names that
    are strings, give the same run id exactly when the image names are the
    same and the clocks show the same second: the default run id tells runs
    apart that start in different seconds, and only those. *)
Theorem default_run_ids_collide (rt1 rt2 : runtime) (d1 d2 d1' d2' : dict value)
    (name1 name2 : string) :
  datetime_ok (now rt1) -> datetime_ok (now rt2) ->
  dict_get "run_id" d1 = None -> dict_get "run_id" d2 = None ->
  dict_get "image_name" d1 = Some (VStr name1) ->
  dict_get "image_name" d2 = Some (VStr name2) ->
  _init_args rt1 d1 = (Ok tt, d1') -> _init_args rt2 d2 = (Ok tt, d2') ->
  (dict_get "run_id" d1' = dict_get "run_id" d2' <->
   name1 = name2 /\ now rt1 = now rt2).
Proof.
  intros Ht1 Ht2 Hr1 Hr2 Hn1 Hn2 H1 H2.
  destruct (resolved_paths rt1 d1 d1' H1) as (b1 & r1 & _ & Hr1' & Hid1 & _).
  destruct (resolved_paths rt2 d2 d2' H2) as (b2 & r2 & _ & Hr2' & Hid2 & _).
  rewrite Hr1 in Hid1. rewrite Hr2 in Hid2.
  destruct Hid1 as (v1 & Hv1 & ->). destruct Hid2 as (v2 & Hv2 & ->).
  rewrite Hn1 in Hv1. rewrite Hn2 in Hv2.
  injection Hv1 as <-. injection Hv2 as <-.
  rewrite Hr1', Hr2'. cbn [py_str].
  pose proof (strftime_length (now rt1)) as Hl1.
  pose proof (strftime_length (now rt2)) as Hl2.
  pose proof (read_stamp_strftime (now rt1) Ht1) as Hb1.
  pose proof (read_stamp_strftime (now rt2) Ht2) as Hb2.
  remember (strftime "%Y%m%d-%H%M%S" (now rt1)) as s1 eqn:E1.
  remember (strftime "%Y%m%d-%H%M%S" (now rt2)) as s2 eqn:E2.
  split.
  - intros H. injection H as H.
    apply append_inv_same_length in H.
    + destruct H as [-> H]. split; [reflexivity|].
      injection H as ->. now rewrite <- Hb1, <- Hb2.
    + cbn [append String.length]. now rewrite Hl1, Hl2.
  - intros [-> Ht]. rewrite E1, E2, Ht. reflexivity.
Qed.

Lemma demo_resolution_later :
  _init_args later_runtime demo_options = (Ok tt, demo_resolved_later).
Proof. vm_compute. reflexivity. Qed.

Lemma demo_resolution :
  _init_args sample_runtime demo_options = (Ok tt, demo_resolved).
Proof. vm_compute. reflexivity. Qed.

Lemma default_run_ids_collide_witness :
  dict_get "run_id" demo_resolved = dict_get "run_id" demo_resolved_later <->
  "demo" = "demo" /\ now sample_runtime = now later_runtime.
Proof.
  apply (default_run_ids_collide sample_runtime later_runtime demo_options demo_options
           demo_resolved demo_resolved_later "demo" "demo").
  - unfold datetime_ok. simpl. lia.
  - unfold datetime_ok. simpl. lia.
  - reflexivity.
  - reflexivity.
  - reflexivity.
  - reflexivity.
  - exact demo_resolution.
  - exact demo_resolution_later.
Defined.

(** ** The options that give a script *)

Lemma str_values_some (d : dict value) :
  (exists vals, str_values d = Some vals) <->
  forallb (fun kv => is_str (Some (snd kv))) d = true.
Proof.
  induction d as [|[k v] d IH]; simpl.
  - split; [reflexivity | now eexists].
  - destruct v; simpl; try (split; [intros [vals H]; discriminate | discriminate]).
    rewrite <- IH. destruct (str_values d) as [l|]; simpl.
    + split; intros _; now eexists.
    + split; intros [vals H]; discriminate.
Qed.

Lemma NoDup_keys_dict_set {V : Type} (k : string) (v : V) (d : dict V) :
  NoDup (keys d) -> NoDup (keys (dict_set k v d)).
Proof.
  induction d as [|[k0 v0] d IH]; simpl.
  - intros _. constructor; [intros [] | constructor].
  - intros H. inversion H as [|? ? Hn Hd]; subst.
    destruct (String.eqb_spec k k0) as [->|n]; simpl.
    + now constructor.
    + constructor; [|now apply IH].
      intros Hin. apply Hn. clear - Hin n.
      induction d as [|[k1 v1] d IH]; simpl in *.
      * destruct Hin as [E|[]]. now elim n.
      * destruct (String.eqb k k1); simpl in Hin; [exact Hin|].
        destruct Hin as [E|Hin]; [now left | right; now apply IH].
Qed.

Lemma forallb_agree {A : Type} (f g : A -> bool) (l : list A) :
  (forall a, In a l -> f a = g a) -> forallb f l = forallb g l.
Proof.
  induction l as [|a l IH]; intros H; simpl; [reflexivity|].
  rewrite (H a (or_introl eq_refl)), IH; [reflexivity|].
  intros b Hb. apply H. now right.
Qed.

Lemma forallb_dict_set (g : string * value -> bool) (k : string) (v : value)
    (d : dict value) :
  NoDup (keys d) -> g (k, v) = true ->
  forallb g (dict_set k v d) =
  forallb (fun kv => String.eqb (fst kv) k || g kv) d.
Proof.
  intros Hnd Hg. induction d as [|[k0 v0] d IH]; simpl.
  - now rewrite Hg.
  - inversion Hnd as [|? ? Hn Hd]; subst.
    destruct (String.eqb_spec k k0) as [->|n]; simpl.
    + rewrite String.eqb_refl. simpl.
      assert (Hg0 : g (k0, v) = true) by exact Hg. rewrite Hg0. simpl.
      apply forallb_agree. intros [k1 v1] Hin. simpl.
      destruct (String.eqb_spec k1 k0) as [->|n1]; [|reflexivity].
      elim Hn. apply in_map_iff. now exists (k0, v1).
    + apply not_eq_sym, String.eqb_neq in n. rewrite n. simpl.
      now rewrite IH.
Qed.

Lemma str_values_update (items : list (string * string)) (base : dict value) :
  NoDup (keys base) ->
  forallb (fun kv => is_str (Some (snd kv)))
    (dict_update base (map (fun kv => (fst kv, VStr (snd kv))) items)) =
  forallb (fun kv => is_str (Some (snd kv)) || dict_mem (fst kv) items) base.
Proof.
  unfold dict_update. revert base.
  induction items as [|[k s] items IH]; intros base Hnd; simpl.
  - apply forallb_agree. intros kv _. now rewrite orb_false_r.
  - rewrite IH by now apply NoDup_keys_dict_set.
    rewrite forallb_dict_set by (assumption || reflexivity).
    apply forallb_agree. intros [k0 v0] _. unfold dict_mem. simpl.
    destruct (String.eqb k0 k); simpl.
    + now rewrite orb_true_r.
    + reflexivity.
Qed.

(** The values of the sources are strings exactly for such options. *)
Lemma sources_are_strings_spec (cs es : value) :
  sources_are_strings cs es = true <->
  exists all vals, all_sources_of cs es = Ok all /\ str_values all = Some vals.
Proof.
  assert (Hbase : NoDup (keys [("run.sh", VStr "startup_script/run.sh");
                               ("init_actions.sh", cs)])).
  { simpl. repeat constructor; simpl; intuition discriminate. }
  unfold sources_are_strings, all_sources_of, method_update.
  destruct es as [| | |s|items].
  - split; [discriminate | intros (all & vals & H & _); discriminate].
  - split; [discriminate | intros (all & vals & H & _); discriminate].
  - split; [discriminate | intros (all & vals & H & _); discriminate].
  - destruct s as [|c s].
    + split.
      * intros H. destruct cs; try discriminate.
        eexists _, _. split; reflexivity.
      * intros (all & vals & H & Hv). apply Ok_inj in H. subst all.
        destruct cs; try discriminate. reflexivity.
    + split; [discriminate | intros (all & vals & H & _); discriminate].
  - pose proof (str_values_update items _ Hbase) as Hu.
    replace (forallb _ [("run.sh", VStr "startup_script/run.sh"); ("init_actions.sh", cs)])
      with (is_str (Some cs) || dict_mem "init_actions.sh" items) in Hu
      by (simpl; now rewrite andb_true_r).
    split.
    + intros H. eexists. 
      assert (Hs : exists vals, str_values
                (dict_update [("run.sh", VStr "startup_script/run.sh");
                              ("init_actions.sh", cs)]
                   (map (fun kv => (fst kv, VStr (snd kv))) items)) = Some vals).
      { apply str_values_some. rewrite Hu. exact H. }
      destruct Hs as [vals Hs]. exists vals. split; [reflexivity | exact Hs].
    + intros (all & vals & H & Hv). apply Ok_inj in H. subst all.
      rewrite <- Hu. apply str_values_some. now exists vals.
Qed.

(** A block that has returned has found the entry [k] it reads; [present]
    gives the entry in the caller's mapping. *)
Ltac present H eqn k :=
  let E := fresh "E" in
  let v := fresh "v" in
  pose proof H as E; rewrite eqn in E;
  repeat match goal with
  | L : dict_get ?k' ?di = Some _ |- _ => rewrite L in E
  end;
  match type of E with
  | context [match dict_get k ?di with _ => _ end] =>
      destruct (dict_get k di) as [v|] eqn:?; [clear E | discriminate E]
  end.

Lemma resolves_spec (rt : runtime) (d : dict value) :
  resolves d = true <-> exists d', _init_args rt d = (Ok tt, d').
Proof.
  split.
  - unfold resolves. rewrite !andb_true_iff. cbn [forallb]. rewrite !andb_true_iff.
    intros (((((Hr & Hb) & Hsrc) & H1) & Hn) & H3 & H4 & H5 & H6 & H7 & H8 & _).
    apply dict_mem_true in H1, H3, H4, H5, H6, H7, H8.
    destruct H1 as [v1 H1], H3 as [v3 H3], H4 as [v4 H4],
      H5 as [v5 H5], H6 as [v6 H6], H7 as [v7 H7], H8 as [v8 H8].
    rewrite H1 in Hn. cbn [is_set] in Hn. unfold dict_mem in Hn.
    destruct (dict_get "gcs_bucket" d) as [[]|] eqn:Eb; try discriminate.
    destruct (dict_get "customization_script" d) as [cs|] eqn:Ec; [|discriminate].
    destruct (dict_get "extra_sources" d) as [es|] eqn:Ee; [|discriminate].
    apply sources_are_strings_spec in Hsrc. destruct Hsrc as (all & vals & Hall & Hv).
    assert (Hrun : exists r d1, set_run_id rt d = (Ok tt, d1) /\
                     dict_get "run_id" d1 = Some r /\
                     forall k, String.eqb k "run_id" = false ->
                               dict_get k d1 = dict_get k d).
    { rewrite set_run_id_eq. unfold dict_mem in Hr.
      destruct (dict_get "run_id" d) as [r|] eqn:Er.
      - exists r, d. auto.
      - simpl in Hr. destruct (dict_get "image_name" d); [|discriminate].
        destruct (dict_get "timestamp" d); [discriminate|].
        eexists _, _. split; [reflexivity|]. split.
        + rewrite dict_get_set. simpl. reflexivity.
        + intros k Hk. rewrite dict_get_set. now rewrite Hk. }
    destruct Hrun as (r & d1 & Hrun & Hr1 & Hk1).
    rewrite <- (Hk1 "gcs_bucket" eq_refl) in Eb.
    rewrite <- (Hk1 "customization_script" eq_refl) in Ec.
    rewrite <- (Hk1 "extra_sources" eq_refl) in Ee.
    rewrite <- (Hk1 "subnetwork" eq_refl) in H1.
    rewrite <- (Hk1 "network" eq_refl) in Hn.
    rewrite <- (Hk1 "service_account" eq_refl) in H3.
    rewrite <- (Hk1 "no_external_ip" eq_refl) in H4.
    rewrite <- (Hk1 "accelerator" eq_refl) in H5.
    rewrite <- (Hk1 "storage_location" eq_refl) in H6.
    rewrite <- (Hk1 "metadata" eq_refl) in H7.
    rewrite <- (Hk1 "shutdown_timer_in_sec" eq_refl) in H8.
    unfold _init_args, bind. rewrite Hrun.
    run_block. run_block. rewrite Hall.
    rewrite sources_map_k_of_eq, sources_map_v_of_eq, Hv. simpl.
    run_block. run_block.
    destruct (truthy v1); simpl.
    + run_block. destruct (truthy v3); simpl; repeat run_block; eexists; reflexivity.
    + simpl in Hn. destruct (dict_get "network" d1) as [v2|] eqn:H2; [|discriminate].
      destruct (truthy v2); simpl; run_block;
        destruct (truthy v3); simpl; repeat run_block; eexists; reflexivity.
  - intros [d' Hi].
    destruct (resolved_paths rt d d' Hi) as (b & r & Hb & _).
    destruct (resolved_sources rt d d' Hi) as (cs & es & all & vals & Hc & He & Ha & Hv & _).
    apply init_args_resolution in Hi. destruct Hi.
    unfold resolves. rewrite !andb_true_iff. cbn [forallb]. rewrite !andb_true_iff.
    assert (Hs : exists s, dict_get "subnetwork" d4 = Some s /\
                   (truthy s = true \/ exists n, dict_get "network" d4 = Some n)).
    { rewrite set_network_flags_eq in network_flags_set.
      destruct (dict_get "subnetwork" d4) as [s|]; [|discriminate].
      exists s. split; [reflexivity|].
      destruct (truthy s); [now left | right].
      destruct (dict_get "network" d4) as [n|]; [now exists n | discriminate]. }
    destruct Hs as (s & Hs & Hn).
    present service_account_flag_set (set_service_account_flag_eq rt) "service_account".
    present no_external_ip_flag_set set_no_external_ip_flag_eq "no_external_ip".
    present accelerator_flag_set (set_accelerator_flag_eq rt) "accelerator".
    present storage_location_flag_set (set_storage_location_flag_eq rt) "storage_location".
    present metadata_flag_set (set_metadata_flag_eq rt) "metadata".
    present metadata_flag_set (set_metadata_flag_eq rt) "shutdown_timer_in_sec".
    repeat match goal with
    | H : dict_get ?k ?di = Some _ |- _ =>
        lazymatch di with
        | d => fail
        | _ => let E := fresh in
               assert (E : dict_get k di = dict_get k d) by (back k; reflexivity);
               rewrite E in H; clear E
        end
    end.
    repeat match goal with
    | H : exists n, dict_get ?k ?di = Some n |- _ =>
        let E := fresh in
        assert (E : dict_get k di = dict_get k d) by (back k; reflexivity);
        rewrite E in H; clear E
    | H : _ \/ exists n, dict_get ?k ?di = Some n |- _ =>
        let E := fresh in
        assert (E : dict_get k di = dict_get k d) by (back k; reflexivity);
        rewrite E in H; clear E
    end.
    unfold dict_mem.
    repeat match goal with
    | H : dict_get ?k d = Some _ |- _ => rewrite H; clear H
    end.
    cbn [is_str is_set].
    repeat split.
    + pose proof (set_run_id_ok _ _ _ run_id_set) as H1.
      destruct (dict_get "run_id" d); [reflexivity|].
      destruct H1 as (Ht & image & Hv' & _). unfold dict_mem in Ht.
      rewrite Hv'. now destruct (dict_get "timestamp" d).
    + apply sources_are_strings_spec. now exists all, vals.
    + destruct Hn as [->|[n ->]]; [reflexivity | apply orb_true_r].
Qed.

Lemma template_fields_known :
  forallb (fun n => existsb (String.eqb n)
                      (option_fields ++ assigned_fields ++ conditional_fields))
    template_fields = true.
Proof. vm_compute. reflexivity. Qed.

Lemma template_field_cases (n : string) :
  In n template_fields ->
  In n option_fields \/ In n assigned_fields \/ In n conditional_fields.
Proof.
  intros Hin. pose proof template_fields_known as H.
  rewrite forallb_forall in H. specialize (H n Hin).
  apply existsb_exists in H. destruct H as (x & Hx & E).
  apply String.eqb_eq in E. subst x. rewrite !in_app_iff in Hx. exact Hx.
Qed.

(** A block that has returned has assigned [k]. *)
Ltac assigned H eqn k :=
  let E := fresh "E" in
  pose proof H as E; rewrite eqn in E;
  repeat match type of E with
  | context [match dict_get ?k' ?di with _ => _ end] =>
      destruct (dict_get k' di); [| discriminate E]
  end;
  apply pair_equal_spec in E; destruct E as [_ E];
  unfold dict_mem; back k; rewrite <- E, !dict_get_set; reflexivity.

Lemma assigned_fields_present (rt : runtime) (d d' : dict value) :
  _init_args rt d = (Ok tt, d') ->
  forall k, In k assigned_fields -> dict_mem k d' = true.
Proof.
  intros Hi k Hk.
  destruct (resolved_paths rt d d' Hi) as (b & r & _ & Hr & _ & Hb & Hp & Hl & Hg).
  destruct (resolved_sources rt d d' Hi) as (cs & es & all & vals & _ & _ & _ & _ & Hsk & Hsv).
  apply init_args_resolution in Hi. destruct Hi.
  unfold assigned_fields in Hk. simpl in Hk.
  repeat (destruct Hk as [<-|Hk];
          [first [ unfold dict_mem;
                   match goal with
                   | H : dict_get ?k d' = Some _ |- context [dict_get ?k d'] =>
                       rewrite H; reflexivity
                   end
                 | assigned no_external_ip_flag_set set_no_external_ip_flag_eq
                     "no_external_ip_flag"
                 | assigned accelerator_flag_set (set_accelerator_flag_eq rt)
                     "accelerator_flag"
                 | assigned storage_location_flag_set (set_storage_location_flag_eq rt)
                     "storage_location_flag"
                 | assigned metadata_flag_set (set_metadata_flag_eq rt) "metadata_flag" ]
          |]).
  destruct Hk.
Qed.

(** The two network flags and the service-account flag are in the resolved
    mapping when the run has assigned them or the caller had put them. *)
Lemma network_flags_present (rt : runtime) (d d' : dict value) :
  _init_args rt d = (Ok tt, d') ->
  dict_mem "network_flag" d' && dict_mem "subnetwork_flag" d' =
  is_set (dict_get "subnetwork" d) || is_set (dict_get "network" d)
  || (dict_mem "network_flag" d && dict_mem "subnetwork_flag" d).
Proof.
  intros Hi. apply init_args_resolution in Hi. destruct Hi.
  unfold dict_mem. back "network_flag". back "subnetwork_flag".
  assert (Es : dict_get "subnetwork" d4 = dict_get "subnetwork" d)
    by (back "subnetwork"; reflexivity).
  assert (En : dict_get "network" d4 = dict_get "network" d)
    by (back "network"; reflexivity).
  rewrite set_network_flags_eq, Es, En in network_flags_set.
  destruct (dict_get "subnetwork" d) as [s|]; [|discriminate].
  cbn [is_set]. destruct (truthy s).
  - apply pair_equal_spec in network_flags_set. destruct network_flags_set as [_ <-].
    rewrite !dict_get_set. reflexivity.
  - destruct (dict_get "network" d) as [n|]; [|discriminate].
    cbn [is_set]. destruct (truthy n).
    + apply pair_equal_spec in network_flags_set. destruct network_flags_set as [_ <-].
      rewrite !dict_get_set. reflexivity.
    + apply pair_equal_spec in network_flags_set. destruct network_flags_set as [_ <-].
      back "network_flag". back "subnetwork_flag". reflexivity.
Qed.

Lemma service_account_flag_present (rt : runtime) (d d' : dict value) :
  _init_args rt d = (Ok tt, d') ->
  dict_mem "service_account_flag" d' =
  is_set (dict_get "service_account" d) || dict_mem "service_account_flag" d.
Proof.
  intros Hi. apply init_args_resolution in Hi. destruct Hi.
  unfold dict_mem. back "service_account_flag".
  assert (Es : dict_get "service_account" d5 = dict_get "service_account" d)
    by (back "service_account"; reflexivity).
  rewrite set_service_account_flag_eq, Es in service_account_flag_set.
  destruct (dict_get "service_account" d) as [s|]; [|discriminate].
  cbn [is_set]. destruct (truthy s).
  - apply pair_equal_spec in service_account_flag_set.
    destruct service_account_flag_set as [_ <-].
    rewrite !dict_get_set. reflexivity.
  - apply pair_equal_spec in service_account_flag_set.
    destruct service_account_flag_set as [_ <-].
    back "service_account_flag". reflexivity.
Qed.

Lemma option_fields_kept (rt : runtime) (d d' : dict value) (r : outcome unit) :
  _init_args rt d = (r, d') ->
  forallb (fun k => dict_mem k d') option_fields =
  forallb (fun k => dict_mem k d) option_fields.
Proof.
  intros Hi. apply forallb_agree. intros k Hk. unfold dict_mem.
  rewrite (init_args_keeps rt d d' r k Hi); [reflexivity|].
  unfold option_fields in Hk. simpl in Hk.
  repeat (destruct Hk as [<-|Hk]; [reflexivity|]). destruct Hk.
Qed.

(** X8.  [generate] returns a script for exactly these options: a run id, or
    no entry named timestamp; a bucket that is a string; sources whose values
    are all strings; an entry for every option that is read and for every
    option the template names; and a subnetwork or a network, and a service
    account, that are set, unless the mapping already holds the flags that
    are only written for them.  For all other options it raises. *)
Theorem generate_returns_iff (rt : runtime) (d : dict value) :
  gives_script d = true <-> exists script d', generate rt d = (Ok script, d').
Proof.
  unfold gives_script. fold option_fields. split.
  - rewrite !andb_true_iff. intros (((Hr & Ho) & Hn) & Hs).
    apply (resolves_spec rt) in Hr. destruct Hr as [d' Hi].
    rewrite generate_eq, Hi.
    assert (Hm : first_missing template_fields d' = None).
    { apply first_missing_none. intros n Hin.
      destruct (template_field_cases n Hin) as [H|[H|H]].
      - rewrite <- (option_fields_kept rt d d' _ Hi) in Ho.
        rewrite forallb_forall in Ho. now apply Ho.
      - now apply (assigned_fields_present rt d d' Hi).
      - rewrite <- (network_flags_present rt d d' Hi) in Hn.
        rewrite <- (service_account_flag_present rt d d' Hi) in Hs.
        apply andb_true_iff in Hn. destruct Hn as [Hn1 Hn2].
        unfold conditional_fields in H. simpl in H.
        destruct H as [<-|[<-|[<-|[]]]]; assumption. }
    rewrite Hm. now eexists _, _.
  - intros (script & d' & Hg). apply generate_ok_inv in Hg.
    destruct Hg as (Hi & Hm & _).
    pose proof (proj1 (first_missing_none _ _) Hm) as Hall.
    rewrite !andb_true_iff. repeat split.
    + apply (resolves_spec rt). now exists d'.
    + rewrite <- (option_fields_kept rt d d' _ Hi).
      apply forallb_forall. intros k Hk. apply Hall, in_names.
      unfold option_fields in Hk. simpl in Hk.
      repeat (destruct Hk as [<-|Hk]; [reflexivity|]). destruct Hk.
    + rewrite <- (network_flags_present rt d d' Hi).
      rewrite (Hall "network_flag"), (Hall "subnetwork_flag");
        [reflexivity | apply in_names; reflexivity | apply in_names; reflexivity].
    + rewrite <- (service_account_flag_present rt d d' Hi).
      apply Hall, in_names. reflexivity.
Qed.

Lemma generate_returns_iff_witness :
  exists script d', generate sample_runtime replaced_script_options = (Ok script, d').
Proof.
  apply (proj1 (generate_returns_iff sample_runtime replaced_script_options)).
  vm_compute. reflexivity.
Defined.

(** ** Entries the generator does not know *)

Lemma agree_except_sym (f : string) (a b : dict value) :
  agree_except f a b -> agree_except f b a.
Proof. intros H k Hk. symmetry. now apply H. Qed.

Lemma render_agree repr (ps : list piece) (a b : dict value) :
  (forall n, In n (fields ps) -> dict_get n a = dict_get n b) ->
  render repr ps a = render repr ps b.
Proof.
  induction ps as [|[c|name] ps IH]; intros H; cbn [render fields] in *.
  - reflexivity.
  - now rewrite IH.
  - rewrite (H name (or_introl eq_refl)), IH; [reflexivity|].
    intros n Hn. apply H. now right.
Qed.

Lemma template_fields_among_known :
  forallb (fun n => existsb (String.eqb n) known_keys) template_fields = true.
Proof. vm_compute. reflexivity. Qed.

(** A block, given as its equation, on two mappings that differ at most in
    an entry whose name is none of the known ones. *)
Ltac unread_block eqn Hne :=
  let a := fresh "a" in let b := fresh "b" in let a' := fresh "a'" in
  let Hag := fresh "Hag" in let Hrun := fresh "Hrun" in
  intros a b a' Hag Hrun;
  rewrite eqn in Hrun; rewrite eqn; cbv zeta in *;
  repeat match goal with
  | |- context [dict_get ?k b] =>
      rewrite <- (Hag k (Hne k ltac:(unfold known_keys, derived_keys; simpl; tauto)))
  end;
  repeat match type of Hrun with
  | context [match dict_get ?k ?d with _ => _ end] =>
      destruct (dict_get k d) eqn:?; try discriminate Hrun
  | context [match all_sources_of ?x ?y with _ => _ end] =>
      destruct (all_sources_of x y) eqn:?; try discriminate Hrun
  | context [match sources_map_k_of ?x ?y with _ => _ end] =>
      destruct (sources_map_k_of x y) eqn:?; try discriminate Hrun
  | context [match sources_map_v_of ?x ?y with _ => _ end] =>
      destruct (sources_map_v_of x y) eqn:?; try discriminate Hrun
  | context [if truthy ?v then _ else _] =>
      destruct (truthy v) eqn:?; try discriminate Hrun
  | context [match ?v with VNone => _ | _ => _ end] =>
      is_var v; destruct v; try discriminate Hrun
  end;
  apply pair_equal_spec in Hrun; destruct Hrun as [_ <-];
  eexists; (split; [reflexivity|]);
  repeat apply agree_except_set; exact Hag.

Section Unknown.

Variable rt : runtime.
Variable f : string.
Hypothesis Hne : forall k, In k known_keys -> String.eqb k f = false.

Lemma unread_set_run_id : blind_to f (set_run_id rt).
Proof. unread_block (set_run_id_eq rt) Hne. Qed.

Lemma unread_set_bucket_paths : blind_to f (set_bucket_paths rt).
Proof. unread_block (set_bucket_paths_eq rt) Hne. Qed.

Lemma unread_set_sources_map : blind_to f (set_sources_map rt).
Proof. unread_block (set_sources_map_eq rt) Hne. Qed.

Lemma unread_set_log_dirs : blind_to f (set_log_dirs rt).
Proof. unread_block (set_log_dirs_eq rt) Hne. Qed.

Lemma unread_set_network_flags : blind_to f (set_network_flags rt).
Proof. unread_block (set_network_flags_eq rt) Hne. Qed.

Lemma unread_set_service_account_flag : blind_to f (set_service_account_flag rt).
Proof. unread_block (set_service_account_flag_eq rt) Hne. Qed.

Lemma unread_set_no_external_ip_flag : blind_to f set_no_external_ip_flag.
Proof. unread_block set_no_external_ip_flag_eq Hne. Qed.

Lemma unread_set_accelerator_flag : blind_to f (set_accelerator_flag rt).
Proof. unread_block (set_accelerator_flag_eq rt) Hne. Qed.

Lemma unread_set_storage_location_flag : blind_to f (set_storage_location_flag rt).
Proof. unread_block (set_storage_location_flag_eq rt) Hne. Qed.

Lemma unread_set_metadata_flag : blind_to f (set_metadata_flag rt).
Proof. unread_block (set_metadata_flag_eq rt) Hne. Qed.

Lemma unread_init_args : blind_to f (_init_args rt).
Proof.
  unfold _init_args.
  apply blind_to_bind; [apply unread_set_run_id|].
  apply blind_to_bind; [apply unread_set_bucket_paths|].
  apply blind_to_bind; [apply unread_set_sources_map|].
  apply blind_to_bind; [apply unread_set_log_dirs|].
  apply blind_to_bind; [apply unread_set_network_flags|].
  apply blind_to_bind; [apply unread_set_service_account_flag|].
  apply blind_to_bind; [apply unread_set_no_external_ip_flag|].
  apply blind_to_bind; [apply unread_set_accelerator_flag|].
  apply blind_to_bind; [apply unread_set_storage_location_flag|].
  apply unread_set_metadata_flag.
Qed.

Lemma unread_template_field (n : string) :
  In n template_fields -> String.eqb n f = false.
Proof.
  intros Hin. apply Hne. pose proof template_fields_among_known as H.
  rewrite forallb_forall in H. now apply in_names, H.
Qed.

Lemma unread_generate (a b a' : dict value) (script : string) :
  agree_except f a b -> generate rt a = (Ok script, a') ->
  exists b', generate rt b = (Ok script, b').
Proof.
  intros Hag Hg. apply generate_ok_inv in Hg. destruct Hg as (Hi & Hm & Hs).
  destruct (unread_init_args a b a' Hag Hi) as (b' & Hi' & Hag').
  exists b'. rewrite generate_eq, Hi'.
  assert (Hm' : first_missing template_fields b' = None).
  { apply first_missing_none. intros n Hin. unfold dict_mem.
    rewrite <- (Hag' n (unread_template_field n Hin)).
    exact (proj1 (first_missing_none _ _) Hm n Hin). }
  rewrite Hm', Hs. apply f_equal2; [|reflexivity]. apply f_equal.
  apply render_agree. intros n Hin. symmetry. apply Hag', unread_template_field.
  now rewrite <- template_fields_eq.
Qed.

End Unknown.

(** X9.  An entry under a name that is neither an option, nor a key
    [_init_args] assigns, nor timestamp, is not looked at: with it or
    without it, [generate] returns the same script, or none. *)
Theorem unknown_entry_ignored (rt : runtime) (d : dict value) (f : string)
    (v : value) (script : string) :
  existsb (String.eqb f) known_keys = false ->
  (exists d', generate rt d = (Ok script, d')) <->
  (exists d', generate rt (dict_set f v d) = (Ok script, d')).
Proof.
  intros Hf.
  assert (Hne : forall k, In k known_keys -> String.eqb k f = false).
  { intros k Hk. destruct (String.eqb_spec k f) as [->|]; [|reflexivity].
    rewrite <- Hf. symmetry. apply existsb_exists. exists f.
    split; [exact Hk | apply String.eqb_refl]. }
  split; intros [d' Hg].
  - apply (unread_generate rt f Hne d (dict_set f v d) d' script); [|exact Hg].
    apply agree_except_sym, agree_except_given.
  - apply (unread_generate rt f Hne (dict_set f v d) d d' script); [|exact Hg].
    apply agree_except_given.
Qed.

Lemma unknown_entry_ignored_witness :
  (exists d', generate sample_runtime networked_options = (Ok networked_script, d')) <->
  (exists d', generate sample_runtime
                (dict_set "labels" (VStr "team=data") networked_options) =
              (Ok networked_script, d')).
Proof.
  exact (unknown_entry_ignored sample_runtime networked_options "labels"
           (VStr "team=data") networked_script eq_refl).
Defined.

(** ** The head of the script *)

Lemma render_literal_pieces repr (s : string) (kw : dict value) :
  render repr (literal_pieces s) kw = s.
Proof.
  unfold literal_pieces. induction s as [|c s IH]; simpl; [reflexivity|].
  now rewrite IH.
Qed.

Lemma template_header :
  firstn (String.length script_header) _template_pieces = literal_pieces script_header.
Proof. vm_compute. reflexivity. Qed.

(** X10.  Every script [generate] returns starts with an empty line: the
    template opens with a newline, so the line #!/usr/bin/env bash is the
    second line of the text and not its first two bytes.  The first command
    is set -euxo pipefail. *)
Theorem script_starts_with_empty_line (rt : runtime) (d d' : dict value)
    (script : string) :
  generate rt d = (Ok script, d') ->
  exists rest, script = script_header ++ rest.
Proof.
  intros Hg. apply generate_ok_inv in Hg. destruct Hg as (_ & _ & ->).
  rewrite <- (firstn_skipn (String.length script_header) _template_pieces).
  rewrite render_app, template_header, render_literal_pieces.
  now eexists.
Qed.

Lemma script_starts_with_empty_line_witness :
  exists rest, networked_script = script_header ++ rest.
Proof.
  exact (script_starts_with_empty_line sample_runtime networked_options
           networked_resolved networked_script networked_generated).
Defined.

(** * Further properties of the generated script *)

(** ** A run of [main], step by step *)

Lemma later_world_record (e : Script.event) (w : Script.world) :
  Script.record e w = later_world false false false None [e] w.
Proof. now destruct w. Qed.

Lemma later_world_twice (a b c a' b' c' : bool) (l l' : option string)
    (ev ev' : list Script.event) (w : Script.world) :
  later_world a' b' c' l' ev' (later_world a b c l ev w) =
  later_world (a' || a) (b' || b) (c' || c)
    (match l' with Some t => Some t | None => l end) (ev ++ ev') w.
Proof.
  destruct w. unfold later_world. simpl.
  rewrite !orb_assoc, app_assoc. now destruct l', l.
Qed.





Lemma wait_for_shutdown_eq env (w : Script.world) :
  Script.wait_for_shutdown env w =
  (Script.Next tt,
   later_world false false false (Some (captured_log env))
     [Script.Run Script.TailSerialPortOutput] w).
Proof. now destruct w. Qed.

Lemma check_result_later (a b c : bool) (log : string) (ev : list Script.event)
    (w : Script.world) :
  Script.check_result (later_world a b c (Some log) ev w) =
  if Script.has_substring "BuildFailed:" log then
    (Script.Exit 1,
     later_world a b c (Some log)
       (ev ++ [Script.Echo "Checking customization script result.";
               Script.Echo "Customization script failed."]) w)
  else if Script.has_substring "BuildSucceeded:" log then
    (Script.Next tt,
     later_world a b c (Some log)
       (ev ++ [Script.Echo "Checking customization script result.";
               Script.Echo "Customization script succeeded."]) w)
  else
    (Script.Exit 1,
     later_world a b c (Some log)
       (ev ++ [Script.Echo "Checking customization script result.";
               Script.Echo "Unable to determine the customization script result."]) w).
Proof.
  rewrite (check_result_eq _ log) by reflexivity. cbv zeta.
  rewrite !later_world_record, !later_world_twice.
  rewrite ?orb_false_l, <- ?app_assoc. cbn [app].
  destruct (Script.has_substring "BuildFailed:" log); [reflexivity|].
  destruct (Script.has_substring "BuildSucceeded:" log); reflexivity.
Qed.



(** ** Whole runs of the script *)
















(** ** The lines the result is read from *)

Lemma concat_empty_cons (x : string) (xs : list string) :
  String.concat EmptyString (x :: xs) = x ++ String.concat EmptyString xs.
Proof. destruct xs; simpl; [now rewrite append_nil_r | reflexivity]. Qed.

Lemma split_lines_no_newline (s l : string) :
  In l (Script.split_lines s) -> has_char (ascii_of_nat 10) l = false.
Proof.
  revert l. induction s as [|c s IH]; intros l; cbn [Script.split_lines].
  - intros [<-|[]]. reflexivity.
  - destruct (Ascii.eqb c (ascii_of_nat 10)) eqn:Ec.
    + intros [<-|Hin]; [reflexivity | now apply IH].
    + destruct (split_lines_cons s) as (l0 & ls & Hs). rewrite Hs in *.
      intros [<-|Hin].
      * cbn [has_char]. rewrite Ascii.eqb_sym, Ec. apply IH. now left.
      * apply IH. now right.
Qed.

Lemma split_lines_line (l rest : string) :
  has_char (ascii_of_nat 10) l = false ->
  Script.split_lines (l ++ nl ++ rest) = l :: Script.split_lines rest.
Proof.
  induction l as [|c l IH]; intros Hl.
  - reflexivity.
  - cbn [has_char] in Hl. apply orb_false_iff in Hl. destruct Hl as [Hc Hl].
    cbn [append Script.split_lines]. rewrite Ascii.eqb_sym, Hc.
    now rewrite (IH Hl).
Qed.

Lemma split_lines_joined (ls : list string) :
  (forall l, In l ls -> has_char (ascii_of_nat 10) l = false) ->
  Script.split_lines (String.concat EmptyString (map (fun l => l ++ nl) ls)) =
  (ls ++ [EmptyString])%list.
Proof.
  induction ls as [|l ls IH]; intros H; [reflexivity|].
  cbn [map]. rewrite concat_empty_cons, append_assoc.
  rewrite split_lines_line by (apply H; now left).
  rewrite IH; [reflexivity|]. intros l' Hl'. apply H. now right.
Qed.

Lemma existsb_filter {A : Type} (f g : A -> bool) (l : list A) :
  existsb f (filter g l) = existsb (fun x => g x && f x) l.
Proof.
  induction l as [|a l IH]; simpl; [reflexivity|].
  destruct (g a); simpl; now rewrite IH.
Qed.

(** A pattern is in the log captured from an output that is text when it
    is on a line of the output that also has the text startup-script. *)
Lemma captured_log_has env (c : ascii) (pattern : string) :
  Script.is_text (Script.serial_port_output env) = true ->
  has_char (ascii_of_nat 10) (String c pattern) = false ->
  Script.has_substring (String c pattern) (captured_log env) =
  tagged_line env (String c pattern).
Proof.
  intros Ht Hp. unfold captured_log. rewrite Ht.
  unfold tagged_line, Script.grep_lines.
  rewrite <- (grep_lines_has_substring _ _ Hp).
  rewrite split_lines_joined.
  - rewrite existsb_app, existsb_filter. cbn [existsb Script.has_substring prefix].
    now rewrite !orb_false_r.
  - intros l Hl. apply filter_In in Hl. destruct Hl as [Hl _].
    now apply (split_lines_no_newline (Script.serial_port_output env)).
Qed.

(** X14.  Of a serial port output that is text (no NUL byte, no byte
    outside ASCII) the wait for the VM keeps the lines that have the text
    startup-script, and the result is read from what is kept: the check
    passes exactly when some line has startup-script and BuildSucceeded: and
    no line has startup-script and BuildFailed:.  A sentinel on a line
    without startup-script is not seen. *)
Theorem sentinels_count_on_tagged_lines env (w : Script.world) :
  Script.is_text (Script.serial_port_output env) = true ->
  fst (Script.sh_bind (Script.wait_for_shutdown env)
         (fun _ => Script.check_result) w) = Script.Next tt <->
  tagged_line env "BuildFailed:" = false /\ tagged_line env "BuildSucceeded:" = true.
Proof.
  intros Ht.
  unfold Script.sh_bind. rewrite wait_for_shutdown_eq, check_result_later.
  rewrite <- !(captured_log_has env _ _ Ht) by reflexivity.
  destruct (Script.has_substring "BuildFailed:" (captured_log env)).
  - cbn [fst]. split; [discriminate | intros [H _]; discriminate].
  - destruct (Script.has_substring "BuildSucceeded:" (captured_log env)); cbn [fst].
    + split; [now split | reflexivity].
    + split; [discriminate | intros [_ H]; discriminate].
Qed.

Lemma sentinels_count_on_tagged_lines_witness :
  fst (Script.sh_bind (Script.wait_for_shutdown untagged_failure)
         (fun _ => Script.check_result) fresh_world) = Script.Next tt.
Proof.
  apply (sentinels_count_on_tagged_lines untagged_failure fresh_world eq_refl).
  split; reflexivity.
Defined.

(** A failure reported on a line without the tag: the script goes on to
    create the image and ends with status 0. *)
Lemma untagged_failure_is_missed :
  Script.has_substring "BuildFailed:" (Script.serial_port_output untagged_failure) = true /\
  fst (Script.script untagged_failure sample_parameters fresh_world) = 0.
Proof. vm_compute. split; reflexivity. Qed.



(** ** The loop over the sources *)



(** * Missing fields and the caller's mapping *)

(** ** The exception for a field that is not there (C9) *)



Section KeyErrors.

Variable rt : runtime.
Variables (d d' : dict value) (k : string).











End KeyErrors.








(** ** What a call leaves in the caller's mapping (C10) *)

(** Options that give a script: the call returns. *)
Lemma gives_script_generates (rt : runtime) (d : dict value) :
  gives_script d = true -> exists script d', generate rt d = (Ok script, d').
Proof.
  unfold gives_script. fold option_fields.
  rewrite !andb_true_iff. intros (((Hr & Ho) & Hn) & Hs).
  apply (resolves_spec rt) in Hr. destruct Hr as [d' Hi].
  rewrite generate_eq, Hi.
  assert (Hm : first_missing template_fields d' = None).
  { apply first_missing_none. intros n Hin.
    destruct (template_field_cases n Hin) as [H|[H|H]].
    - rewrite <- (option_fields_kept rt d d' _ Hi) in Ho.
      rewrite forallb_forall in Ho. now apply Ho.
    - now apply (assigned_fields_present rt d d' Hi).
    - rewrite <- (network_flags_present rt d d' Hi) in Hn.
      rewrite <- (service_account_flag_present rt d d' Hi) in Hs.
      apply andb_true_iff in Hn. destruct Hn as [Hn1 Hn2].
      unfold conditional_fields in H. simpl in H.
      destruct H as [<-|[<-|[<-|[]]]]; assumption. }
  rewrite Hm. now eexists _, _.
Qed.

(** C10.  A call of [generate] works on the very mapping the caller passes:
    afterwards the generator's [args] attribute is the caller's dict, no
    other object has changed, and the caller's dict is the mapping that
    [_init_args] has filled in.  Every key other than the derived ones keeps
    its value and a run_id that was there is kept.  For options that give a
    script the call returns; and after a call that returns, the script is
    the template filled from the caller's dict as it then stands, and the
    dict has run_id, bucket_name, custom_sources_path, sources_map_k,
    sources_map_v, log_dir, gcs_log_dir and every flag string, the paths and
    the two arrays with the values derived from the bucket, the run id and
    the sources. *)
Theorem generate_mutates_callers_mapping (rt : runtime) (args : nat)
    (st : Generator.state) :
  let d := Generator.heap st args in
  let (r, st') := Generator.call_generate rt args st in
  let d' := Generator.heap st' args in
  (r, d') = generate rt d /\
  Generator.self_args st' = Some args /\
  (forall b, b <> args -> Generator.heap st' b = Generator.heap st b) /\
  (forall k, ~ In k derived_keys -> dict_get k d' = dict_get k d) /\
  (forall v, dict_get "run_id" d = Some v -> dict_get "run_id" d' = Some v) /\
  (forall script, r = Ok script -> forall k, In k derived_keys -> dict_mem k d' = true) /\
  (gives_script d = true -> exists script, r = Ok script) /\
  (forall script, r = Ok script ->
     script = render (repr_dict rt) _template_pieces d' /\
     exists bucket run_id customization_script extra_sources all_sources values,
       dict_get "gcs_bucket" d = Some (VStr bucket) /\
       dict_get "customization_script" d = Some customization_script /\
       dict_get "extra_sources" d = Some extra_sources /\
       all_sources_of customization_script extra_sources = Ok all_sources /\
       str_values all_sources = Some values /\
       dict_get "run_id" d' = Some run_id /\
       dict_get "bucket_name" d' = Some (VStr (replace "gs://" EmptyString bucket)) /\
       dict_get "custom_sources_path" d' =
         Some (VStr ("gs://" ++ replace "gs://" EmptyString bucket ++ "/" ++
                     py_str (repr_dict rt) run_id ++ "/sources")) /\
       dict_get "log_dir" d' =
         Some (VStr ("/tmp/" ++ py_str (repr_dict rt) run_id ++ "/logs")) /\
       dict_get "gcs_log_dir" d' =
         Some (VStr ("gs://" ++ replace "gs://" EmptyString bucket ++ "/" ++
                     py_str (repr_dict rt) run_id ++ "/logs")) /\
       dict_get "sources_map_k" d' = Some (VStr (array_text (keys all_sources))) /\
       dict_get "sources_map_v" d' = Some (VStr (array_text values))).
Proof.
  intros d. pose proof (call_generate_eq rt args st) as H.
  pose proof (gives_script_generates rt d) as Hgives.
  destruct (Generator.call_generate rt args st) as [r st'].
  destruct H as (Hg & Hs & Ho). fold d in Hg.
  split; [exact Hg|]. split; [exact Hs|]. split; [exact Ho|].
  symmetry in Hg.
  assert (Hi : exists r0, _init_args rt d = (r0, Generator.heap st' args)).
  { rewrite generate_eq in Hg.
    destruct (_init_args rt d) as [[[]|e] d1].
    - destruct (first_missing template_fields d1);
        apply pair_equal_spec in Hg; destruct Hg as [_ <-]; now eexists.
    - apply pair_equal_spec in Hg. destruct Hg as [_ <-]. now eexists. }
  destruct Hi as [r0 Hi].
  split.
  { intros k Hk. pose proof (frames_init_args rt d k Hk) as Hf.
    now rewrite Hi in Hf. }
  split.
  { intros v Hv. exact (run_id_kept rt d _ r0 v Hv Hi). }
  split.
  { intros script ->. exact (generated_has_derived_keys rt d _ script Hg). }
  split.
  { intros Hok. destruct (Hgives Hok) as (script & d1 & Hg1).
    rewrite Hg in Hg1. apply pair_equal_spec in Hg1. destruct Hg1 as [-> _].
    now exists script. }
  intros script ->. apply generate_ok_inv in Hg. destruct Hg as (Hi' & _ & Hscript).
  split; [exact Hscript|].
  destruct (resolved_paths rt d _ Hi') as (b & rid & Hb & Hr & _ & Hbn & Hp & Hl & Hgl).
  destruct (resolved_sources rt d _ Hi')
    as (cs & es & all & vals & Hc & He & Ha & Hv & Hk & Hvv).
  exists b, rid, cs, es, all, vals. repeat split; assumption.
Qed.

(** A call that returns: the caller's dict, which had no bucket_name, has
    it afterwards. *)
Lemma generate_mutates_callers_mapping_witness :
  exists script st',
    Generator.call_generate sample_runtime 0 sample_state = (Ok script, st') /\
    Generator.self_args st' = Some 0 /\
    dict_get "bucket_name" (Generator.heap sample_state 0) = None /\
    dict_get "bucket_name" (Generator.heap st' 0) = Some (VStr "b") /\
    dict_get "log_dir" (Generator.heap st' 0) =
      Some (VStr "/tmp/custom-image-demo-20190102-030405/logs").
Proof.
  pose proof (generate_mutates_callers_mapping sample_runtime 0 sample_state) as H.
  cbv zeta in H.
  destruct (Generator.call_generate sample_runtime 0 sample_state) as [r st'].
  destruct H as (Hg & Hs & _ & _ & _ & _ & Hok & Hval).
  destruct (Hok eq_refl) as [script ->].
  exists script, st'. split; [reflexivity|]. split; [exact Hs|]. split; [reflexivity|].
  assert (Hd : Generator.heap st' 0 = networked_resolved).
  { change (Generator.heap sample_state 0) with networked_options in Hg.
    rewrite networked_generated in Hg. apply pair_equal_spec in Hg. exact (proj2 Hg). }
  rewrite Hd. split; reflexivity.
Defined.
